(** * SmoothOperator: the checklist execution engine

    A shallow embedding of the Python sources

      - [validation_system/blockers/auto_blocker_resolver.py]  (BlockerResolver)
      - [validation_system/core.py]                            (TransitionValidator)
      - [orchestrator.py]                                      (Orchestrator, main)
      - [external_ai_integration.py]                           (LMStudioClient)

    Dictionaries read from the checklist document become records whose
    optional keys are [option] fields; dictionaries used as maps become
    [gmap string _].  Everything the program obtains from or does to the
    outside (child processes, the artifact directory, the JSON decoder,
    the assistant, the status file) is an oracle of the environment record
    [Env], threaded through an abstract world [W]. *)

From Stdlib Require Import String Ascii List ZArith Bool Lia.
From stdpp Require Import base option gmap strings list pretty.
Import ListNotations.

Local Open Scope string_scope.
Set Warnings "-register-all".

(** ** Python values and results *)

(** Values produced by [json.loads].  A float keeps its literal: the
    sources never compute with one. *)
Inductive pyval :=
  | PyNone
  | PyBool (b : bool)
  | PyInt (n : Z)
  | PyFloat (literal : string)
  | PyStr (s : string)
  | PyList (l : list pyval)
  | PyDict (items : list (string * pyval)).

(** A computation either returns or raises; the payload of [Raise] is
    [str(e)]. *)
Inductive res (A : Type) :=
  | Ok (a : A)
  | Raise (msg : string).
Arguments Ok {A} a.
Arguments Raise {A} msg.

Definition py_type_name (v : pyval) : string :=
  match v with
  | PyNone => "NoneType"
  | PyBool _ => "bool"
  | PyInt _ => "int"
  | PyFloat _ => "float"
  | PyStr _ => "str"
  | PyList _ => "list"
  | PyDict _ => "dict"
  end.

Fixpoint dict_lookup (items : list (string * pyval)) (key : string) : option pyval :=
  match items with
  | [] => None
  | (k, v) :: rest => if String.eqb k key then Some v else dict_lookup rest key
  end.

(** The text of the [AttributeError] raised by [v.attr] when the type of
    [v] has no such attribute. *)
Definition no_attribute (v : pyval) (attr : string) : string :=
  "'" +:+ py_type_name v +:+ "' object has no attribute '" +:+ attr +:+ "'".

(** [v.get(key, default)]: defined on dictionaries only, an
    [AttributeError] on every other value. *)
Definition py_get (v : pyval) (key : string) (default : pyval) : res pyval :=
  match v with
  | PyDict items => Ok (from_option id default (dict_lookup items key))
  | _ => Raise (no_attribute v "get")
  end.

(** [v == s] for a string literal [s]. *)
Definition py_eq_str (v : pyval) (s : string) : bool :=
  match v with
  | PyStr t => String.eqb t s
  | _ => false
  end.

(** [c.lower()] on the ASCII range; other characters are left alone (no
    character outside ASCII lowers to a letter of the word looked for
    below). *)
Definition ascii_lower (c : ascii) : ascii :=
  let n := nat_of_ascii c in
  if (65 <=? n)%nat && (n <=? 90)%nat then ascii_of_nat (n + 32) else c.

Fixpoint str_lower (s : string) : string :=
  match s with
  | EmptyString => EmptyString
  | String c rest => String (ascii_lower c) (str_lower rest)
  end.

(** [needle in hay] on strings. *)
Fixpoint str_in (needle hay : string) : bool :=
  String.prefix needle hay ||
  match hay with
  | EmptyString => false
  | String _ rest => str_in needle rest
  end.

(** ** The checklist document

    Keys read with [k in d] or [d.get(k, ...)] are [option] fields.  The
    ["type"] of a blocker, the ["script"] of a validation, the
    ["description"] of a task and the ["name"] of a phase, which are read
    with [d[k]], are plain fields: the records describe checklists that
    have them (on a checklist without one, each function that reads it
    raises [KeyError]). *)

Record Resolution := {
  diagnostics : option string;
  lmstudio_prompt : option string;
  required_experts : option (list string)
}.

Record Blocker := {
  type : string;
  resolution : option Resolution
}.

Record Validation := {
  script : string;
  expected_artifacts : option (list string)
}.

Record Task := {
  description : string;
  command : option string;
  validation : option Validation;
  blockers : option (list Blocker)
}.

Record SuccessGate := {
  metric : option string;
  min_value : option Z
}.

(** A JSON value that is not an object. *)
Inductive Plain :=
  | PlainNone
  | PlainBool (b : bool)
  | PlainInt (n : Z)
  | PlainFloat (literal : string)
  | PlainStr (s : string)
  | PlainList (l : list pyval).

(** The value under ["success_gate"]: an object, or anything else a
    checklist file can hold there. *)
Inductive Gate :=
  | GateObject (gate : SuccessGate)
  | GateOther (value : Plain).
Coercion GateObject : SuccessGate >-> Gate.

Record Phase := {
  name : string;
  tasks : option (list Task);
  success_gate : option Gate
}.

(** [checklist_title] is the key ["name"] of the checklist, which only
    [display_status] reads. *)
Record Checklist := {
  checklist_title : option string;
  phases : list Phase
}.

(** ** The status document *)

(** One entry of the status document: [{"status": ..., "tasks": {...}}].
    A document reloaded from disk may lack either key. *)
Record PhaseEntry := {
  entry_status : option string;
  entry_tasks : option (gmap string string)
}.

(** ** The environment *)

(** [subprocess.run(line, shell=True, ...)] and [subprocess.run(argv, ...)]. *)
Inductive Cmd :=
  | Shell (line : string)
  | Argv (args : list string).

(** What [subprocess.run(..., capture_output=True, text=True)] gives back:
    a completed process, or an exception raised while starting it. *)
Inductive ProcOutcome :=
  | Completed (returncode : Z) (stdout stderr : string)
  | SpawnError (msg : string).

(** [path.exists()] followed by [open(path).read()]. *)
Inductive FileRead :=
  | Absent
  | Content (text : string)
  | ReadError (msg : string).

(** The dictionary handed to [LMStudioClient.generate_prompt]. *)
Record PromptContext := {
  ctx_phase : string;
  ctx_task_description : string;
  ctx_implementation_data : string
}.

(** The assistant answers with a text, or the call raises. *)
Inductive AiOutcome :=
  | Reply (text : string)
  | AiError (msg : string).

(** [dump_status path doc] is
    [with open(path, 'w', encoding='utf-8') as f: json.dump(doc, f, indent=4)]:
    the text of the exception that left the block, if one did, and the
    world as the block left it. *)
Record Env (W : Type) := {
  subprocess_run : Cmd -> W -> ProcOutcome * W;
  json_loads : string -> option pyval;
  read_artifact : W -> string -> string -> FileRead;
  generate_prompt : PromptContext -> W -> AiOutcome * W;
  dump_status : string -> gmap string PhaseEntry -> W -> option string * W
}.
Arguments subprocess_run {W} _ _ _.
Arguments json_loads {W} _ _.
Arguments read_artifact {W} _ _ _ _.
Arguments generate_prompt {W} _ _ _.
Arguments dump_status {W} _ _ _ _.

(** ** validation_system/blockers/auto_blocker_resolver.py *)

Module BlockerResolver.
Section WithEnv.
Context {W : Type} (env : Env W).

(** [blocker.get("resolution", {})] when the key is missing. *)
Definition empty_resolution : Resolution :=
  {| diagnostics := None; lmstudio_prompt := None; required_experts := None |}.

(** The [if "diagnostics" in resolution:] block of [_check_if_resolved].
    [false] stands for each of its [return False]; [true] means control
    leaves the block and goes on to the statements after it. *)
Definition diagnostics_pass (r : Resolution) (w : W) : bool * W :=
  match diagnostics r with
  | None => (true, w)
  | Some line =>
      match subprocess_run env (Shell line) w with
      | (SpawnError _, w1) => (false, w1)
      | (Completed returncode stdout _, w1) =>
          if negb (returncode =? 0)%Z then (false, w1)
          else
            match json_loads env stdout with
            | None => (true, w1)
            | Some output =>
                match py_get output "status" PyNone with
                | Raise _ => (false, w1)
                | Ok st => (py_eq_str st "success", w1)
                end
            end
      end
  end.

(** [if prompt:] holds for a non-empty string. *)
Definition truthy (s : string) : bool :=
  match s with
  | EmptyString => false
  | String _ _ => true
  end.

(** [if not required_experts: return True] and the [return False] after it. *)
Definition no_experts_required (r : Resolution) : bool :=
  match required_experts r with
  | Some (_ :: _) => false
  | _ => true
  end.

Definition _check_if_resolved (blocker : Blocker) (w : W) : res bool * W :=
  let r := from_option id empty_resolution (resolution blocker) in
  let '(pass, w1) := diagnostics_pass r w in
  if negb pass then (Ok false, w1)
  else
    match lmstudio_prompt r with
    | Some prompt =>
        if truthy prompt then
          match generate_prompt env
                  {| ctx_phase := "Blocker Resolution";
                     ctx_task_description := "Checking blocker: " +:+ type blocker;
                     ctx_implementation_data := prompt |} w1 with
          | (Reply response, w2) => (Ok (str_in "resolved" (str_lower response)), w2)
          | (AiError msg, w2) => (Raise msg, w2)
          end
        else (Ok (no_experts_required r), w1)
    | None => (Ok (no_experts_required r), w1)
    end.

(** The loop of [resolve_blockers]: the blockers are checked in order and
    the unresolved ones are kept in order; an exception leaves the loop. *)
Fixpoint resolve_blockers (blockers : list Blocker) (w : W) : res (list Blocker) * W :=
  match blockers with
  | [] => (Ok [], w)
  | blocker :: rest =>
      match _check_if_resolved blocker w with
      | (Raise msg, w1) => (Raise msg, w1)
      | (Ok resolved, w1) =>
          match resolve_blockers rest w1 with
          | (Raise msg, w2) => (Raise msg, w2)
          | (Ok unresolved, w2) =>
              (Ok (if resolved then unresolved else blocker :: unresolved), w2)
          end
      end
  end.

End WithEnv.

(** The resolution a blocker is checked against. *)
Definition resolution_of (b : Blocker) : Resolution :=
  match resolution b with
  | Some r => r
  | None => {| diagnostics := None; lmstudio_prompt := None; required_experts := None |}
  end.

(** A blocker for which [_check_if_resolved] starts no process and asks
    no assistant: no diagnostic command, and no prompt or an empty one. *)
Definition nothing_to_run (b : Blocker) : Prop :=
  diagnostics (resolution_of b) = None /\
  (lmstudio_prompt (resolution_of b) = None \/
   lmstudio_prompt (resolution_of b) = Some EmptyString).

(** A non-empty list under ["required_experts"]. *)
Definition requires_experts (b : Blocker) : bool :=
  match required_experts (resolution_of b) with
  | Some (_ :: _) => true
  | _ => false
  end.

End BlockerResolver.

(** ** validation_system/core.py *)

Module TransitionValidator.

Inductive ValidationStatus := SUCCESS | FAILURE | BLOCKED | SKIPPED.

(** The dataclass [ValidationResult]: exactly these three fields.
    [error_message] holds [None], a string built by the validator, or
    whatever value the script's document carries under that key. *)
Record ValidationResult := {
  status : ValidationStatus;
  artifacts : gmap string string;
  error_message : pyval
}.

(** Names bound in the body of [class TransitionValidator]; looking up
    any other attribute on an instance is an [AttributeError]. *)
Definition class_attributes : list string := ["__init__"; "validate_task"].

(** Names bound on the instance by [__init__]. *)
Definition instance_attributes : list string := ["artifacts_dir"].

Definition has_attribute (attr : string) : bool :=
  existsb (String.eqb attr) (instance_attributes ++ class_attributes).

(** Fields of the dataclass, in declaration order. *)
Definition ValidationResult_fields : list string :=
  ["status"; "artifacts"; "error_message"].

Section WithEnv.
Context {W : Type} (env : Env W).

(** How the [for artifact in expected_artifacts] loop ends. *)
Inductive Collected :=
  | AllPresent (found : gmap string string)
  | Missing (found : gmap string string) (artifact : string)
  | ReadFailed (msg : string).

Fixpoint collect_artifacts (artifacts_dir : string) (expected : list string)
    (w : W) (found : gmap string string) : Collected :=
  match expected with
  | [] => AllPresent found
  | artifact :: rest =>
      match read_artifact env w artifacts_dir artifact with
      | Content text => collect_artifacts artifacts_dir rest w (<[artifact := text]> found)
      | Absent => Missing found artifact
      | ReadError msg => ReadFailed msg
      end
  end.

Definition validate_task (artifacts_dir : string) (task : Task) (phase_name : string)
    (w : W) : ValidationResult * W :=
  match validation task with
  | None => ({| status := SUCCESS; artifacts := ∅; error_message := PyNone |}, w)
  | Some v =>
      let expected := from_option id [] (expected_artifacts v) in
      match subprocess_run env (Argv ["python"; script v]) w with
      | (SpawnError msg, w1) =>
          ({| status := FAILURE; artifacts := ∅;
              error_message := PyStr ("Validation error: " +:+ msg) |}, w1)
      | (Completed returncode stdout stderr, w1) =>
          if negb (returncode =? 0)%Z then
            ({| status := FAILURE; artifacts := ∅;
                error_message := PyStr ("Validation script failed: " +:+ stderr) |}, w1)
          else
            match json_loads env stdout with
            | None =>
                ({| status := FAILURE; artifacts := ∅;
                    error_message := PyStr "Invalid validation script output format" |}, w1)
            | Some output =>
                match output with
                | PyDict items =>
                    let st := from_option id (PyStr "failure") (dict_lookup items "status") in
                    match collect_artifacts artifacts_dir expected w1 ∅ with
                    | ReadFailed msg =>
                        ({| status := FAILURE; artifacts := ∅;
                            error_message := PyStr ("Validation error: " +:+ msg) |}, w1)
                    | Missing found artifact =>
                        ({| status := FAILURE; artifacts := found;
                            error_message := PyStr ("Missing artifact: " +:+ artifact) |}, w1)
                    | AllPresent found =>
                        if py_eq_str st "success" then
                          ({| status := SUCCESS; artifacts := found;
                              error_message := PyNone |}, w1)
                        else
                          ({| status := FAILURE; artifacts := found;
                              error_message :=
                                from_option id (PyStr "Validation failed")
                                  (dict_lookup items "error_message") |}, w1)
                    end
                | _ =>
                    ({| status := FAILURE; artifacts := ∅;
                        error_message :=
                          PyStr ("Validation error: " +:+ no_attribute output "get") |}, w1)
                end
            end
      end
  end.

End WithEnv.
End TransitionValidator.

(** ** orchestrator.py *)

Module Orchestrator.

(** What the engine does that can be seen from outside, in order. *)
Inductive Event :=
  | EvSave (path : string) (doc : gmap string PhaseEntry)
  | EvResolve (phase_name task_desc : string) (unresolved : res (list Blocker))
  | EvCommand (phase_name task_desc line : string) (outcome : ProcOutcome)
  | EvValidation (phase_name task_desc script : string) (outcome : ProcOutcome).

(** The fields of [self] that [execute_checklist] reads but never writes. *)
Record Loaded := {
  current_checklist : option Checklist;
  checklist_name : option string
}.

Record State (W : Type) := {
  world : W;
  status : gmap string PhaseEntry;
  trace : list Event
}.
Arguments world {W} _.
Arguments status {W} _.
Arguments trace {W} _.

(** [return 1] inside the loops, against falling through to the next
    iteration. *)
Inductive Flow :=
  | Next
  | Exit (code : Z).

(** [_check_success_gate].  On an object every path of the [try] body
    returns [True].  On any other value the body raises and the [except]
    branch returns [False]: [None], booleans and numbers cannot be
    searched with [in]; a string or a list can, and when it holds
    ["metric"] it is subscripted with that string. *)
Definition _check_success_gate (gate : Gate) : bool :=
  match gate with
  | GateObject gate =>
      match metric gate with
      | None => true
      | Some metric =>
          let min_value := from_option id 0%Z (min_value gate) in
          if String.eqb metric "integration_test_coverage" then true
          else if String.eqb metric "api_test_coverage" then true
          else if String.eqb metric "validation_coverage" then true
          else true
      end
  | GateOther (PlainStr s) => negb (str_in "metric" s)
  | GateOther (PlainList l) => negb (existsb (fun x => py_eq_str x "metric") l)
  | GateOther _ => false
  end.

Definition status_path (checklist_name : string) : string :=
  checklist_name +:+ "_status.json".

(** [self.status[phase_name] = {...}] when the phase has no entry yet. *)
Definition ensure_phase (phase_name : string) (doc : gmap string PhaseEntry)
    : gmap string PhaseEntry :=
  match doc !! phase_name with
  | Some _ => doc
  | None => <[phase_name := {| entry_status := Some "not_started"; entry_tasks := Some ∅ |}]> doc
  end.

(** [self.status[phase_name]["status"] = value]. *)
Definition set_phase_status (phase_name value : string) (doc : gmap string PhaseEntry)
    : gmap string PhaseEntry :=
  alter (fun e => {| entry_status := Some value; entry_tasks := entry_tasks e |})
        phase_name doc.

(** [self.status[phase_name]["tasks"][task_desc] = value], after the
    ["tasks"] key has been created when missing. *)
Definition set_task_status (phase_name task_desc value : string)
    (doc : gmap string PhaseEntry) : gmap string PhaseEntry :=
  alter (fun e => {| entry_status := entry_status e;
                     entry_tasks := Some (<[task_desc := value]> (from_option id ∅ (entry_tasks e))) |})
        phase_name doc.

Definition task_status (doc : gmap string PhaseEntry) (phase_name task_desc : string)
    : option string :=
  e ← doc !! phase_name; t ← entry_tasks e; t !! task_desc.

Definition phase_status (doc : gmap string PhaseEntry) (phase_name : string)
    : option string :=
  e ← doc !! phase_name; entry_status e.

Section WithEnv.
Context {W : Type} (env : Env W) (self : Loaded).

Definition update (f : gmap string PhaseEntry -> gmap string PhaseEntry) (st : State W)
    : State W :=
  {| world := world st; status := f (status st); trace := trace st |}.

Definition emit (ev : Event) (w : W) (st : State W) : State W :=
  {| world := w; status := status st; trace := trace st ++ [ev] |}.

(** [_save_status]: nothing without a loaded checklist or before
    [load_checklist] has set [checklist_name]; otherwise the whole
    document is dumped to the status file.  An exception in there is
    caught and only printed, so the engine goes on, in the world the
    attempt left, whatever came of it.  The event records the attempt. *)
Definition _save_status (st : State W) : State W :=
  match current_checklist self, checklist_name self with
  | Some _, Some n =>
      emit (EvSave (status_path n) (status st))
           (snd (dump_status env (status_path n) (status st) (world st))) st
  | _, _ => st
  end.

(** How one stage of the task body ends: fall through to the next stage,
    [continue] with the next task, or leave [execute_checklist]. *)
Inductive Stage :=
  | Proceed (st : State W)
  | Continue (st : State W)
  | Return (code : Z) (st : State W).

(** Lines 112-133.  The messages printed for an unresolved blocker read
    its [type] and, under its resolution, a key that a resolution never
    has; on the records above they raise nothing. *)
Definition check_blockers (phase_name : string) (task : Task) (st : State W) : Stage :=
  match from_option id [] (blockers task) with
  | [] => Proceed st
  | bs =>
      let '(r, w1) := BlockerResolver.resolve_blockers env bs (world st) in
      let st1 := emit (EvResolve phase_name (description task) r) w1 st in
      match r with
      | Raise _ => Return 1 st1
      | Ok [] => Proceed st1
      | Ok (_ :: _) =>
          Continue (_save_status
                      (update (set_task_status phase_name (description task) "blocked") st1))
      end
  end.

(** Lines 135-156. *)
Definition run_command (phase_name : string) (task : Task) (st : State W) : Stage :=
  match command task with
  | None => Proceed st
  | Some line =>
      let '(outcome, w1) := subprocess_run env (Shell line) (world st) in
      let st1 := emit (EvCommand phase_name (description task) line outcome) w1 st in
      let failed :=
        _save_status (update (set_task_status phase_name (description task) "failed") st1) in
      match outcome with
      | Completed returncode _ _ =>
          if negb (returncode =? 0)%Z then Return 1 failed else Proceed st1
      | SpawnError _ => Return 1 failed
      end
  end.

(** Lines 158-179. *)
Definition run_validation (phase_name : string) (task : Task) (st : State W) : Stage :=
  match validation task with
  | None => Proceed st
  | Some v =>
      let '(outcome, w1) := subprocess_run env (Argv ["python"; script v]) (world st) in
      let st1 := emit (EvValidation phase_name (description task) (script v) outcome) w1 st in
      let failed :=
        _save_status (update (set_task_status phase_name (description task) "failed") st1) in
      match outcome with
      | Completed returncode _ _ =>
          if negb (returncode =? 0)%Z then Return 1 failed else Proceed st1
      | SpawnError _ => Return 1 failed
      end
  end.

(** The body of [for task in phase.get("tasks", [])]. *)
Definition execute_task (phase_name : string) (task : Task) (st : State W)
    : Flow * State W :=
  let st0 :=
    _save_status (update (set_task_status phase_name (description task) "in_progress") st) in
  match check_blockers phase_name task st0 with
  | Return code st1 => (Exit code, st1)
  | Continue st1 => (Next, st1)
  | Proceed st1 =>
      match run_command phase_name task st1 with
      | Return code st2 => (Exit code, st2)
      | Continue st2 => (Next, st2)
      | Proceed st2 =>
          match run_validation phase_name task st2 with
          | Return code st3 => (Exit code, st3)
          | Continue st3 => (Next, st3)
          | Proceed st3 =>
              (Next,
               _save_status
                 (update (set_task_status phase_name (description task) "completed") st3))
          end
      end
  end.

Fixpoint execute_tasks (phase_name : string) (ts : list Task) (st : State W)
    : Flow * State W :=
  match ts with
  | [] => (Next, st)
  | task :: rest =>
      match execute_task phase_name task st with
      | (Exit code, st1) => (Exit code, st1)
      | (Next, st1) => execute_tasks phase_name rest st1
      end
  end.

(** The body of [for phase in phases]. *)
Definition execute_phase (phase : Phase) (st : State W) : Flow * State W :=
  let phase_name := name phase in
  let st0 :=
    _save_status
      (update (fun doc => set_phase_status phase_name "in_progress" (ensure_phase phase_name doc))
              st) in
  match execute_tasks phase_name (from_option id [] (tasks phase)) st0 with
  | (Exit code, st1) => (Exit code, st1)
  | (Next, st1) =>
      let completed := _save_status (update (set_phase_status phase_name "completed") st1) in
      match success_gate phase with
      | Some gate =>
          if negb (_check_success_gate gate) then
            (Exit 1, _save_status (update (set_phase_status phase_name "failed") st1))
          else (Next, completed)
      | None => (Next, completed)
      end
  end.

Fixpoint execute_phases (ps : list Phase) (st : State W) : Flow * State W :=
  match ps with
  | [] => (Next, st)
  | phase :: rest =>
      match execute_phase phase st with
      | (Exit code, st1) => (Exit code, st1)
      | (Next, st1) => execute_phases rest st1
      end
  end.

Definition execute_checklist (st : State W) : Z * State W :=
  match current_checklist self with
  | None => (1%Z, st)
  | Some checklist =>
      match execute_phases (phases checklist) st with
      | (Exit code, st1) => (code, st1)
      | (Next, st1) => (0%Z, st1)
      end
  end.

End WithEnv.

(** A task command that ran to completion with a non-zero exit status. *)
Definition failed_command (ev : Event) : Prop :=
  match ev with
  | EvCommand _ _ _ (Completed returncode _ _) => returncode <> 0%Z
  | _ => False
  end.

(** A stretch of the trace without such a command. *)
Definition Quiet (evs : list Event) : Prop :=
  Forall (fun ev => ~ failed_command ev) evs.

(** How a piece of the run relates the state before to the state after:
    either it added a quiet stretch to the trace, or it left the engine
    with code 1 right after a failed command and the save, to the status
    file of checklist [n], of the document that marks that command's task
    failed. *)
Inductive Ran {W : Type} (n : string) (st : State W) : Flow -> State W -> Prop :=
  | RanQuiet flow st' (added : list Event) :
      trace st' = (trace st ++ added)%list ->
      Quiet added ->
      Ran n st flow st'
  | RanFailed st' (pre : list Event) pn td line rc out err :
      trace st' =
        (trace st ++ pre ++
           [EvCommand pn td line (Completed rc out err);
            EvSave (status_path n) (status st')])%list ->
      Quiet pre ->
      rc <> 0%Z ->
      task_status (status st') pn td = Some "failed" ->
      Ran n st (Exit 1) st'.

(** Keys of the status document are never removed. *)
Definition Keeps {W : Type} (st st' : State W) : Prop :=
  forall k, is_Some (status st !! k) -> is_Some (status st' !! k).


(** *** [load_checklist] *)

(** The checklist file, decoded: [data] and [data["checklist"]]. *)
Record RawSection := {
  raw_name : option string;
  raw_phases : option (list Phase)
}.

Record RawChecklist := {
  raw_checklist : option RawSection
}.

(** [checklist_path.exists()] followed by [json.load]. *)
Inductive ChecklistRead :=
  | ChecklistMissing
  | ChecklistUndecodable (msg : string)
  | ChecklistDecoded (data : RawChecklist).

(** [status_path.exists()] followed by [json.load]. *)
Inductive StatusRead :=
  | StatusMissing
  | StatusUndecodable (msg : string)
  | StatusDecoded (doc : gmap string PhaseEntry).

Record Files (W : Type) := {
  read_checklist : W -> string -> string -> ChecklistRead;
  read_status : W -> string -> StatusRead
}.
Arguments read_checklist {W} _ _ _ _.
Arguments read_status {W} _ _ _.

(** The two dictionary comprehensions: a later entry with the same key
    replaces an earlier one. *)
Definition initial_tasks (ts : list Task) : gmap string string :=
  fold_left (fun m task => <[description task := "not_started"]> m) ts ∅.

Definition initial_entry (phase : Phase) : PhaseEntry :=
  {| entry_status := Some "not_started";
     entry_tasks := Some (initial_tasks (from_option id [] (tasks phase))) |}.

Definition initial_status (ps : list Phase) : gmap string PhaseEntry :=
  fold_left (fun m phase => <[name phase := initial_entry phase]> m) ps ∅.

(** The result is what [load_checklist] returns or raises, the fields of
    [self] as it leaves them, and the state.  The phases of the checklist
    file and the document of the status file are taken in the shape of
    the records above. *)
Definition load_checklist {W : Type} (env : Env W) (files : Files W)
    (checklist_dir checklist_name : string) (self : Loaded) (st : State W)
    : res unit * Loaded * State W :=
  let named :=
    {| current_checklist := current_checklist self;
       checklist_name := Some checklist_name |} in
  match read_checklist files (world st) checklist_dir checklist_name with
  | ChecklistMissing =>
      (Raise ("Checklist " +:+ checklist_name +:+ " not found"), named, st)
  | ChecklistUndecodable msg => (Raise msg, named, st)
  | ChecklistDecoded data =>
      match raw_checklist data with
      | None => (Raise "Invalid checklist format: missing 'checklist' key", named, st)
      | Some section =>
          match raw_phases section with
          | None => (Raise "Invalid checklist format: missing 'phases' key", named, st)
          | Some ps =>
              let loaded :=
                {| current_checklist :=
                     Some {| checklist_title := raw_name section; phases := ps |};
                   checklist_name := Some checklist_name |} in
              match read_status files (world st) (status_path checklist_name) with
              | StatusDecoded doc =>
                  (Ok (), loaded,
                   {| world := world st; status := doc; trace := trace st |})
              | StatusUndecodable msg => (Raise msg, loaded, st)
              | StatusMissing =>
                  (Ok (), loaded,
                   _save_status env loaded
                     {| world := world st; status := initial_status ps;
                        trace := trace st |})
              end
          end
      end
  end.

(** [Orchestrator()]: no checklist, no [checklist_name] attribute, an
    empty status. *)
Definition fresh : Loaded :=
  {| current_checklist := None; checklist_name := None |}.

(** *** [display_status] *)

Definition status_emoji (s : string) : string :=
  if String.eqb s "not_started" then "⚪"
  else if String.eqb s "in_progress" then "🔄"
  else if String.eqb s "completed" then "✅"
  else if String.eqb s "failed" then "❌"
  else if String.eqb s "blocked" then "⛔"
  else "❓".

Definition newline : string := String (ascii_of_nat 10) EmptyString.

(** ["\n".join(output)]. *)
Fixpoint join_lines (lines : list string) : string :=
  match lines with
  | [] => EmptyString
  | [line] => line
  | line :: rest => line +:+ newline +:+ join_lines rest
  end.

(** ["=" * 50]. *)
Definition rule : string := "==================================================".

Definition phase_line (doc : gmap string PhaseEntry) (phase : Phase) : string :=
  let phase_status := from_option id "not_started" (phase_status doc (name phase)) in
  status_emoji phase_status +:+ " Phase: " +:+ name phase +:+ " [" +:+ phase_status +:+ "]".

(** The text of the [TypeError] raised by [value["metric"]]. *)
Definition not_subscriptable (value : Plain) : string :=
  match value with
  | PlainNone => "'NoneType' object is not subscriptable"
  | PlainBool _ => "'bool' object is not subscriptable"
  | PlainInt _ => "'int' object is not subscriptable"
  | PlainFloat _ => "'float' object is not subscriptable"
  | PlainStr _ => "string indices must be integers, not 'str'"
  | PlainList _ => "list indices must be integers or slices, not str"
  end.

(** The line for the success gate; both keys are read with [gate[...]],
    so a missing one is a [KeyError], and a gate that is not an object is
    a [TypeError]. *)
Definition gate_line (gate : Gate) : res string :=
  match gate with
  | GateObject gate =>
      match metric gate with
      | None => Raise "'metric'"
      | Some m =>
          match min_value gate with
          | None => Raise "'min_value'"
          | Some v => Ok ("   🎯 Success Gate: " +:+ m +:+ " (min: " +:+ pretty v +:+ ")")
          end
      end
  | GateOther value => Raise (not_subscriptable value)
  end.

Definition task_line (doc : gmap string PhaseEntry) (phase_name : string) (task : Task)
    : string :=
  let task_status :=
    from_option id "not_started" (task_status doc phase_name (description task)) in
  "   " +:+ status_emoji task_status +:+ " " +:+ description task
        +:+ " [" +:+ task_status +:+ "]".

Definition phase_lines (doc : gmap string PhaseEntry) (phase : Phase) : res (list string) :=
  let body :=
    (map (task_line doc (name phase)) (from_option id [] (tasks phase))
       ++ [EmptyString])%list in
  match success_gate phase with
  | None => Ok (phase_line doc phase :: body)
  | Some gate =>
      match gate_line gate with
      | Raise msg => Raise msg
      | Ok line => Ok (phase_line doc phase :: line :: body)
      end
  end.

Fixpoint all_phase_lines (doc : gmap string PhaseEntry) (ps : list Phase)
    : res (list string) :=
  match ps with
  | [] => Ok []
  | phase :: rest =>
      match phase_lines doc phase with
      | Raise msg => Raise msg
      | Ok lines =>
          match all_phase_lines doc rest with
          | Raise msg => Raise msg
          | Ok more => Ok (lines ++ more)%list
          end
      end
  end.

(** The first line reads the checklist's ["name"] with [[...]], before
    any phase is looked at. *)
Definition display_status (self : Loaded) (doc : gmap string PhaseEntry) : res string :=
  match current_checklist self with
  | None => Ok "No checklist loaded"
  | Some checklist =>
      match checklist_title checklist with
      | None => Raise "'name'"
      | Some title =>
          match all_phase_lines doc (phases checklist) with
          | Raise msg => Raise msg
          | Ok lines =>
              Ok (join_lines
                    (("📋 Checklist: " +:+ title) :: rule :: EmptyString :: lines))
          end
      end
  end.

(** *** [main] *)

(** What [main] returns ([None] is [None]), what it prints itself, and
    the state it leaves. *)
Record MainResult (W : Type) := {
  returned : option Z;
  printed : option string;
  final : State W
}.
Arguments returned {W} _.
Arguments printed {W} _.
Arguments final {W} _.

(** [main] from its [try] on: [checklist] and [status_flag] are
    [args.checklist] and [args.status], and [w] is the world in which
    [Orchestrator()] has been constructed. *)
Definition main {W : Type} (env : Env W) (files : Files W)
    (checklist : string) (status_flag : bool) (w : W) : MainResult W :=
  let st := {| world := w; status := ∅; trace := [] |} in
  match load_checklist env files ".checklists" checklist fresh st with
  | (Raise msg, _, st1) =>
      {| returned := Some 1%Z; printed := Some ("Error: " +:+ msg); final := st1 |}
  | (Ok _, self, st1) =>
      if status_flag then
        match display_status self (status st1) with
        | Ok text => {| returned := None; printed := Some text; final := st1 |}
        | Raise msg =>
            {| returned := Some 1%Z; printed := Some ("Error: " +:+ msg); final := st1 |}
        end
      else
        let '(code, st2) := execute_checklist env self st1 in
        {| returned := Some code; printed := None; final := st2 |}
  end.

(** *** Notions about a run *)

(** A process the engine does not go on after: a non-zero exit status or
    a failure to start. *)
Definition bad_outcome (o : ProcOutcome) : Prop :=
  match o with
  | Completed returncode _ _ => returncode <> 0%Z
  | SpawnError _ => True
  end.

(** The events after which [execute_checklist] returns 1. *)
Definition fatal (ev : Event) : Prop :=
  match ev with
  | EvCommand _ _ _ o => bad_outcome o
  | EvValidation _ _ _ o => bad_outcome o
  | EvResolve _ _ (Raise _) => True
  | _ => False
  end.

Definition Calm (evs : list Event) : Prop :=
  Forall (fun ev => ~ fatal ev) evs.

(** [ev] is a command or a validation script of task [td] of phase [pn]
    that went wrong. *)
Definition failure_of (ev : Event) (pn td : string) : Prop :=
  match ev with
  | EvCommand p t _ o => p = pn /\ t = td /\ bad_outcome o
  | EvValidation p t _ o => p = pn /\ t = td /\ bad_outcome o
  | _ => False
  end.

(** The ways a piece of the run of a loaded orchestrator ends: calmly,
    going on; right after a failed process and the save that marks its
    task failed; right after blocker resolution raised, with the task
    still in progress; right after the save that marks a phase failed
    whose success gate did not pass. *)
Inductive Ended {W : Type} (n : string) (st : State W) : Flow -> State W -> Prop :=
  | EndedNext st' (added : list Event) :
      trace st' = (trace st ++ added)%list ->
      Calm added ->
      Ended n st Next st'
  | EndedFailed st' (pre : list Event) ev pn td :
      trace st' =
        (trace st ++ pre ++ [ev; EvSave (status_path n) (status st')])%list ->
      Calm pre ->
      failure_of ev pn td ->
      task_status (status st') pn td = Some "failed" ->
      Ended n st (Exit 1) st'
  | EndedRaised st' (pre : list Event) pn td msg :
      trace st' = (trace st ++ pre ++ [EvResolve pn td (Raise msg)])%list ->
      Calm pre ->
      task_status (status st') pn td = Some "in_progress" ->
      Ended n st (Exit 1) st'
  | EndedGate st' (pre : list Event) pn :
      trace st' = (trace st ++ pre ++ [EvSave (status_path n) (status st')])%list ->
      Calm pre ->
      phase_status (status st') pn = Some "failed" ->
      Ended n st (Exit 1) st'.



(** The processes started by the events of a trace, with the task they
    were started for. *)
Definition runs (tr : list Event) : list (string * string * Cmd) :=
  flat_map (fun ev =>
              match ev with
              | EvCommand pn td line _ => [(pn, td, Shell line)]
              | EvValidation pn td script _ => [(pn, td, Argv ["python"; script])]
              | _ => []
              end) tr.

(** The processes a task, a phase and a checklist declare, in order. *)
Definition task_runs (phase_name : string) (task : Task) : list (string * string * Cmd) :=
  (match command task with
   | Some line => [(phase_name, description task, Shell line)]
   | None => []
   end ++
   match validation task with
   | Some v => [(phase_name, description task, Argv ["python"; script v])]
   | None => []
   end)%list.

Definition phase_runs (phase : Phase) : list (string * string * Cmd) :=
  flat_map (task_runs (name phase)) (from_option id [] (tasks phase)).

Definition declared_runs (ps : list Phase) : list (string * string * Cmd) :=
  flat_map phase_runs ps.

(** The status document of checklist [n] is the only file saved. *)
Definition saves_only_to (n : string) (tr : list Event) : Prop :=
  Forall (fun ev => match ev with EvSave path _ => path = status_path n | _ => True end) tr.

(** From [st] to [st'] the trace grew by events that start, in this
    order, some of the processes [rs] and that save to no other file than
    the status file of the loaded checklist. *)
Definition Grew {W : Type} (self : Loaded) (st st' : State W)
    (rs : list (string * string * Cmd)) : Prop :=
  exists added,
    trace st' = (trace st ++ added)%list /\
    sublist (runs added) rs /\
    forall n, checklist_name self = Some n -> saves_only_to n added.

(** A task status the engine leaves behind when it goes on. *)
Definition settled (s : option string) : Prop :=
  s = Some "completed" \/ s = Some "blocked".

(** Phase [pn] is completed and the tasks named in [tds] are settled. *)
Definition Done (pn : string) (tds : list string) (doc : gmap string PhaseEntry) : Prop :=
  phase_status doc pn = Some "completed" /\
  forall td, In td tds -> settled (task_status doc pn td).

Definition descriptions (phase : Phase) : list string :=
  map description (from_option id [] (tasks phase)).

(** A success gate for which [display_status] has no line: not an
    object, or an object without its metric or its minimum value. *)
Definition incomplete (gate : Gate) : Prop :=
  match gate with
  | GateObject gate => metric gate = None \/ min_value gate = None
  | GateOther _ => True
  end.

End Orchestrator.

(** ** The status file under [_save_status]

    [with open(status_path, 'w', encoding='utf-8') as f:
         json.dump(self.status, f, indent=4)]
    as the file system sees it.  Opening in mode ['w'] empties the file.
    [json.dump] hands the encoder's chunks to [f.write] one after the
    other; the file object keeps the text in its buffer and passes it on
    to the file when the buffer is full.  Leaving the [with] block closes
    the file, which passes on what is still in the buffer.  No other file
    is involved. *)

Module StatusStore.

(** The disk is the text of every file that exists.  During a save there
    is also the text that was written but has not reached the file yet;
    it is lost when the process dies. *)
Record Writing := {
  on_disk : gmap string string;
  pending : string
}.

Inductive FsStep :=
  | OpenTruncate (path : string)
  | WriteChunk (path : string) (chunk : string)
  | Close (path : string).

Fixpoint text_take (n : nat) (s : string) : string :=
  match n, s with
  | S m, String c rest => String c (text_take m rest)
  | _, _ => EmptyString
  end.

Fixpoint text_drop (n : nat) (s : string) : string :=
  match n, s with
  | S m, String _ rest => text_drop m rest
  | _, _ => s
  end.

Definition join (chunks : list string) : string :=
  fold_right String.append EmptyString chunks.

(** A file object that passes its buffer on, whole, as soon as it holds
    [size] characters.  The interpreter's text files work with a size of
    8192. *)
Definition buffer_of (size : N) (text : string) : nat :=
  if (size <=? N.of_nat (String.length text))%N then String.length text else 0%nat.

Section WithFile.
(** How many characters of the text waiting in the file object go to the
    file at the end of a [write]. *)
Variable flush_count : string -> nat.
(** [json.JSONEncoder(indent=4).iterencode]. *)
Variable iterencode : gmap string PhaseEntry -> list string.

Definition fs_step (s : Writing) (step : FsStep) : Writing :=
  match step with
  | OpenTruncate path =>
      {| on_disk := <[path := EmptyString]> (on_disk s); pending := EmptyString |}
  | WriteChunk path chunk =>
      let text := pending s +:+ chunk in
      let n := flush_count text in
      {| on_disk := alter (fun there => there +:+ text_take n text) path (on_disk s);
         pending := text_drop n text |}
  | Close path =>
      {| on_disk := alter (fun there => there +:+ pending s) path (on_disk s);
         pending := EmptyString |}
  end.

Definition fs_run (steps : list FsStep) (s : Writing) : Writing :=
  fold_left fs_step steps s.

(** The steps of the [with] block. *)
Definition save_steps (path : string) (doc : gmap string PhaseEntry) : list FsStep :=
  (OpenTruncate path :: map (WriteChunk path) (iterencode doc) ++ [Close path])%list.

(** The state before the block, and right after the file was opened. *)
Definition idle (disk : gmap string string) : Writing :=
  {| on_disk := disk; pending := EmptyString |}.

Definition opened (path : string) (disk : gmap string string) : Writing :=
  {| on_disk := <[path := EmptyString]> disk; pending := EmptyString |}.

(** The [with] block run to its end. *)
Definition dump (path : string) (doc : gmap string PhaseEntry) (disk : gmap string string)
    : option string * gmap string string :=
  (None, on_disk (fs_run (save_steps path doc) (idle disk))).

(** The process dies after [k] steps of the block: what is on the disk
    then. *)
Definition crash_after (k : nat) (path : string) (doc : gmap string PhaseEntry)
    (disk : gmap string string) : gmap string string :=
  on_disk (fs_run (take k (save_steps path doc)) (idle disk)).

(** An environment that keeps the status file on this disk. *)
Definition with_disk (env : Env (gmap string string)) : Env (gmap string string) :=
  Build_Env (gmap string string) (subprocess_run env) (json_loads env) (read_artifact env)
    (generate_prompt env) dump.

End WithFile.

(** The all-or-nothing property of the specification: whenever the
    process dies during a save, the status file holds either the
    document it held before or the complete new one. *)
Definition all_or_nothing : Prop :=
  forall (flush_count : string -> nat)
         (iterencode : gmap string PhaseEntry -> list string)
         (checklist_name : string) (doc : gmap string PhaseEntry)
         (disk : gmap string string) (previous : string) (k : nat),
    let path := Orchestrator.status_path checklist_name in
    disk !! path = Some previous ->
    let after := crash_after flush_count iterencode k path doc disk !! path in
    after = Some previous \/ after = Some (join (iterencode doc)).

End StatusStore.

(** ** Scripted environments

    A closed world for running the model on concrete inputs: every child
    process, decoded document, artifact file and assistant answer is
    looked up in a table. *)

Module Scenario.

Definition Cmd_eqb (a b : Cmd) : bool :=
  match a, b with
  | Shell x, Shell y => String.eqb x y
  | Argv xs, Argv ys => bool_decide (xs = ys)
  | _, _ => false
  end.

Record Script := {
  processes : list (Cmd * ProcOutcome);
  documents : list (string * pyval);
  files : list (string * string);
  assistant : AiOutcome
}.

Fixpoint find_process (table : list (Cmd * ProcOutcome)) (c : Cmd) : ProcOutcome :=
  match table with
  | [] => Completed 127 EmptyString "command not found"
  | (c', o) :: rest => if Cmd_eqb c' c then o else find_process rest c
  end.

Fixpoint find_text {A : Type} (table : list (string * A)) (key : string) : option A :=
  match table with
  | [] => None
  | (k, v) :: rest => if String.eqb k key then Some v else find_text rest key
  end.

Definition env (s : Script) : Env unit :=
  {| subprocess_run := fun c w => (find_process (processes s) c, w);
     json_loads := find_text (documents s);
     read_artifact := fun _ _ artifact =>
       match find_text (files s) artifact with
       | Some text => Content text
       | None => Absent
       end;
     generate_prompt := fun _ w => (assistant s, w);
     dump_status := fun _ _ w => (None, w) |}.

(** The double quote, for writing JSON texts. *)
Definition dq : string := String (ascii_of_nat 34) EmptyString.

Definition status_json (value : string) : string :=
  "{" +:+ dq +:+ "status" +:+ dq +:+ ": " +:+ dq +:+ value +:+ dq +:+ "}".

Definition status_doc (value : string) : pyval :=
  PyDict [("status", PyStr value)].

End Scenario.

(** ** Concrete inputs

    The checklists, blockers and scripted worlds on which the properties
    below are run. *)

Module Cases.
Import Orchestrator.

(** A world in which the diagnostic [exit 0] passes and the assistant
    answers that the problem is still there; a blocker that declares
    that diagnostic together with a required expert, and one that
    declares it together with a prompt. *)
Definition C3_script : Scenario.Script :=
  {| Scenario.processes := [(Shell "exit 0", Completed 0 EmptyString EmptyString)];
     Scenario.documents := [];
     Scenario.files := [];
     Scenario.assistant := Reply "still broken" |}.

Definition C3_blocker : Blocker :=
  {| type := "TestFailure";
     resolution := Some {| diagnostics := Some "exit 0";
                           lmstudio_prompt := None;
                           required_experts := Some ["QA Engineer"] |} |}.

Definition C3_blocker_with_prompt : Blocker :=
  {| type := "TestFailure";
     resolution := Some {| diagnostics := Some "exit 0";
                           lmstudio_prompt := Some "Is the build fixed?";
                           required_experts := None |} |}.

Definition C10_script : Scenario.Script :=
  {| Scenario.processes := [];
     Scenario.documents := [];
     Scenario.files := [];
     Scenario.assistant := Reply "unresolved" |}.

Definition C10_blocker : Blocker :=
  {| type := "TestBlocker";
     resolution := Some {| diagnostics := None;
                           lmstudio_prompt := Some "Test prompt";
                           required_experts := None |} |}.

Definition newline : string := String (ascii_of_nat 10) EmptyString.

(** [sample_task] of tests/test_validation.py. *)
Definition sample_task : Task :=
  {| description := "Test Task";
     command := Some "echo 'test'";
     validation := Some {| script := "validate_test.py";
                           expected_artifacts := Some ["test.txt"; "metrics.json"] |};
     blockers := None |}.

(** What the interpreter prints, and its exit code 2, when the script
    file does not exist. *)
Definition cannot_open : string :=
  "python: can't open file 'validate_test.py': [Errno 2] No such file or directory"
  +:+ newline.

Definition C6_script : Scenario.Script :=
  {| Scenario.processes :=
       [(Argv ["python"; "validate_test.py"], Completed 2 EmptyString cannot_open)];
     Scenario.documents := [];
     Scenario.files := [];
     Scenario.assistant := Reply EmptyString |}.

(** The validation script of tests/test_validation.py, which leaves
    [test.txt] and [metrics.json] behind, made to print a success
    document. *)
Definition metrics_json : string :=
  "{" +:+ Scenario.dq +:+ "test_coverage" +:+ Scenario.dq +:+ ": 85}".

Definition C8_script : Scenario.Script :=
  {| Scenario.processes :=
       [(Argv ["python"; "validate_test.py"],
         Completed 0 (Scenario.status_json "success") EmptyString)];
     Scenario.documents :=
       [(Scenario.status_json "success", Scenario.status_doc "success");
        (metrics_json, PyDict [("test_coverage", PyInt 85)])];
     Scenario.files := [("test.txt", "Test output"); ("metrics.json", metrics_json)];
     Scenario.assistant := Reply EmptyString |}.

Definition start : State () :=
  {| world := (); status := ∅; trace := [] |}.

Definition command_task (desc line : string) : Task :=
  {| description := desc; command := Some line; validation := None; blockers := None |}.

Definition C7_script : Scenario.Script :=
  {| Scenario.processes :=
       [(Shell "make build", Completed 2 EmptyString "error: build failed")];
     Scenario.documents := [];
     Scenario.files := [];
     Scenario.assistant := Reply EmptyString |}.

Definition C7_loaded : Loaded :=
  {| current_checklist :=
       Some {| checklist_title := Some "Release";
               phases :=
                 [ {| name := "Build";
                      tasks := Some [command_task "Compile" "make build";
                                     command_task "Package" "make package"];
                      success_gate := None |};
                   {| name := "Deploy";
                      tasks := Some [command_task "Ship" "make ship"];
                      success_gate := None |} ] |};
     checklist_name := Some "release" |}.


(** A validation script that exits zero and reports failure. *)
Definition C1_script : Scenario.Script :=
  {| Scenario.processes :=
       [(Argv ["python"; "validate_test.py"],
         Completed 0 (Scenario.status_json "failure") EmptyString)];
     Scenario.documents :=
       [(Scenario.status_json "failure", Scenario.status_doc "failure")];
     Scenario.files := [];
     Scenario.assistant := Reply EmptyString |}.

Definition C1_task : Task :=
  {| description := "Test Task";
     command := None;
     validation := Some {| script := "validate_test.py"; expected_artifacts := None |};
     blockers := None |}.

Definition C1_loaded : Loaded :=
  {| current_checklist :=
       Some {| checklist_title := Some "Test Checklist";
               phases := [ {| name := "Test Phase";
                              tasks := Some [C1_task];
                              success_gate := None |} ] |};
     checklist_name := Some "test" |}.

Definition C1_run : Z * State () :=
  execute_checklist (Scenario.env C1_script) C1_loaded start.

(** The phase of tests/test_orchestrator_validation.py, whose gate asks
    for a test coverage of 80, run against a metrics document that
    reports 75. *)
Definition metrics_75 : string :=
  "{" +:+ Scenario.dq +:+ "test_coverage" +:+ Scenario.dq +:+ ": 75}".

Definition C4_script : Scenario.Script :=
  {| Scenario.processes :=
       [(Shell "echo 'test'", Completed 0 "test" EmptyString);
        (Argv ["python"; "validate_test.py"],
         Completed 0 (Scenario.status_json "success") EmptyString)];
     Scenario.documents :=
       [(Scenario.status_json "success", Scenario.status_doc "success");
        (metrics_75, PyDict [("test_coverage", PyInt 75)])];
     Scenario.files := [("test.txt", "Test content"); ("metrics.json", metrics_75)];
     Scenario.assistant := Reply EmptyString |}.

Definition C4_gate : SuccessGate :=
  {| metric := Some "test_coverage"; min_value := Some 80%Z |}.

Definition C4_loaded : Loaded :=
  {| current_checklist :=
       Some {| checklist_title := Some "Test Checklist";
               phases :=
                 [ {| name := "Test Phase";
                      tasks :=
                        Some [ {| description := "Test Task";
                                  command := Some "echo 'test'";
                                  validation :=
                                    Some {| script := "validate_test.py";
                                            expected_artifacts :=
                                              Some ["test.txt"; "metrics.json"] |};
                                  blockers := None |} ];
                      success_gate := Some (GateObject C4_gate) |} ] |};
     checklist_name := Some "test" |}.

Definition C4_run : Z * State () :=
  execute_checklist (Scenario.env C4_script) C4_loaded start.

(** An environment on a disk on which nothing else happens, a disk that
    holds the status file of an earlier run of "release", and an encoder
    that writes every document in two chunks. *)
Definition idle_env : Env (gmap string string) :=
  {| subprocess_run := fun c w => (Scenario.find_process [] c, w);
     json_loads := fun _ => None;
     read_artifact := fun _ _ _ => Absent;
     generate_prompt := fun _ w => (Reply EmptyString, w);
     dump_status := fun _ _ w => (None, w) |}.

Definition used_disk : gmap string string := {["release_status.json" := "{...}"]}.

Definition two_chunks : gmap string PhaseEntry -> list string := fun _ => ["{"; "}"].

Definition C2_state : State (gmap string string) :=
  {| world := used_disk; status := ∅; trace := [] |}.

End Cases.

(** ** external_ai_integration.py *)

Module LMStudioClient.

(** What [requests.post(...)], [raise_for_status()] and [response.json()]
    come to: an exception of the [requests] family, or the decoded body. *)
Inductive HttpOutcome :=
  | RequestException (msg : string)
  | JsonBody (data : pyval).

(** The default of [api_endpoint]. *)
Definition default_endpoint : string := "http://localhost:1234/v1/chat/completions".

(** The [context] dictionary; every key is read with [get(key, "")]. *)
Record ChatContext := {
  task_description : option string;
  phase : option string;
  error_message : option string;
  implementation_data : option string
}.

Definition nl : string := String (ascii_of_nat 10) EmptyString.

(** The sixteen blanks in front of each line of the user message. *)
Definition margin : string := "                ".

Definition user_content (context : ChatContext) : string :=
  nl +:+
  margin +:+ "Phase: " +:+ from_option id EmptyString (phase context) +:+ nl +:+
  margin +:+ "Task: " +:+ from_option id EmptyString (task_description context) +:+ nl +:+
  margin +:+ "Error: " +:+ from_option id EmptyString (error_message context) +:+ nl +:+
  margin +:+ "Implementation Data: "
         +:+ from_option id EmptyString (implementation_data context) +:+ nl +:+
  nl +:+
  margin +:+ "Please help me fix this issue and provide guidance on how to proceed." +:+ nl +:+
  margin.

Definition payload (context : ChatContext) : pyval :=
  PyDict
    [("model", PyStr "local-model");
     ("messages",
      PyList
        [PyDict [("role", PyStr "system");
                 ("content",
                  PyStr "You are a helpful AI assistant that helps with coding tasks.")];
         PyDict [("role", PyStr "user"); ("content", PyStr (user_content context))]]);
     ("temperature", PyFloat "0.7");
     ("max_tokens", PyInt 2000);
     ("timeout", PyInt 60)].

(** [v[0]].  On a string the first character comes back as a string. *)
Definition py_index0 (v : pyval) : res pyval :=
  match v with
  | PyList (x :: _) => Ok x
  | PyList [] => Raise "list index out of range"
  | PyStr (String c _) => Ok (PyStr (String c EmptyString))
  | PyStr EmptyString => Raise "string index out of range"
  | PyDict _ => Raise "0"
  | _ => Raise ("'" +:+ py_type_name v +:+ "' object is not subscriptable")
  end.

(** [data.get("choices", [{}])[0].get("message", {}).get("content", "")]. *)
Definition first_content (data : pyval) : res pyval :=
  match py_get data "choices" (PyList [PyDict []]) with
  | Raise msg => Raise msg
  | Ok choices =>
      match py_index0 choices with
      | Raise msg => Raise msg
      | Ok choice =>
          match py_get choice "message" (PyDict []) with
          | Raise msg => Raise msg
          | Ok message => py_get message "content" (PyStr EmptyString)
          end
      end
  end.

Section WithHttp.
Context {W : Type}.
(** [requests.post(endpoint, headers=..., json=payload, timeout=60)] and
    the two calls on its response. *)
Variable requests_post : string -> pyval -> W -> HttpOutcome * W.

Definition generate_prompt (api_endpoint : string) (context : ChatContext) (w : W)
    : res pyval * W :=
  match requests_post api_endpoint (payload context) w with
  | (RequestException e, w1) => (Ok (PyStr ("Error generating prompt: " +:+ e)), w1)
  | (JsonBody data, w1) => (first_content data, w1)
  end.

(** The dictionary [_check_if_resolved] passes has three of the keys. *)
Definition context_of (ctx : PromptContext) : ChatContext :=
  {| task_description := Some (ctx_task_description ctx);
     phase := Some (ctx_phase ctx);
     error_message := None;
     implementation_data := Some (ctx_implementation_data ctx) |}.

(** The call in [_check_if_resolved] together with the [response.lower()]
    that follows it: a text goes on, any other value has no [lower]. *)
Definition ask (ctx : PromptContext) (w : W) : AiOutcome * W :=
  match generate_prompt default_endpoint (context_of ctx) w with
  | (Ok (PyStr text), w1) => (Reply text, w1)
  | (Ok other, w1) => (AiError (no_attribute other "lower"), w1)
  | (Raise msg, w1) => (AiError msg, w1)
  end.

(** An environment whose assistant is this client. *)
Definition with_client (env : Env W) : Env W :=
  Build_Env W (subprocess_run env) (json_loads env) (read_artifact env) ask
    (dump_status env).

End WithHttp.
End LMStudioClient.

(** ** More concrete inputs *)

Module MoreCases.
Import Orchestrator.

(** Blockers that declare nothing to run: one lists an expert, one has
    no resolution at all, one has an empty prompt and an empty list. *)
Definition static_blockers : list Blocker :=
  [ {| type := "NeedsReview";
       resolution := Some {| diagnostics := None; lmstudio_prompt := None;
                             required_experts := Some ["Security"] |} |};
    {| type := "Nothing"; resolution := None |};
    {| type := "EmptyPrompt";
       resolution := Some {| diagnostics := None; lmstudio_prompt := Some EmptyString;
                             required_experts := Some [] |} |} ].

(** A world in which the diagnostic of [Cases.C3_blocker] passes and the
    assistant call raises. *)
Definition raising_script : Scenario.Script :=
  {| Scenario.processes := [(Shell "exit 0", Completed 0 EmptyString EmptyString)];
     Scenario.documents := [];
     Scenario.files := [];
     Scenario.assistant := AiError "connection reset" |}.

(** A diagnostic that prints a number. *)
Definition number_script : Scenario.Script :=
  {| Scenario.processes := [(Shell "echo 123", Completed 0 "123" EmptyString)];
     Scenario.documents := [("123", PyInt 123)];
     Scenario.files := [];
     Scenario.assistant := Reply "resolved" |}.

Definition number_resolution : Resolution :=
  {| diagnostics := Some "echo 123"; lmstudio_prompt := Some "Is it fixed?";
     required_experts := None |}.

Definition number_blocker : Blocker :=
  {| type := "Count"; resolution := Some number_resolution |}.

Definition prompt_resolution : Resolution :=
  {| diagnostics := None; lmstudio_prompt := Some "Test prompt"; required_experts := None |}.

Definition sample_validation : Validation :=
  {| script := "validate_test.py";
     expected_artifacts := Some ["test.txt"; "metrics.json"] |}.

(** The world of [Cases.C8_script] without the metrics document. *)
Definition missing_metrics_script : Scenario.Script :=
  {| Scenario.processes :=
       [(Argv ["python"; "validate_test.py"],
         Completed 0 (Scenario.status_json "success") EmptyString)];
     Scenario.documents :=
       [(Scenario.status_json "success", Scenario.status_doc "success")];
     Scenario.files := [("test.txt", "Test output")];
     Scenario.assistant := Reply EmptyString |}.

(** An endpoint that always answers the same. *)
Definition answering (outcome : LMStudioClient.HttpOutcome)
    : string -> pyval -> unit -> LMStudioClient.HttpOutcome * unit :=
  fun _ _ w => (outcome, w).

Definition completion (content : pyval) : list (string * pyval) :=
  [("choices",
    PyList [PyDict [("message",
                     PyDict [("role", PyStr "assistant"); ("content", content)])]])].

Definition plain_context : LMStudioClient.ChatContext :=
  {| LMStudioClient.task_description := Some "Test Task";
     LMStudioClient.phase := Some "Test Phase";
     LMStudioClient.error_message := Some "Test Error";
     LMStudioClient.implementation_data := Some "Test Data" |}.



(** A checklist whose only task has a blocker with a prompt. *)
Definition blocker_task (b : Blocker) : Task :=
  {| description := "Deploy"; command := Some "make deploy"; validation := None;
     blockers := Some [b] |}.

Definition blocker_checklist (b : Blocker) : Checklist :=
  {| checklist_title := Some "Rollout";
     phases := [ {| name := "Ship"; tasks := Some [blocker_task b];
                    success_gate := None |} ] |}.

Definition blocker_loaded (b : Blocker) : Loaded :=
  {| current_checklist := Some (blocker_checklist b); checklist_name := Some "rollout" |}.

Definition raising_run : Z * State () :=
  execute_checklist (Scenario.env raising_script) (blocker_loaded Cases.C10_blocker)
    Cases.start.

(** A state in which phase "Ship" has an entry. *)
Definition shipping : State () :=
  {| world := ();
     status := {["Ship" := {| entry_status := Some "in_progress"; entry_tasks := Some ∅ |}]};
     trace := [] |}.

(** The checklist of [Cases.C7_loaded] as a checklist file. *)
Definition release_phases : list Phase :=
  [ {| name := "Build";
       tasks := Some [Cases.command_task "Compile" "make build";
                      Cases.command_task "Package" "make package"];
       success_gate := None |};
    {| name := "Deploy";
       tasks := Some [Cases.command_task "Ship" "make ship"];
       success_gate := None |} ].

Definition release_section : RawSection :=
  {| raw_name := Some "Release"; raw_phases := Some release_phases |}.

Definition release_file : RawChecklist :=
  {| raw_checklist := Some release_section |}.

Definition files_with (checklist : ChecklistRead) (recorded : StatusRead) : Files () :=
  {| read_checklist := fun _ _ _ => checklist;
     read_status := fun _ _ => recorded |}.

(** What [json.load] says of an empty status file. *)
Definition cannot_decode : string := "Expecting value: line 1 column 1 (char 0)".

(** A checklist whose gate has no minimum value. *)
Definition open_gate_loaded : Loaded :=
  {| current_checklist :=
       Some {| checklist_title := Some "Gate";
               phases := [ {| name := "Test Phase"; tasks := None;
                              success_gate :=
                                Some (GateObject {| metric := Some "test_coverage";
                                                    min_value := None |}) |} ] |};
     checklist_name := Some "gate" |}.

End MoreCases.

(** * Properties *)

(** ** Blocker resolution *)

Module BlockerResolverFacts.
Import BlockerResolver Cases.

Section WithEnv.
Context {W : Type} (env : Env W).

Lemma diagnostics_pass_none (r : Resolution) (w : W) :
  diagnostics r = None -> diagnostics_pass env r w = (true, w).
Proof. intros H. unfold diagnostics_pass. now rewrite H. Qed.

(** A diagnostic that exits non-zero fails the block. *)
Lemma diagnostics_pass_nonzero (r : Resolution) line (w w1 : W) rc out err :
  diagnostics r = Some line ->
  subprocess_run env (Shell line) w = (Completed rc out err, w1) ->
  rc <> 0%Z ->
  diagnostics_pass env r w = (false, w1).
Proof.
  intros Hd Hrun Hrc. unfold diagnostics_pass. rewrite Hd, Hrun.
  destruct (Z.eqb_spec rc 0) as [->|_]; [congruence | reflexivity].
Qed.

(** A diagnostic that exits zero with output that is no JSON document, or
    a JSON object whose status is "success", passes the block. *)
Lemma diagnostics_pass_zero (r : Resolution) line (w w1 : W) out err :
  diagnostics r = Some line ->
  subprocess_run env (Shell line) w = (Completed 0 out err, w1) ->
  json_loads env out = None \/
  (exists items, json_loads env out = Some (PyDict items) /\
                 dict_lookup items "status" = Some (PyStr "success")) ->
  diagnostics_pass env r w = (true, w1).
Proof.
  intros Hd Hrun Hout. unfold diagnostics_pass. rewrite Hd, Hrun. simpl.
  destruct Hout as [-> | (items & -> & Hst)]; [reflexivity |].
  simpl. now rewrite Hst.
Qed.

(** A diagnostic that exits zero and prints a JSON object whose status is
    missing or is not the string "success" fails the block. *)
Lemma diagnostics_pass_bad_status (r : Resolution) line (w w1 : W) out err items :
  diagnostics r = Some line ->
  subprocess_run env (Shell line) w = (Completed 0 out err, w1) ->
  json_loads env out = Some (PyDict items) ->
  dict_lookup items "status" <> Some (PyStr "success") ->
  diagnostics_pass env r w = (false, w1).
Proof.
  intros Hd Hrun Hjson Hst. unfold diagnostics_pass. rewrite Hd, Hrun. simpl.
  rewrite Hjson. simpl. f_equal.
  destruct (dict_lookup items "status") as [[| | | | s | |] |]; try reflexivity.
  simpl. apply String.eqb_neq. congruence.
Qed.

(** Once the diagnostic block lets control through, the remaining
    statements of [_check_if_resolved] decide. *)
Lemma check_after_pass (b : Blocker) (r : Resolution) (w w1 : W) :
  resolution b = Some r ->
  diagnostics_pass env r w = (true, w1) ->
  _check_if_resolved env b w =
    match lmstudio_prompt r with
    | Some prompt =>
        if truthy prompt then
          match generate_prompt env
                  {| ctx_phase := "Blocker Resolution";
                     ctx_task_description := "Checking blocker: " +:+ type b;
                     ctx_implementation_data := prompt |} w1 with
          | (Reply response, w2) => (Ok (str_in "resolved" (str_lower response)), w2)
          | (AiError msg, w2) => (Raise msg, w2)
          end
        else (Ok (no_experts_required r), w1)
    | None => (Ok (no_experts_required r), w1)
    end.
Proof.
  intros Hr Hp. unfold _check_if_resolved. rewrite Hr. simpl. now rewrite Hp.
Qed.

Lemma check_after_veto (b : Blocker) (r : Resolution) (w w1 : W) :
  resolution b = Some r ->
  diagnostics_pass env r w = (false, w1) ->
  _check_if_resolved env b w = (Ok false, w1).
Proof.
  intros Hr Hp. unfold _check_if_resolved. rewrite Hr. simpl. now rewrite Hp.
Qed.

End WithEnv.

(** C3, as the code has it.  The rules are consulted in the order
    diagnostic command, assistant prompt, required experts, resolved by
    default, but a diagnostic command can only veto.  If it exits
    non-zero, or exits zero and prints a JSON object whose status is not
    "success", the blocker is unresolved whatever else it declares.  If it
    exits zero with output that is no JSON document or with the status
    "success", the blocker is not thereby resolved: a non-empty prompt it
    also declares is still put to the assistant, whose answer decides;
    with no prompt and no required experts it is resolved.  Without a
    diagnostic command the first matching rule decides: a non-empty
    prompt by the assistant's answer, whatever experts are listed;
    otherwise the list of required experts; otherwise the blocker is
    resolved.  (A passing diagnostic next to required experts and no
    prompt is not covered.) *)
Theorem C3_diagnostic_vetoes_then_first_matching_rule_decides
    {W : Type} (env : Env W) (b : Blocker) (w : W) :
  let r := resolution_of b in
  let question prompt :=
    {| ctx_phase := "Blocker Resolution";
       ctx_task_description := "Checking blocker: " +:+ type b;
       ctx_implementation_data := prompt |} in
  (forall line rc out err w1,
     diagnostics r = Some line ->
     subprocess_run env (Shell line) w = (Completed rc out err, w1) ->
     rc <> 0%Z \/
     (exists items, json_loads env out = Some (PyDict items) /\
                    dict_lookup items "status" <> Some (PyStr "success")) ->
     _check_if_resolved env b w = (Ok false, w1)) /\
  (forall line out err w1,
     diagnostics r = Some line ->
     subprocess_run env (Shell line) w = (Completed 0 out err, w1) ->
     json_loads env out = None \/
     (exists items, json_loads env out = Some (PyDict items) /\
                    dict_lookup items "status" = Some (PyStr "success")) ->
     (forall prompt text w2,
        lmstudio_prompt r = Some prompt -> prompt <> EmptyString ->
        generate_prompt env (question prompt) w1 = (Reply text, w2) ->
        _check_if_resolved env b w = (Ok (str_in "resolved" (str_lower text)), w2)) /\
     (lmstudio_prompt r = None \/ lmstudio_prompt r = Some EmptyString ->
      required_experts r = None \/ required_experts r = Some [] ->
      _check_if_resolved env b w = (Ok true, w1))) /\
  (diagnostics r = None ->
   (forall prompt text w2,
      lmstudio_prompt r = Some prompt -> prompt <> EmptyString ->
      generate_prompt env (question prompt) w = (Reply text, w2) ->
      _check_if_resolved env b w = (Ok (str_in "resolved" (str_lower text)), w2)) /\
   (lmstudio_prompt r = None \/ lmstudio_prompt r = Some EmptyString ->
    _check_if_resolved env b w = (Ok (negb (requires_experts b)), w))).
Proof.
  intros r question.
  assert (Hr : forall w', _check_if_resolved env b w' =
                 let '(pass, w1) := diagnostics_pass env r w' in
                 if negb pass then (Ok false, w1)
                 else
                   match lmstudio_prompt r with
                   | Some prompt =>
                       if truthy prompt then
                         match generate_prompt env (question prompt) w1 with
                         | (Reply response, w2) =>
                             (Ok (str_in "resolved" (str_lower response)), w2)
                         | (AiError msg, w2) => (Raise msg, w2)
                         end
                       else (Ok (no_experts_required r), w1)
                   | None => (Ok (no_experts_required r), w1)
                   end).
  { intros w'. unfold _check_if_resolved, r, resolution_of, empty_resolution.
    now destruct (resolution b). }
  split; [| split].
  - intros line rc out err w1 Hd Hrun Hbad. rewrite Hr.
    destruct Hbad as [Hrc | (items & Hjson & Hst)].
    + now rewrite (diagnostics_pass_nonzero env r line w w1 rc out err Hd Hrun Hrc).
    + destruct (Z.eq_dec rc 0%Z) as [-> | Hrc].
      * now rewrite (diagnostics_pass_bad_status env r line w w1 out err items
                       Hd Hrun Hjson Hst).
      * now rewrite (diagnostics_pass_nonzero env r line w w1 rc out err Hd Hrun Hrc).
  - intros line out err w1 Hd Hrun Hout. rewrite Hr.
    rewrite (diagnostics_pass_zero env r line w w1 out err Hd Hrun Hout). simpl.
    split.
    + intros prompt text w2 Hp Hne Hgen. rewrite Hp.
      destruct prompt as [| c rest]; [congruence |]. simpl. now rewrite Hgen.
    + intros Hp He. unfold no_experts_required.
      destruct Hp as [-> | ->], He as [-> | ->]; reflexivity.
  - intros Hd. rewrite Hr, (diagnostics_pass_none env r w Hd). simpl. split.
    + intros prompt text w2 Hp Hne Hgen. rewrite Hp.
      destruct prompt as [| c rest]; [congruence |]. simpl. now rewrite Hgen.
    + intros Hp. unfold no_experts_required, requires_experts. fold r.
      destruct Hp as [-> | ->]; simpl; now destruct (required_experts r) as [[| e es] |].
Qed.

Lemma C3_diagnostic_vetoes_then_first_matching_rule_decides_witness :
  _check_if_resolved (Scenario.env C3_script) C3_blocker_with_prompt () = (Ok false, ()).
Proof.
  refine (proj1 (proj1 (proj2 (C3_diagnostic_vetoes_then_first_matching_rule_decides
                                 (Scenario.env C3_script) C3_blocker_with_prompt ()))
                       "exit 0" EmptyString EmptyString () eq_refl eq_refl
                       (or_introl eq_refl))
                "Is the build fixed?" "still broken" () eq_refl _ eq_refl).
  discriminate.
Defined.

(** C3 as stated fails: the diagnostic exits zero with output that is not
    JSON, yet the blocker is not resolved regardless of the prompt it
    also declares: the assistant is asked, and its answer leaves the
    blocker unresolved. *)
Lemma C3_passing_diagnostic_does_not_resolve :
  subprocess_run (Scenario.env C3_script) (Shell "exit 0") ()
    = (Completed 0 EmptyString EmptyString, ()) /\
  json_loads (Scenario.env C3_script) EmptyString = None /\
  generate_prompt (Scenario.env C3_script)
    {| ctx_phase := "Blocker Resolution";
       ctx_task_description := "Checking blocker: TestFailure";
       ctx_implementation_data := "Is the build fixed?" |} ()
    = (Reply "still broken", ()) /\
  _check_if_resolved (Scenario.env C3_script) C3_blocker_with_prompt () = (Ok false, ()) /\
  resolve_blockers (Scenario.env C3_script) [C3_blocker_with_prompt] ()
    = (Ok [C3_blocker_with_prompt], ()).
Proof. repeat split; reflexivity. Qed.

(** C10.  When the diagnostic block has let control through and a
    non-empty prompt is declared, the blocker is resolved exactly when the
    lowercased answer contains "resolved"; the answer "unresolved"
    therefore resolves it. *)
Theorem C10_answer_containing_resolved_resolves
    {W : Type} (env : Env W) (b : Blocker) (r : Resolution) (prompt text : string)
    (w w1 w2 : W) :
  resolution b = Some r ->
  diagnostics_pass env r w = (true, w1) ->
  lmstudio_prompt r = Some prompt ->
  prompt <> EmptyString ->
  generate_prompt env
    {| ctx_phase := "Blocker Resolution";
       ctx_task_description := "Checking blocker: " +:+ type b;
       ctx_implementation_data := prompt |} w1 = (Reply text, w2) ->
  _check_if_resolved env b w = (Ok (str_in "resolved" (str_lower text)), w2) /\
  (text = "unresolved" -> _check_if_resolved env b w = (Ok true, w2)).
Proof.
  intros Hr Hpass Hp Hne Hgen.
  assert (Hchk : _check_if_resolved env b w = (Ok (str_in "resolved" (str_lower text)), w2)).
  { rewrite (check_after_pass env b r w w1 Hr Hpass), Hp.
    destruct prompt as [| c rest]; [congruence |]. simpl. now rewrite Hgen. }
  split; [exact Hchk |]. intros ->. exact Hchk.
Qed.

Lemma C10_answer_containing_resolved_resolves_witness :
  _check_if_resolved (Scenario.env C10_script) C10_blocker () = (Ok true, ()).
Proof.
  refine (proj2 (C10_answer_containing_resolved_resolves
            (Scenario.env C10_script) C10_blocker _ "Test prompt" "unresolved" () () ()
            eq_refl eq_refl eq_refl _ eq_refl) eq_refl).
  discriminate.
Defined.

End BlockerResolverFacts.

(** ** The validation pipeline *)

Module TransitionValidatorFacts.
Import TransitionValidator Cases.

Section WithEnv.
Context {W : Type} (env : Env W).

(** A script that exits non-zero: the message is the fixed prefix followed
    by the script's standard error, and nothing is collected. *)
Lemma validate_task_nonzero_exit (dir : string) (task : Task) (v : Validation)
    (phase_name : string) (w w1 : W) rc out err :
  validation task = Some v ->
  subprocess_run env (Argv ["python"; script v]) w = (Completed rc out err, w1) ->
  rc <> 0%Z ->
  validate_task env dir task phase_name w =
    ({| status := FAILURE; artifacts := ∅;
        error_message := PyStr ("Validation script failed: " +:+ err) |}, w1).
Proof.
  intros Hv Hrun Hrc. unfold validate_task. rewrite Hv, Hrun.
  destruct (Z.eqb_spec rc 0) as [->|_]; [congruence | reflexivity].
Qed.

(** A script that exits zero and prints a JSON object: with every expected
    artifact readable, the verdict is the object's status field. *)
Lemma validate_task_zero_exit (dir : string) (task : Task) (v : Validation)
    (phase_name : string) (w w1 : W) out err items found :
  validation task = Some v ->
  subprocess_run env (Argv ["python"; script v]) w = (Completed 0 out err, w1) ->
  json_loads env out = Some (PyDict items) ->
  collect_artifacts env dir (from_option id [] (expected_artifacts v)) w1 ∅ = AllPresent found ->
  validate_task env dir task phase_name w =
    (if py_eq_str (from_option id (PyStr "failure") (dict_lookup items "status")) "success"
     then {| status := SUCCESS; artifacts := found; error_message := PyNone |}
     else {| status := FAILURE; artifacts := found;
             error_message := from_option id (PyStr "Validation failed")
                                (dict_lookup items "error_message") |}, w1).
Proof.
  intros Hv Hrun Hjson Hcol. unfold validate_task. rewrite Hv, Hrun. simpl.
  rewrite Hjson, Hcol. now destruct (py_eq_str _ _).
Qed.

End WithEnv.

(** C5, at the code: a task without a validation block gets [SUCCESS], no
    artifacts and no message ([None]); [SKIPPED] is never produced. *)
Theorem C5_no_validation_is_success_without_message
    {W : Type} (env : Env W) (dir desc phase_name : string)
    (cmd : option string) (bs : option (list Blocker)) (w : W) :
  validate_task env dir
    {| description := desc; command := cmd; validation := None; blockers := bs |}
    phase_name w
  = ({| status := SUCCESS; artifacts := ∅; error_message := PyNone |}, w).
Proof. reflexivity. Qed.

(** C6, at the code: the script path is never looked up on disk; the
    interpreter is started on it and fails, and the message is the
    interpreter's standard error behind a fixed prefix.  It is [FAILURE]
    with no artifacts, but the message does not contain "not found". *)
Theorem C6_missing_script_message_lacks_not_found :
  exists msg,
    validate_task (Scenario.env C6_script) "transition_artifacts" sample_task "test_phase" ()
    = ({| status := FAILURE; artifacts := ∅; error_message := PyStr msg |}, ()) /\
    msg = "Validation script failed: " +:+ cannot_open /\
    str_in "not found" msg = false.
Proof.
  exists ("Validation script failed: " +:+ cannot_open). repeat split.
Qed.

(** C8, at the code: a metrics document among the artifacts is returned
    as one more artifact text; the result has no metrics field, and the
    validator has no method that would collect one. *)
Theorem C8_metrics_document_stays_an_artifact :
  validate_task (Scenario.env C8_script) "transition_artifacts" sample_task "test_phase" ()
  = ({| status := SUCCESS;
        artifacts := <["metrics.json" := metrics_json]> {["test.txt" := "Test output"]};
        error_message := PyNone |}, ()) /\
  existsb (String.eqb "metrics") ValidationResult_fields = false /\
  has_attribute "_collect_metrics" = false.
Proof. repeat split. Qed.

(** C9, at the code: [TransitionValidator] binds [__init__] and
    [validate_task] only, so [validator.cleanup_artifacts(...)] is an
    [AttributeError]. *)
Theorem C9_validator_has_no_cleanup :
  has_attribute "cleanup_artifacts" = false /\
  has_attribute "cleanup" = false /\
  has_attribute "validate_task" = true.
Proof. repeat split. Qed.

End TransitionValidatorFacts.

Module OrchestratorFacts.
Import Orchestrator Cases.

Lemma set_task_status_lookup (doc : gmap string PhaseEntry) (pn td v : string) :
  is_Some (doc !! pn) -> task_status (set_task_status pn td v doc) pn td = Some v.
Proof.
  intros [e He]. unfold task_status, set_task_status.
  rewrite lookup_alter_eq, He. simpl. apply lookup_insert_eq.
Qed.

Lemma set_task_status_known (doc : gmap string PhaseEntry) (pn td v k : string) :
  is_Some (doc !! k) -> is_Some (set_task_status pn td v doc !! k).
Proof.
  intros [e He]. unfold set_task_status.
  destruct (decide (pn = k)) as [->|Hne].
  - rewrite lookup_alter_eq, He. simpl. eauto.
  - rewrite lookup_alter_ne by done. eauto.
Qed.

Lemma set_phase_status_lookup (doc : gmap string PhaseEntry) (pn v : string) :
  is_Some (doc !! pn) -> phase_status (set_phase_status pn v doc) pn = Some v.
Proof.
  intros [e He]. unfold phase_status, set_phase_status.
  rewrite lookup_alter_eq, He. reflexivity.
Qed.

Lemma ensure_phase_known (doc : gmap string PhaseEntry) (pn : string) :
  is_Some (ensure_phase pn doc !! pn).
Proof.
  unfold ensure_phase. destruct (doc !! pn) eqn:E; [rewrite E; eauto |].
  rewrite lookup_insert_eq. eauto.
Qed.



Section WithEnv.
Context {W : Type} (env : Env W) (self : Loaded) (n : string) (cl : Checklist).
Hypothesis Hcl : current_checklist self = Some cl.
Hypothesis Hname : checklist_name self = Some n.

Lemma save_status_eq (st : State W) :
  _save_status env self st =
    emit (EvSave (status_path n) (status st))
         (snd (dump_status env (status_path n) (status st) (world st))) st.
Proof. unfold _save_status. now rewrite Hcl, Hname. Qed.

Lemma Ran_refl (st : State W) flow : Ran n st flow st.
Proof. apply RanQuiet with (added := []); [now rewrite app_nil_r | constructor]. Qed.

Lemma Ran_trans (st st1 st2 : State W) (added : list Event) flow :
  trace st1 = (trace st ++ added)%list -> Quiet added ->
  Ran n st1 flow st2 -> Ran n st flow st2.
Proof.
  intros Ht Hq H. destruct H as [flow st2 added' Ht' Hq' | st2 pre pn td line rc out err Ht' Hq' Hrc Hts].
  - apply RanQuiet with (added := (added ++ added')%list).
    + now rewrite Ht', Ht, <- app_assoc.
    + now apply Forall_app.
  - eapply RanFailed with (pre := (added ++ pre)%list); [| | exact Hrc | exact Hts].
    + rewrite Ht', Ht, <- !app_assoc. reflexivity.
    + now apply Forall_app.
Qed.

Lemma quiet_save path doc : Quiet [EvSave path doc].
Proof. repeat constructor. simpl. tauto. Qed.

Lemma Keeps_refl (st : State W) : Keeps st st.
Proof. now intros k. Qed.

Lemma Keeps_trans (st st1 st2 : State W) :
  Keeps st st1 -> Keeps st1 st2 -> Keeps st st2.
Proof. intros H1 H2 k Hk. auto. Qed.

Local Ltac keeps :=
  let k := fresh "k" in
  let Hk := fresh "Hk" in
  intros k Hk; simpl; try apply set_task_status_known; exact Hk.

Local Ltac quiet := repeat constructor; simpl; tauto.

Lemma check_blockers_ran pn task (st : State W) :
  match check_blockers env self pn task st with
  | Proceed st' => Ran n st Next st' /\ Keeps st st'
  | Continue st' => Ran n st Next st' /\ Keeps st st'
  | Return code st' => Ran n st (Exit code) st'
  end.
Proof.
  unfold check_blockers. destruct (from_option id [] (blockers task)) as [| b bs].
  - split; [apply Ran_refl | apply Keeps_refl].
  - destruct (BlockerResolver.resolve_blockers env (b :: bs) (world st)) as [r w1].
    destruct r as [[| u us] | msg].
    + split; [| keeps]. eapply RanQuiet; [reflexivity | quiet].
    + rewrite save_status_eq. split; [| keeps].
      eapply RanQuiet; [simpl; rewrite <- app_assoc; reflexivity | quiet].
    + eapply RanQuiet; [reflexivity | quiet].
Qed.

Lemma run_command_ran pn task (st : State W) :
  is_Some (status st !! pn) ->
  match run_command env self pn task st with
  | Proceed st' => Ran n st Next st' /\ Keeps st st'
  | Continue st' => Ran n st Next st' /\ Keeps st st'
  | Return code st' => Ran n st (Exit code) st' /\ code = 1%Z
  end.
Proof.
  intros Hk. unfold run_command. destruct (command task) as [line |].
  2: { split; [apply Ran_refl | apply Keeps_refl]. }
  destruct (subprocess_run env (Shell line) (world st)) as [outcome w1].
  rewrite save_status_eq. destruct outcome as [rc out err | msg].
  - destruct (Z.eqb_spec rc 0) as [-> | Hrc]; simpl.
    + split; [| keeps]. eapply RanQuiet; [reflexivity | quiet].
    + split; [| reflexivity].
      eapply RanFailed with (pre := []); simpl.
      * rewrite <- app_assoc. reflexivity.
      * constructor.
      * exact Hrc.
      * now apply set_task_status_lookup.
  - split; [| reflexivity].
    eapply RanQuiet; [simpl; rewrite <- app_assoc; reflexivity | quiet].
Qed.

Lemma run_validation_ran pn task (st : State W) :
  match run_validation env self pn task st with
  | Proceed st' => Ran n st Next st' /\ Keeps st st'
  | Continue st' => Ran n st Next st' /\ Keeps st st'
  | Return code st' => Ran n st (Exit code) st' /\ code = 1%Z
  end.
Proof.
  unfold run_validation. destruct (validation task) as [v |].
  2: { split; [apply Ran_refl | apply Keeps_refl]. }
  destruct (subprocess_run env (Argv ["python"; script v]) (world st)) as [outcome w1].
  rewrite save_status_eq. destruct outcome as [rc out err | msg].
  - destruct (Z.eqb_spec rc 0) as [-> | Hrc]; simpl.
    + split; [| keeps]. eapply RanQuiet; [reflexivity | quiet].
    + split; [| reflexivity].
      eapply RanQuiet; [simpl; rewrite <- app_assoc; reflexivity | quiet].
  - split; [| reflexivity].
    eapply RanQuiet; [simpl; rewrite <- app_assoc; reflexivity | quiet].
Qed.

Lemma Ran_next (st st1 st2 : State W) flow :
  Ran n st Next st1 -> Ran n st1 flow st2 -> Ran n st flow st2.
Proof.
  intros H1 H2. inversion H1 as [? ? added Ht Hq |]; subst.
  eapply Ran_trans; eauto.
Qed.

Lemma save_ran (f : gmap string PhaseEntry -> gmap string PhaseEntry) (st : State W) flow :
  Ran n st flow (_save_status env self (update f st)).
Proof.
  rewrite save_status_eq. eapply RanQuiet; [reflexivity | apply quiet_save].
Qed.

Lemma save_task_keeps pn td v (st : State W) :
  Keeps st (_save_status env self (update (set_task_status pn td v) st)).
Proof. rewrite save_status_eq. keeps. Qed.

Lemma execute_task_ran pn task (st : State W) :
  is_Some (status st !! pn) ->
  Ran n st (fst (execute_task env self pn task st)) (snd (execute_task env self pn task st)) /\
  (fst (execute_task env self pn task st) = Next ->
   Keeps st (snd (execute_task env self pn task st))).
Proof.
  intros Hk. unfold execute_task.
  set (st0 := _save_status env self
                (update (set_task_status pn (description task) "in_progress") st)).
  assert (H0 : Ran n st Next st0) by apply save_ran.
  assert (K0 : Keeps st st0) by apply save_task_keeps.
  pose proof (check_blockers_ran pn task st0) as Hb.
  destruct (check_blockers env self pn task st0) as [st1 | st1 | code st1]; simpl.
  2: { destruct Hb as [Hb Kb]. split; [eapply Ran_next; eauto |].
       intros _. eapply Keeps_trans; eauto. }
  2: { split; [eapply Ran_next; eauto | discriminate]. }
  destruct Hb as [Hb Kb].
  assert (H1 : Ran n st Next st1) by (eapply Ran_next; eauto).
  assert (K1 : Keeps st st1) by (eapply Keeps_trans; eauto).
  pose proof (run_command_ran pn task st1 (K1 _ Hk)) as Hc.
  destruct (run_command env self pn task st1) as [st2 | st2 | code st2]; simpl.
  2: { destruct Hc as [Hc Kc]. split; [eapply Ran_next; eauto |].
       intros _. eapply Keeps_trans; eauto. }
  2: { destruct Hc as [Hc _]. split; [eapply Ran_next; eauto | discriminate]. }
  destruct Hc as [Hc Kc].
  assert (H2 : Ran n st Next st2) by (eapply Ran_next; eauto).
  assert (K2 : Keeps st st2) by (eapply Keeps_trans; eauto).
  pose proof (run_validation_ran pn task st2) as Hv.
  destruct (run_validation env self pn task st2) as [st3 | st3 | code st3]; simpl.
  2: { destruct Hv as [Hv Kv]. split; [eapply Ran_next; eauto |].
       intros _. eapply Keeps_trans; eauto. }
  2: { destruct Hv as [Hv _]. split; [eapply Ran_next; eauto | discriminate]. }
  destruct Hv as [Hv Kv].
  assert (H3 : Ran n st Next st3) by (eapply Ran_next; eauto).
  split.
  - eapply Ran_next; [exact H3 | apply save_ran].
  - intros _. eapply Keeps_trans; [| apply save_task_keeps].
    eapply Keeps_trans; eauto.
Qed.

Lemma execute_tasks_ran pn (ts : list Task) (st : State W) :
  is_Some (status st !! pn) ->
  Ran n st (fst (execute_tasks env self pn ts st)) (snd (execute_tasks env self pn ts st)) /\
  (fst (execute_tasks env self pn ts st) = Next ->
   Keeps st (snd (execute_tasks env self pn ts st))).
Proof.
  revert st. induction ts as [| task rest IH]; intros st Hk; simpl.
  - split; [apply Ran_refl | intros _; apply Keeps_refl].
  - destruct (execute_task_ran pn task st Hk) as [Ht Kt].
    destruct (execute_task env self pn task st) as [[| code] st1]; simpl in *.
    + specialize (Kt eq_refl). destruct (IH st1 (Kt _ Hk)) as [Hr Kr].
      split; [eapply Ran_next; eauto |].
      intros Hn. eapply Keeps_trans; eauto.
    + split; [exact Ht | discriminate].
Qed.



End WithEnv.



(** On an object the gate check cannot fail, whatever the object says. *)
Lemma check_success_gate_always (gate : SuccessGate) : _check_success_gate gate = true.
Proof.
  unfold _check_success_gate. destruct (metric gate) as [m |]; [| reflexivity].
  now repeat destruct (String.eqb m _).
Qed.

(** The engine's validation step looks at the exit status alone. *)
Lemma run_validation_exit_zero {W : Type} (env : Env W) (self : Loaded)
    (pn : string) (task : Task) (v : Validation) (st : State W) (w1 : W) out err :
  validation task = Some v ->
  subprocess_run env (Argv ["python"; script v]) (world st) = (Completed 0 out err, w1) ->
  run_validation env self pn task st =
    Proceed (emit (EvValidation pn (description task) (script v) (Completed 0 out err)) w1 st).
Proof. intros Hv Hrun. unfold run_validation. now rewrite Hv, Hrun. Qed.

(** C1, at the code: the engine starts the validation script itself and
    never calls the validator it holds.  With a script that exits zero
    and prints a failure document the run returns 0 and the task is
    "completed", although [validate_task] gives [FAILURE] on the very
    same task and world. *)
Theorem C1_exit_zero_with_failure_document_completes :
  fst C1_run = 0%Z /\
  task_status (status (snd C1_run)) "Test Phase" "Test Task" = Some "completed" /\
  trace (snd C1_run) !! 2%nat =
    Some (EvValidation "Test Phase" "Test Task" "validate_test.py"
            (Completed 0 (Scenario.status_json "failure") EmptyString)) /\
  TransitionValidator.status
    (fst (TransitionValidator.validate_task (Scenario.env C1_script)
            "transition_artifacts" C1_task "Test Phase" ()))
  = TransitionValidator.FAILURE.
Proof. repeat split; vm_compute; reflexivity. Qed.

(** C4, at the code: [_check_success_gate] compares nothing.  With the
    gate at 80 and the phase's only metrics document reporting 75, the
    gate passes, the phase is "completed" and the run returns 0. *)
Theorem C4_gate_below_threshold_still_completes :
  json_loads (Scenario.env C4_script) metrics_75
    = Some (PyDict [("test_coverage", PyInt 75)]) /\
  min_value C4_gate = Some 80%Z /\
  _check_success_gate C4_gate = true /\
  fst C4_run = 0%Z /\
  phase_status (status (snd C4_run)) "Test Phase" = Some "completed".
Proof. repeat split; vm_compute; reflexivity. Qed.

End OrchestratorFacts.

(** ** Saving the status document *)

Module StatusStoreFacts.
Import Orchestrator StatusStore.

Lemma append_empty_r (s : string) : s +:+ EmptyString = s.
Proof.
  induction s as [| c s IH]; [reflexivity |].
  change (String c (s +:+ EmptyString) = String c s). now rewrite IH.
Qed.

Lemma append_assoc3 (a b c : string) : (a +:+ b) +:+ c = a +:+ (b +:+ c).
Proof.
  induction a as [| x a IH]; [reflexivity |].
  change (String x ((a +:+ b) +:+ c) = String x (a +:+ (b +:+ c))). now rewrite IH.
Qed.

Lemma text_take_drop (n : nat) (s : string) : text_take n s +:+ text_drop n s = s.
Proof.
  revert s. induction n as [| n IH]; intros s; [reflexivity |].
  destruct s as [| c s]; [reflexivity |].
  change (String c (text_take n s +:+ text_drop n s) = String c s). now rewrite IH.
Qed.

Lemma join_app (a b : list string) : join (a ++ b) = join a +:+ join b.
Proof.
  induction a as [| x a IH]; [reflexivity |].
  change (x +:+ join (a ++ b) = (x +:+ join a) +:+ join b).
  now rewrite IH, append_assoc3.
Qed.

Section WithFile.
Variable flush_count : string -> nat.
Variable iterencode : gmap string PhaseEntry -> list string.

Lemma fs_run_app (a b : list FsStep) (s : Writing) :
  fs_run flush_count (a ++ b) s = fs_run flush_count b (fs_run flush_count a s).
Proof. apply fold_left_app. Qed.

(** What a step leaves under [path] and in the buffer depends only on
    what was there before. *)
Lemma fs_step_local (path : string) (a b : Writing) (step : FsStep) :
  on_disk a !! path = on_disk b !! path -> pending a = pending b ->
  on_disk (fs_step flush_count a step) !! path
    = on_disk (fs_step flush_count b step) !! path /\
  pending (fs_step flush_count a step) = pending (fs_step flush_count b step).
Proof.
  intros Hd Hp. destruct step as [q | q chunk | q]; cbn [fs_step on_disk pending];
    rewrite ?Hp; (split; [| reflexivity]); destruct (decide (q = path)) as [-> | Hne].
  - now rewrite !lookup_insert_eq.
  - now rewrite !lookup_insert_ne.
  - now rewrite !lookup_alter_eq, Hd.
  - now rewrite !lookup_alter_ne.
  - now rewrite !lookup_alter_eq, Hd.
  - now rewrite !lookup_alter_ne.
Qed.

Lemma fs_run_local (path : string) (steps : list FsStep) (a b : Writing) :
  on_disk a !! path = on_disk b !! path -> pending a = pending b ->
  on_disk (fs_run flush_count steps a) !! path
  = on_disk (fs_run flush_count steps b) !! path.
Proof.
  revert a b. induction steps as [| step rest IH]; intros a b Hd Hp; [exact Hd |].
  destruct (fs_step_local path a b step Hd Hp) as [Hd' Hp']. now apply IH.
Qed.

(** After any number of writes the text on the disk followed by the text
    in the buffer is everything written so far. *)
Lemma fs_run_writes (path : string) (chunks : list string) (s : Writing) (there : string) :
  on_disk s !! path = Some there ->
  exists there',
    on_disk (fs_run flush_count (map (WriteChunk path) chunks) s) !! path = Some there' /\
    there' +:+ pending (fs_run flush_count (map (WriteChunk path) chunks) s)
    = there +:+ pending s +:+ join chunks.
Proof.
  revert s there. induction chunks as [| c rest IH]; intros s there Hd.
  - exists there. split; [exact Hd |].
    change (there +:+ pending s = there +:+ pending s +:+ EmptyString).
    now rewrite append_empty_r.
  - set (text := pending s +:+ c).
    set (s1 := fs_step flush_count s (WriteChunk path c)).
    assert (H1 : on_disk s1 !! path = Some (there +:+ text_take (flush_count text) text)).
    { subst s1. simpl. now rewrite lookup_alter_eq, Hd. }
    destruct (IH s1 _ H1) as (there' & Hl & Heq).
    exists there'. split; [exact Hl |].
    change (fs_run flush_count (map (WriteChunk path) (c :: rest)) s)
      with (fs_run flush_count (map (WriteChunk path) rest) s1).
    rewrite Heq.
    change (pending s1) with (text_drop (flush_count text) text).
    change (join (c :: rest)) with (c +:+ join rest).
    rewrite append_assoc3, <- (append_assoc3 (text_take _ _)), text_take_drop.
    subst text. now rewrite append_assoc3.
Qed.

Lemma fs_run_writes_elsewhere (path other : string) (chunks : list string) (s : Writing) :
  other <> path ->
  on_disk (fs_run flush_count (map (WriteChunk path) chunks) s) !! other = on_disk s !! other.
Proof.
  intros Hne. revert s. induction chunks as [| c rest IH]; intros s; [reflexivity |].
  change (fs_run flush_count (map (WriteChunk path) (c :: rest)) s)
    with (fs_run flush_count (map (WriteChunk path) rest)
            (fs_step flush_count s (WriteChunk path c))).
  rewrite IH. simpl. now rewrite lookup_alter_ne.
Qed.

(** As long as the file object passes nothing on, the disk stays as it
    is and the buffer holds everything written. *)
Lemma fs_run_buffered (path : string) (chunks : list string) (s : Writing) (there : string) :
  on_disk s !! path = Some there ->
  (forall j, flush_count (pending s +:+ join (take j chunks)) = 0%nat) ->
  on_disk (fs_run flush_count (map (WriteChunk path) chunks) s) !! path = Some there /\
  pending (fs_run flush_count (map (WriteChunk path) chunks) s) = pending s +:+ join chunks.
Proof.
  revert s there. induction chunks as [| c rest IH]; intros s there Hd Hnone.
  - split; [exact Hd |]. change (pending s = pending s +:+ EmptyString).
    now rewrite append_empty_r.
  - set (s1 := fs_step flush_count s (WriteChunk path c)).
    assert (Hzero : flush_count (pending s +:+ c) = 0%nat).
    { specialize (Hnone 1%nat).
      change (join (take 1 (c :: rest))) with (c +:+ EmptyString) in Hnone.
      now rewrite append_empty_r in Hnone. }
    assert (Hp1 : pending s1 = pending s +:+ c).
    { subst s1. simpl. now rewrite Hzero. }
    assert (Hd1 : on_disk s1 !! path = Some there).
    { subst s1. simpl. rewrite Hzero, lookup_alter_eq, Hd. simpl.
      now rewrite append_empty_r. }
    destruct (IH s1 there Hd1) as [Hl Hp].
    { intros j. rewrite Hp1, append_assoc3. exact (Hnone (S j)). }
    change (fs_run flush_count (map (WriteChunk path) (c :: rest)) s)
      with (fs_run flush_count (map (WriteChunk path) rest) s1).
    split; [exact Hl |]. rewrite Hp, Hp1. now rewrite append_assoc3.
Qed.

Lemma crash_after_open (k : nat) (path : string) (doc : gmap string PhaseEntry)
    (disk : gmap string string) :
  crash_after flush_count iterencode (S k) path doc disk =
    on_disk (fs_run flush_count
               (take k (map (WriteChunk path) (iterencode doc) ++ [Close path]))
               (opened path disk)).
Proof. reflexivity. Qed.

(** A save that runs to its end leaves the whole text. *)
Lemma save_complete (path : string) (doc : gmap string PhaseEntry)
    (disk : gmap string string) :
  on_disk (fs_run flush_count (map (WriteChunk path) (iterencode doc) ++ [Close path])
             (opened path disk))
    !! path = Some (join (iterencode doc)).
Proof.
  rewrite fs_run_app.
  destruct (fs_run_writes path (iterencode doc) (opened path disk) EmptyString)
    as (there & Hl & Heq); [apply lookup_insert_eq |].
  set (written := fs_run flush_count (map (WriteChunk path) (iterencode doc))
                    (opened path disk)) in *.
  change (alter (fun t => t +:+ pending written) path (on_disk written) !! path
          = Some (join (iterencode doc))).
  rewrite lookup_alter_eq, Hl. simpl. now rewrite Heq.
Qed.

Lemma save_elsewhere (path other : string) (doc : gmap string PhaseEntry)
    (disk : gmap string string) :
  other <> path ->
  on_disk (fs_run flush_count (map (WriteChunk path) (iterencode doc) ++ [Close path])
             (opened path disk))
    !! other = disk !! other.
Proof.
  intros Hne. rewrite fs_run_app.
  set (written := fs_run flush_count (map (WriteChunk path) (iterencode doc))
                    (opened path disk)).
  change (alter (fun t => t +:+ pending written) path (on_disk written) !! other
          = disk !! other).
  rewrite lookup_alter_ne by congruence. subst written.
  rewrite fs_run_writes_elsewhere by exact Hne.
  apply lookup_insert_ne. congruence.
Qed.

(** A save cut short after the file was opened leaves a beginning of the
    new text. *)
Lemma crash_leaves_a_beginning (k : nat) (path : string) (doc : gmap string PhaseEntry)
    (disk : gmap string string) :
  exists written rest,
    join (iterencode doc) = written +:+ rest /\
    crash_after flush_count iterencode (S k) path doc disk !! path = Some written.
Proof.
  rewrite crash_after_open.
  destruct (Nat.le_gt_cases k (length (iterencode doc))) as [Hle | Hgt].
  - rewrite take_app_le by (now rewrite length_map).
    rewrite <- fmap_take.
    destruct (fs_run_writes path (take k (iterencode doc)) (opened path disk) EmptyString)
      as (there & Hl & Heq); [apply lookup_insert_eq |].
    exists there.
    exists (pending (fs_run flush_count (map (WriteChunk path) (take k (iterencode doc)))
                       (opened path disk))
            +:+ join (drop k (iterencode doc))).
    split; [| exact Hl].
    rewrite <- append_assoc3, Heq.
    rewrite <- (take_drop k (iterencode doc)) at 1. now rewrite join_app.
  - rewrite take_ge by (rewrite length_app, length_map; simpl; lia).
    exists (join (iterencode doc)), EmptyString.
    split; [now rewrite append_empty_r | apply save_complete].
Qed.

Lemma crash_forgets_the_disk (k : nat) (path : string) (doc : gmap string PhaseEntry)
    (disk disk' : gmap string string) :
  crash_after flush_count iterencode (S k) path doc disk !! path
  = crash_after flush_count iterencode (S k) path doc disk' !! path.
Proof.
  rewrite !crash_after_open. apply fs_run_local; [| reflexivity].
  simpl. now rewrite !lookup_insert_eq.
Qed.

Lemma crash_with_full_buffer (k : nat) (path : string) (doc : gmap string PhaseEntry)
    (disk : gmap string string) :
  (forall j, flush_count (join (take j (iterencode doc))) = 0%nat) ->
  k <= length (iterencode doc) ->
  crash_after flush_count iterencode (S k) path doc disk !! path = Some EmptyString.
Proof.
  intros Hnone Hle. rewrite crash_after_open.
  rewrite take_app_le by (now rewrite length_map).
  rewrite <- fmap_take.
  apply (fs_run_buffered path (take k (iterencode doc)) (opened path disk) EmptyString);
    [apply lookup_insert_eq |].
  intros j. simpl. rewrite take_take. apply Hnone.
Qed.

End WithFile.

(** C2, as the code has it.  A save rewrites the status file in place.
    Without a loaded checklist, or before [load_checklist] has set the
    name, nothing is written.  Otherwise the save is the run, to the end,
    of: open the status file for writing, write the chunks of the
    document's text, close.  It leaves exactly the new text in the status
    file, whatever the file held before, and touches no other file.  Cut
    short after the file was opened, it leaves a beginning of the new
    text, the same whatever the file held before; that beginning is empty
    for as long as the file object passes nothing on to the file, up to
    the close.  Only cut short before the file is opened does it leave the
    disk as it was. *)
Theorem C2_save_rewrites_status_file_in_place
    (flush_count : string -> nat) (iterencode : gmap string PhaseEntry -> list string)
    (env : Env (gmap string string)) (self : Loaded) (st : State (gmap string string)) :
  let saved := world (_save_status (with_disk flush_count iterencode env) self st) in
  match current_checklist self, checklist_name self with
  | Some _, Some n =>
      let path := status_path n in
      let chunks := iterencode (status st) in
      saved = crash_after flush_count iterencode (S (S (length chunks))) path (status st)
                (world st) /\
      saved !! path = Some (join chunks) /\
      (forall other, other <> path -> saved !! other = world st !! other) /\
      (forall k, exists written rest,
         join chunks = written +:+ rest /\
         forall disk,
           crash_after flush_count iterencode (S k) path (status st) disk !! path
           = Some written) /\
      ((forall j, flush_count (join (take j chunks)) = 0%nat) ->
       forall k disk, k <= length chunks ->
         crash_after flush_count iterencode (S k) path (status st) disk !! path
         = Some EmptyString) /\
      (forall disk, crash_after flush_count iterencode 0 path (status st) disk = disk)
  | _, _ => saved = world st
  end.
Proof.
  unfold _save_status.
  destruct (current_checklist self) as [cl |]; [| reflexivity].
  destruct (checklist_name self) as [n |]; [| reflexivity].
  cbn [world emit snd dump_status with_disk dump].
  assert (Hall : forall disk,
            on_disk (fs_run flush_count (save_steps iterencode (status_path n) (status st))
                       (idle disk))
            = crash_after flush_count iterencode (S (S (length (iterencode (status st)))))
                (status_path n) (status st) disk).
  { intros disk. unfold crash_after. rewrite take_ge; [reflexivity |].
    unfold save_steps. simpl. rewrite length_app, length_map. simpl. lia. }
  split; [apply Hall |]. split; [apply save_complete |].
  split; [intros other Hne; now apply save_elsewhere |].
  split; [| split; [| reflexivity]].
  - intros k.
    destruct (crash_leaves_a_beginning flush_count iterencode k (status_path n) (status st) ∅)
      as (written & rest & Htext & Hl).
    exists written, rest. split; [exact Htext |]. intros disk.
    now rewrite (crash_forgets_the_disk flush_count iterencode k _ _ disk ∅).
  - intros Hnone k disk Hle. now apply crash_with_full_buffer.
Qed.

Lemma C2_save_rewrites_status_file_in_place_witness :
  world (_save_status (with_disk (buffer_of 8192) Cases.two_chunks Cases.idle_env)
           Cases.C7_loaded Cases.C2_state) !! "release_status.json" = Some "{}" /\
  crash_after (buffer_of 8192) Cases.two_chunks 3 "release_status.json" ∅ Cases.used_disk
    !! "release_status.json" = Some EmptyString.
Proof.
  pose proof (C2_save_rewrites_status_file_in_place (buffer_of 8192) Cases.two_chunks
                Cases.idle_env Cases.C7_loaded Cases.C2_state) as H.
  cbn [current_checklist checklist_name Cases.C7_loaded] in H.
  destruct H as (_ & Hfull & _ & _ & Hbuffer & _).
  split; [exact Hfull |].
  apply (Hbuffer ltac:(intros [| [| [| j]]]; reflexivity) 2%nat Cases.used_disk).
  simpl. lia.
Defined.

(** C2 as stated fails: a crash right after the file was opened leaves
    an empty status file, which is neither the document persisted before
    nor the new one. *)
Lemma C2_crash_after_open_leaves_empty_file : ~ all_or_nothing.
Proof.
  intros H.
  specialize (H (buffer_of 8192) (fun _ => ["{}"]) "release" ∅
                (<["release_status.json" := "{...}"]> ∅) "{...}" 1%nat eq_refl).
  vm_compute in H. destruct H as [H | H]; discriminate H.
Qed.

End StatusStoreFacts.

(** * Further properties *)

(** ** Blocker resolution, continued *)

Module BlockerResolverMore.
Import BlockerResolver.

Lemma prefix_spec (n h : string) :
  String.prefix n h = true <-> exists post, h = n +:+ post.
Proof.
  revert h. induction n as [| c n IH]; intros h.
  - split; [intros _; now exists h | intros _; now destruct h].
  - destruct h as [| d h]; simpl.
    + split; [discriminate | intros [post H]; discriminate H].
    + destruct (Ascii.ascii_dec c d) as [-> | Hne].
      * rewrite IH. split; intros [post H]; exists post.
        -- now rewrite H.
        -- now injection H.
      * split; [discriminate |]. intros [post H]. injection H as H _. congruence.
Qed.

(** [needle in hay]: the needle occurs somewhere in the hay. *)
Lemma str_in_spec (n h : string) :
  str_in n h = true <-> exists pre post, h = pre +:+ n +:+ post.
Proof.
  induction h as [| d h IH].
  - change (str_in n EmptyString) with (String.prefix n EmptyString || false).
    rewrite orb_false_r, prefix_spec. split.
    + intros [post H]. now exists EmptyString, post.
    + intros (pre & post & H). destruct pre as [| c pre]; [now exists post |].
      discriminate H.
  - change (str_in n (String d h)) with (String.prefix n (String d h) || str_in n h).
    rewrite orb_true_iff, prefix_spec, IH. split.
    + intros [[post H] | (pre & post & H)].
      * now exists EmptyString, post.
      * exists (String d pre), post. now rewrite H.
    + intros (pre & post & H). destruct pre as [| c pre].
      * left. now exists post.
      * right. exists pre, post. now injection H.
Qed.

Lemma str_lower_app (a b : string) : str_lower (a +:+ b) = str_lower a +:+ str_lower b.
Proof.
  induction a as [| c a IH]; [reflexivity |].
  change (String (ascii_lower c) (str_lower (a +:+ b))
          = String (ascii_lower c) (str_lower a +:+ str_lower b)).
  now rewrite IH.
Qed.

Lemma append_assoc (a b c : string) : (a +:+ b) +:+ c = a +:+ (b +:+ c).
Proof.
  induction a as [| x a IH]; [reflexivity |].
  change (String x ((a +:+ b) +:+ c) = String x (a +:+ (b +:+ c))). now rewrite IH.
Qed.

Section WithEnv.
Context {W : Type} (env : Env W).

Lemma resolve_blockers_cons (b : Blocker) (rest : list Blocker) (w : W) :
  resolve_blockers env (b :: rest) w =
    match _check_if_resolved env b w with
    | (Raise msg, w1) => (Raise msg, w1)
    | (Ok resolved, w1) =>
        match resolve_blockers env rest w1 with
        | (Raise msg, w2) => (Raise msg, w2)
        | (Ok unresolved, w2) => (Ok (if resolved then unresolved else b :: unresolved), w2)
        end
    end.
Proof. reflexivity. Qed.

End WithEnv.

(** X1.  The blockers [resolve_blockers] returns are blockers it was
    given, in the order it was given them. *)
Theorem X1_unresolved_blockers_are_a_sublist
    {W : Type} (env : Env W) (blockers unresolved : list Blocker) (w w' : W) :
  resolve_blockers env blockers w = (Ok unresolved, w') ->
  sublist unresolved blockers.
Proof.
  revert unresolved w w'. induction blockers as [| b rest IH]; intros us w w' H.
  - injection H as <- _. constructor.
  - rewrite resolve_blockers_cons in H.
    destruct (_check_if_resolved env b w) as [[r | m] w1]; [| discriminate].
    destruct (resolve_blockers env rest w1) as [[us' | m] w2] eqn:E; [| discriminate].
    injection H as <- _. specialize (IH _ _ _ E).
    destruct r; [now apply sublist_cons | now apply sublist_skip].
Qed.

Lemma resolve_blockers_app {W : Type} (env : Env W) (first second : list Blocker) (w : W) :
  resolve_blockers env (first ++ second) w =
    match resolve_blockers env first w with
    | (Raise msg, w1) => (Raise msg, w1)
    | (Ok u1, w1) =>
        match resolve_blockers env second w1 with
        | (Raise msg, w2) => (Raise msg, w2)
        | (Ok u2, w2) => (Ok (u1 ++ u2)%list, w2)
        end
    end.
Proof.
  revert w. induction first as [| b rest IH]; intros w.
  - simpl. now destruct (resolve_blockers env second w) as [[u | m] w2].
  - change ((b :: rest) ++ second)%list with (b :: (rest ++ second))%list.
    rewrite !resolve_blockers_cons.
    destruct (_check_if_resolved env b w) as [[r | m] w1]; [| reflexivity].
    rewrite IH.
    destruct (resolve_blockers env rest w1) as [[u1 | m] w2]; [| reflexivity].
    destruct (resolve_blockers env second w2) as [[u2 | m] w3]; [| reflexivity].
    now destruct r.
Qed.

(** X2.  Resolving a concatenation is resolving the first part and then,
    in the world it leaves, the second; an exception in the first part
    keeps the second from being looked at. *)
Theorem X2_resolve_blockers_of_concatenation
    {W : Type} (env : Env W) (first second : list Blocker) (w : W) :
  resolve_blockers env (first ++ second) w =
    match resolve_blockers env first w with
    | (Raise msg, w1) => (Raise msg, w1)
    | (Ok u1, w1) =>
        match resolve_blockers env second w1 with
        | (Raise msg, w2) => (Raise msg, w2)
        | (Ok u2, w2) => (Ok (u1 ++ u2)%list, w2)
        end
    end.
Proof. apply resolve_blockers_app. Qed.

(** X3.  Without a diagnostic command and without a non-empty prompt the
    verdict is read off the checklist alone: the world is left as it was
    and the unresolved blockers are exactly those that list a required
    expert. *)
Theorem X3_static_blockers_are_filtered_by_experts
    {W : Type} (env : Env W) (blockers : list Blocker) (w : W) :
  Forall nothing_to_run blockers ->
  resolve_blockers env blockers w = (Ok (List.filter requires_experts blockers), w).
Proof.
  induction 1 as [| b rest [Hd Hp] _ IH]; [reflexivity |].
  rewrite resolve_blockers_cons.
  assert (Hb : _check_if_resolved env b w = (Ok (negb (requires_experts b)), w)).
  { unfold _check_if_resolved, requires_experts, resolution_of, diagnostics_pass in *.
    destruct (resolution b) as [r |]; simpl in *.
    - rewrite Hd. simpl. unfold no_experts_required.
      destruct Hp as [-> | ->]; simpl; now destruct (required_experts r) as [[| e es] |].
    - reflexivity. }
  rewrite Hb, IH. simpl. now destruct (requires_experts b).
Qed.

(** X5.  When the check of one blocker raises, [resolve_blockers] raises
    the same in the same world: the exception is not caught, the
    blockers found unresolved so far are dropped, and the blockers after
    it are not checked. *)
Theorem X5_resolve_blockers_stops_at_an_exception
    {W : Type} (env : Env W) (before after : list Blocker) (b : Blocker)
    (w w1 w2 : W) (unresolved : list Blocker) (msg : string) :
  resolve_blockers env before w = (Ok unresolved, w1) ->
  _check_if_resolved env b w1 = (Raise msg, w2) ->
  resolve_blockers env (before ++ b :: after) w = (Raise msg, w2).
Proof.
  intros Hb Hc. rewrite resolve_blockers_app, Hb.
  rewrite resolve_blockers_cons. now rewrite Hc.
Qed.

(** X6.  A diagnostic command that cannot be started, or that exits zero
    and prints valid JSON which is not an object (a number, a string, a
    list, [null], ...), leaves the blocker unresolved whatever else it
    declares, and the assistant is not asked. *)
Theorem X6_diagnostic_faults_leave_unresolved
    {W : Type} (env : Env W) (b : Blocker) (r : Resolution) (line : string) (w w1 : W) :
  resolution b = Some r ->
  diagnostics r = Some line ->
  (forall msg,
     subprocess_run env (Shell line) w = (SpawnError msg, w1) ->
     _check_if_resolved env b w = (Ok false, w1)) /\
  (forall out err v,
     subprocess_run env (Shell line) w = (Completed 0 out err, w1) ->
     json_loads env out = Some v ->
     (forall items, v <> PyDict items) ->
     _check_if_resolved env b w = (Ok false, w1)).
Proof.
  intros Hr Hd. split.
  - intros msg Hrun. eapply BlockerResolverFacts.check_after_veto; [exact Hr |].
    unfold diagnostics_pass. now rewrite Hd, Hrun.
  - intros out err v Hrun Hjson Hv.
    eapply BlockerResolverFacts.check_after_veto; [exact Hr |].
    unfold diagnostics_pass. rewrite Hd, Hrun. simpl. rewrite Hjson.
    destruct v; try reflexivity. now destruct (Hv items).
Qed.

(** X7.  Under the prompt rule the blocker is resolved exactly when the
    word occurs somewhere in the lowercased answer; so an answer that
    resolves still resolves with any text put before and after it. *)
Theorem X7_resolving_answers_resolve_inside_longer_answers
    {W : Type} (env : Env W) (b : Blocker) (r : Resolution) (prompt text : string)
    (w w1 w2 : W) :
  resolution b = Some r ->
  diagnostics_pass env r w = (true, w1) ->
  lmstudio_prompt r = Some prompt ->
  prompt <> EmptyString ->
  generate_prompt env
    {| ctx_phase := "Blocker Resolution";
       ctx_task_description := "Checking blocker: " +:+ type b;
       ctx_implementation_data := prompt |} w1 = (Reply text, w2) ->
  (_check_if_resolved env b w = (Ok true, w2) <->
   exists pre post, str_lower text = pre +:+ "resolved" +:+ post) /\
  (forall core head tail,
     text = head +:+ core +:+ tail ->
     str_in "resolved" (str_lower core) = true ->
     _check_if_resolved env b w = (Ok true, w2)).
Proof.
  intros Hr Hpass Hp Hne Hgen.
  assert (Hchk : _check_if_resolved env b w = (Ok (str_in "resolved" (str_lower text)), w2)).
  { rewrite (BlockerResolverFacts.check_after_pass env b r w w1 Hr Hpass), Hp.
    destruct prompt as [| c rest]; [congruence |]. simpl. now rewrite Hgen. }
  rewrite Hchk. split.
  - rewrite <- str_in_spec. split; [intros H; now injection H | intros ->; reflexivity].
  - intros core head tail -> Hcore. apply str_in_spec in Hcore as (pre & post & Hcore).
    assert (Hin : str_in "resolved" (str_lower (head +:+ core +:+ tail)) = true).
    { apply str_in_spec. exists (str_lower head +:+ pre), (post +:+ str_lower tail).
      rewrite !str_lower_app, Hcore, !append_assoc. reflexivity. }
    now rewrite Hin.
Qed.

End BlockerResolverMore.

(** ** The validation pipeline, continued *)

Module TransitionValidatorMore.
Import TransitionValidator.
Local Open Scope list_scope.

Section WithEnv.
Context {W : Type} (env : Env W).

(** What the artifact loop has in hand when it ends without a fault. *)
Lemma collect_artifacts_all (dir : string) (expected : list string) (w : W)
    (acc found : gmap string string) :
  collect_artifacts env dir expected w acc = AllPresent found ->
  (forall a, In a expected -> exists t, read_artifact env w dir a = Content t /\ found !! a = Some t) /\
  (forall k, ~ In k expected -> found !! k = acc !! k).
Proof.
  revert acc. induction expected as [| x rest IH]; intros acc H; simpl in H.
  - injection H as <-. split; [intros a [] | reflexivity].
  - destruct (read_artifact env w dir x) as [| t | m] eqn:R; try discriminate.
    destruct (IH _ H) as [Hin Hout]. split.
    + intros a [<- | Ha].
      * exists t. split; [exact R |].
        destruct (in_dec String.string_dec x rest) as [Hx | Hx].
        -- destruct (Hin x Hx) as (t' & R' & F'). congruence.
        -- rewrite (Hout x Hx). apply lookup_insert_eq.
      * now apply Hin.
    + intros k Hk. rewrite Hout by (intros Hr; apply Hk; now right).
      apply lookup_insert_ne. intros ->. apply Hk. now left.
Qed.

Lemma collect_artifacts_readable (dir : string) (expected : list string) (w : W)
    (acc : gmap string string) :
  (forall a, In a expected -> exists t, read_artifact env w dir a = Content t) ->
  exists found, collect_artifacts env dir expected w acc = AllPresent found.
Proof.
  revert acc. induction expected as [| x rest IH]; intros acc H; simpl.
  - eauto.
  - destruct (H x (or_introl eq_refl)) as [t ->]. apply IH. intros a Ha. apply H. now right.
Qed.

(** The loop stops at the first artifact that is not there, with the
    artifacts before it in hand. *)
Lemma collect_artifacts_missing (dir : string) (before after : list string) (a : string)
    (w : W) (acc : gmap string string) :
  (forall x, In x before -> exists t, read_artifact env w dir x = Content t) ->
  read_artifact env w dir a = Absent ->
  exists found,
    collect_artifacts env dir (before ++ a :: after) w acc = Missing found a /\
    (forall x, In x before ->
       exists t, read_artifact env w dir x = Content t /\ found !! x = Some t) /\
    (forall k, ~ In k before -> found !! k = acc !! k).
Proof.
  revert acc. induction before as [| x rest IH]; intros acc Hb Ha; simpl.
  - rewrite Ha. exists acc. split; [reflexivity |]. split; [intros x [] | reflexivity].
  - destruct (Hb x (or_introl eq_refl)) as [t R]. rewrite R.
    destruct (IH (<[x := t]> acc) (fun y Hy => Hb y (or_intror Hy)) Ha)
      as (found & Hc & Hin & Hout).
    exists found. split; [exact Hc |]. split.
    + intros y [<- | Hy]; [| now apply Hin].
      exists t. split; [exact R |].
      destruct (in_dec String.string_dec x rest) as [Hx | Hx].
      * destruct (Hin x Hx) as (t' & R' & F'). congruence.
      * rewrite (Hout x Hx). apply lookup_insert_eq.
    + intros k Hk. rewrite Hout by (intros Hr; apply Hk; now right).
      apply lookup_insert_ne. intros ->. apply Hk. now left.
Qed.

Lemma collect_artifacts_keys (dir : string) (expected : list string) (w : W)
    (acc : gmap string string) (k : string) :
  match collect_artifacts env dir expected w acc with
  | AllPresent found | Missing found _ => is_Some (found !! k) -> is_Some (acc !! k) \/ In k expected
  | ReadFailed _ => True
  end.
Proof.
  revert acc. induction expected as [| x rest IH]; intros acc; simpl.
  - now left.
  - destruct (read_artifact env w dir x) as [| t | m]; [now left | | exact I].
    specialize (IH (<[x := t]> acc)).
    destruct (collect_artifacts env dir rest w (<[x := t]> acc)) as [found | found a | m];
      [| | exact I]; intros Hk; destruct (IH Hk) as [Hacc | Hin]; auto;
      (destruct (decide (x = k)) as [-> | Hne];
       [right; now left | left; now rewrite lookup_insert_ne in Hacc]).
Qed.

End WithEnv.

(** X8.  [validate_task] answers [SUCCESS] or [FAILURE] and nothing else,
    and a [SUCCESS] never carries a message. *)
Theorem X8_validate_task_is_success_or_failure
    {W : Type} (env : Env W) (dir : string) (task : Task) (phase_name : string) (w : W) :
  let result := fst (validate_task env dir task phase_name w) in
  (status result = SUCCESS \/ status result = FAILURE) /\
  (status result = SUCCESS -> error_message result = PyNone).
Proof.
  unfold validate_task. destruct (validation task) as [v |]; [| now split; [left |]].
  destruct (subprocess_run env _ w) as [[rc out err | m] w1]; [| now split; [right |]].
  destruct (negb (rc =? 0)%Z); [now split; [right |] |].
  destruct (json_loads env out) as [[| | | | | | items] |]; try (now split; [right |]).
  destruct (collect_artifacts env dir _ w1 ∅) as [found | found a | m];
    try (now split; [right |]).
  destruct (py_eq_str _ _); now split; [(left + right) |].
Qed.

(** X9.  For a task with a validation block whose script ran to
    completion, the verdict is [SUCCESS] exactly when the script exited
    zero, printed a JSON object whose status is the string "success",
    and every expected artifact can be read in the world the script left. *)
Theorem X9_success_exactly_when_script_and_artifacts_agree
    {W : Type} (env : Env W) (dir : string) (task : Task) (v : Validation)
    (phase_name : string) (w w1 : W) (rc : Z) (out err : string) :
  validation task = Some v ->
  subprocess_run env (Argv ["python"; script v]) w = (Completed rc out err, w1) ->
  (status (fst (validate_task env dir task phase_name w)) = SUCCESS <->
   rc = 0%Z /\
   (exists items, json_loads env out = Some (PyDict items) /\
                  dict_lookup items "status" = Some (PyStr "success")) /\
   (forall a, In a (from_option id [] (expected_artifacts v)) ->
              exists t, read_artifact env w1 dir a = Content t)).
Proof.
  intros Hv Hrun. unfold validate_task. rewrite Hv, Hrun.
  destruct (Z.eqb_spec rc 0) as [-> | Hrc]; simpl.
  2: { split; [discriminate | intros [H _]; contradiction]. }
  destruct (json_loads env out) as [[| | | | | | items] |];
    try (split; [discriminate | intros (_ & (items' & H & _) & _); discriminate H]).
  destruct (collect_artifacts env dir _ w1 ∅) as [found | found a | m] eqn:C.
  - destruct (collect_artifacts_all env _ _ _ _ _ C) as [Hin _].
    destruct (dict_lookup items "status") as [[| | | | s | |] |] eqn:S; simpl;
      try (split; [discriminate | intros (_ & (items' & H & H') & _); congruence]).
    destruct (String.eqb_spec s "success") as [-> | Hs].
    + split; [intros _ | reflexivity]. split; [reflexivity |]. split; [eauto |].
      intros a Ha. destruct (Hin a Ha) as (t & R & _). eauto.
    + split; [discriminate |]. intros (_ & (items' & H & H') & _). congruence.
  - split; [discriminate |]. intros (_ & _ & Hall).
    destruct (collect_artifacts_readable env dir _ w1 ∅ Hall) as [found' C']. congruence.
  - split; [discriminate |]. intros (_ & _ & Hall).
    destruct (collect_artifacts_readable env dir _ w1 ∅ Hall) as [found' C']. congruence.
Qed.

(** X10.  On [SUCCESS] the artifact map holds, under each expected name,
    the text read for it, and holds nothing under any other name. *)
Theorem X10_success_returns_exactly_the_expected_artifacts
    {W : Type} (env : Env W) (dir : string) (task : Task) (v : Validation)
    (phase_name : string) (w : W) :
  validation task = Some v ->
  status (fst (validate_task env dir task phase_name w)) = SUCCESS ->
  let result := fst (validate_task env dir task phase_name w) in
  let w1 := snd (validate_task env dir task phase_name w) in
  (forall a, In a (from_option id [] (expected_artifacts v)) ->
     exists t, read_artifact env w1 dir a = Content t /\ artifacts result !! a = Some t) /\
  (forall k, ~ In k (from_option id [] (expected_artifacts v)) ->
     artifacts result !! k = None).
Proof.
  intros Hv. unfold validate_task. rewrite Hv.
  destruct (subprocess_run env _ w) as [[rc out err | m] w1]; [| discriminate].
  destruct (negb (rc =? 0)%Z); [discriminate |].
  destruct (json_loads env out) as [[| | | | | | items] |]; try discriminate.
  destruct (collect_artifacts env dir _ w1 ∅) as [found | found a | m] eqn:C;
    try discriminate.
  destruct (py_eq_str _ _); [| discriminate]. intros _. simpl.
  destruct (collect_artifacts_all env _ _ _ _ _ C) as [Hin Hout]. split; [exact Hin |].
  intros k Hk. now rewrite Hout.
Qed.

(** X11.  As soon as one expected artifact is missing the verdict is
    [FAILURE], whatever status the script printed; the message names the
    first missing artifact and the map keeps the artifacts read before
    it, and only those. *)
Theorem X11_first_missing_artifact_fails_with_partial_map
    {W : Type} (env : Env W) (dir : string) (task : Task) (v : Validation)
    (phase_name : string) (w w1 : W) (out err : string) (items : list (string * pyval))
    (before after : list string) (a : string) :
  validation task = Some v ->
  expected_artifacts v = Some (before ++ a :: after) ->
  subprocess_run env (Argv ["python"; script v]) w = (Completed 0 out err, w1) ->
  json_loads env out = Some (PyDict items) ->
  (forall x, In x before -> exists t, read_artifact env w1 dir x = Content t) ->
  read_artifact env w1 dir a = Absent ->
  let result := fst (validate_task env dir task phase_name w) in
  status result = FAILURE /\
  error_message result = PyStr ("Missing artifact: " +:+ a) /\
  (forall x, In x before ->
     exists t, read_artifact env w1 dir x = Content t /\ artifacts result !! x = Some t) /\
  (forall k, ~ In k before -> artifacts result !! k = None).
Proof.
  intros Hv He Hrun Hjson Hb Ha. unfold validate_task. rewrite Hv, Hrun. simpl.
  rewrite Hjson, He. simpl.
  destruct (collect_artifacts_missing env dir before after a w1 ∅ Hb Ha)
    as (found & -> & Hin & Hout).
  simpl. repeat split; [exact Hin |]. intros k Hk. now rewrite Hout.
Qed.

(** X12.  Whatever the verdict, the artifact map only has names the task
    declares, and it is empty unless the script exited zero and printed a
    JSON object. *)
Theorem X12_artifacts_only_under_declared_names
    {W : Type} (env : Env W) (dir : string) (task : Task) (phase_name : string)
    (w : W) (k : string) :
  is_Some (artifacts (fst (validate_task env dir task phase_name w)) !! k) ->
  exists v out err w1 items,
    validation task = Some v /\
    In k (from_option id [] (expected_artifacts v)) /\
    subprocess_run env (Argv ["python"; script v]) w = (Completed 0 out err, w1) /\
    json_loads env out = Some (PyDict items).
Proof.
  unfold validate_task. destruct (validation task) as [v |]; simpl.
  2: { rewrite lookup_empty. intros [? ?]. discriminate. }
  destruct (subprocess_run env _ w) as [[rc out err | m] w1] eqn:Hrun; simpl.
  2: { rewrite lookup_empty. intros [? ?]. discriminate. }
  destruct (Z.eqb_spec rc 0) as [-> | Hrc]; simpl.
  2: { rewrite lookup_empty. intros [? ?]. discriminate. }
  destruct (json_loads env out) as [[| | | | | | items] |] eqn:Hjson; simpl;
    try (rewrite lookup_empty; intros [? ?]; discriminate).
  pose proof (collect_artifacts_keys env dir (from_option id [] (expected_artifacts v)) w1 ∅ k)
    as Hkeys.
  destruct (collect_artifacts env dir _ w1 ∅) as [found | found a | m]; simpl.
  - destruct (py_eq_str _ _); simpl; intros Hk;
      (destruct (Hkeys Hk) as [Hacc | Hin];
       [rewrite lookup_empty in Hacc; destruct Hacc; discriminate |]);
      exists v, out, err, w1, items; auto.
  - intros Hk. destruct (Hkeys Hk) as [Hacc | Hin];
      [rewrite lookup_empty in Hacc; destruct Hacc; discriminate |].
    exists v, out, err, w1, items; auto.
  - rewrite lookup_empty. intros [? ?]. discriminate.
Qed.

End TransitionValidatorMore.

(** ** The assistant client *)

Module LMStudioClientFacts.
Import LMStudioClient BlockerResolver.
Local Open Scope list_scope.

(** The fixed beginning of the error text has no part in the search for
    the word. *)
Lemma error_text_verdict (e : string) :
  str_in "resolved" (str_lower ("Error generating prompt: " +:+ e))
  = str_in "resolved" (str_lower e).
Proof. reflexivity. Qed.

Section WithHttp.
Context {W : Type} (requests_post : string -> pyval -> W -> HttpOutcome * W) (env : Env W).

Lemma diagnostics_pass_with_client (r : Resolution) (w : W) :
  diagnostics_pass (with_client requests_post env) r w = diagnostics_pass env r w.
Proof. reflexivity. Qed.

(** [_check_if_resolved] with this client, once the prompt rule is reached. *)
Lemma check_with_client (b : Blocker) (r : Resolution) (prompt : string) (w w1 : W) :
  resolution b = Some r ->
  diagnostics_pass env r w = (true, w1) ->
  lmstudio_prompt r = Some prompt ->
  prompt <> EmptyString ->
  _check_if_resolved (with_client requests_post env) b w =
    match ask requests_post
            {| ctx_phase := "Blocker Resolution";
               ctx_task_description := "Checking blocker: " +:+ type b;
               ctx_implementation_data := prompt |} w1 with
    | (Reply response, w2) => (Ok (str_in "resolved" (str_lower response)), w2)
    | (AiError msg, w2) => (Raise msg, w2)
    end.
Proof.
  intros Hr Hpass Hp Hne.
  rewrite (BlockerResolverFacts.check_after_pass (with_client requests_post env)
             b r w w1 Hr Hpass), Hp.
  destruct prompt as [| c rest]; [congruence | reflexivity].
Qed.

End WithHttp.

(** X13.  From a body shaped like a chat completion [generate_prompt]
    returns the content of the message of the first choice, whatever
    choices follow it, and the empty text when that message has no
    content. *)
Theorem X13_generate_prompt_returns_first_choice
    {W : Type} (requests_post : string -> pyval -> W -> HttpOutcome * W)
    (endpoint : string) (context : ChatContext) (w w1 : W)
    (items choice message : list (string * pyval)) (others : list pyval) :
  requests_post endpoint (payload context) w = (JsonBody (PyDict items), w1) ->
  dict_lookup items "choices" = Some (PyList (PyDict choice :: others)) ->
  dict_lookup choice "message" = Some (PyDict message) ->
  generate_prompt requests_post endpoint context w =
    (Ok (from_option id (PyStr EmptyString) (dict_lookup message "content")), w1).
Proof.
  intros Hpost Hc Hm. unfold generate_prompt, first_content. rewrite Hpost. simpl.
  rewrite Hc. simpl. now rewrite Hm.
Qed.

(** X14.  [generate_prompt] turns every fault of the request into a text
    and returns the empty text for an object without choices, but it
    raises when the list of choices is empty and when the body is not an
    object. *)
Theorem X14_generate_prompt_faults_and_defaults
    {W : Type} (requests_post : string -> pyval -> W -> HttpOutcome * W)
    (endpoint : string) (context : ChatContext) (w w1 : W) :
  (forall e,
     requests_post endpoint (payload context) w = (RequestException e, w1) ->
     generate_prompt requests_post endpoint context w
     = (Ok (PyStr ("Error generating prompt: " +:+ e)), w1)) /\
  (forall items,
     requests_post endpoint (payload context) w = (JsonBody (PyDict items), w1) ->
     dict_lookup items "choices" = None ->
     generate_prompt requests_post endpoint context w = (Ok (PyStr EmptyString), w1)) /\
  (forall items,
     requests_post endpoint (payload context) w = (JsonBody (PyDict items), w1) ->
     dict_lookup items "choices" = Some (PyList []) ->
     generate_prompt requests_post endpoint context w
     = (Raise "list index out of range", w1)) /\
  (forall data,
     requests_post endpoint (payload context) w = (JsonBody data, w1) ->
     (forall items, data <> PyDict items) ->
     generate_prompt requests_post endpoint context w
     = (Raise (no_attribute data "get"), w1)).
Proof.
  unfold generate_prompt, first_content. repeat split.
  - intros e ->. reflexivity.
  - intros items -> Hc. simpl. now rewrite Hc.
  - intros items -> Hc. simpl. now rewrite Hc.
  - intros data -> Hd. destruct data; try reflexivity. now destruct (Hd items).
Qed.

(** X15.  With this client behind the prompt rule, a request that fails
    does not raise: the blocker is resolved exactly when the text of the
    fault, lowercased, contains "resolved".  A reply without choices
    leaves the blocker unresolved. *)
Theorem X15_unreachable_assistant_decides_by_fault_text
    {W : Type} (requests_post : string -> pyval -> W -> HttpOutcome * W) (env : Env W)
    (b : Blocker) (r : Resolution) (prompt : string) (w w1 w2 : W) :
  resolution b = Some r ->
  diagnostics_pass env r w = (true, w1) ->
  lmstudio_prompt r = Some prompt ->
  prompt <> EmptyString ->
  let context :=
    context_of {| ctx_phase := "Blocker Resolution";
                  ctx_task_description := "Checking blocker: " +:+ type b;
                  ctx_implementation_data := prompt |} in
  (forall e,
     requests_post default_endpoint (payload context) w1 = (RequestException e, w2) ->
     _check_if_resolved (with_client requests_post env) b w
     = (Ok (str_in "resolved" (str_lower e)), w2)) /\
  (forall items,
     requests_post default_endpoint (payload context) w1 = (JsonBody (PyDict items), w2) ->
     dict_lookup items "choices" = None ->
     _check_if_resolved (with_client requests_post env) b w = (Ok false, w2)).
Proof.
  intros Hr Hpass Hp Hne context.
  pose proof (check_with_client requests_post env b r prompt w w1 Hr Hpass Hp Hne) as Hchk.
  split.
  - intros e Hpost. rewrite Hchk. unfold ask, generate_prompt. fold context.
    rewrite Hpost. now rewrite error_text_verdict.
  - intros items Hpost Hc. rewrite Hchk. unfold ask, generate_prompt, first_content.
    fold context. rewrite Hpost. simpl. now rewrite Hc.
Qed.

(** X16.  With this client behind the prompt rule, a reply whose list of
    choices is empty, or whose content is not a text, raises out of
    [_check_if_resolved]. *)
Theorem X16_malformed_reply_raises_out_of_the_check
    {W : Type} (requests_post : string -> pyval -> W -> HttpOutcome * W) (env : Env W)
    (b : Blocker) (r : Resolution) (prompt : string) (w w1 w2 : W)
    (items : list (string * pyval)) :
  resolution b = Some r ->
  diagnostics_pass env r w = (true, w1) ->
  lmstudio_prompt r = Some prompt ->
  prompt <> EmptyString ->
  requests_post default_endpoint
    (payload (context_of {| ctx_phase := "Blocker Resolution";
                            ctx_task_description := "Checking blocker: " +:+ type b;
                            ctx_implementation_data := prompt |})) w1
  = (JsonBody (PyDict items), w2) ->
  (dict_lookup items "choices" = Some (PyList []) ->
   _check_if_resolved (with_client requests_post env) b w
   = (Raise "list index out of range", w2)) /\
  (forall choice others message content,
     dict_lookup items "choices" = Some (PyList (PyDict choice :: others)) ->
     dict_lookup choice "message" = Some (PyDict message) ->
     dict_lookup message "content" = Some content ->
     (forall text, content <> PyStr text) ->
     _check_if_resolved (with_client requests_post env) b w
     = (Raise (no_attribute content "lower"), w2)).
Proof.
  intros Hr Hpass Hp Hne Hpost.
  pose proof (check_with_client requests_post env b r prompt w w1 Hr Hpass Hp Hne) as Hchk.
  split.
  - intros Hc. rewrite Hchk. unfold ask, generate_prompt, first_content.
    rewrite Hpost. simpl. now rewrite Hc.
  - intros choice others message content Hc Hm Hcont Hnot. rewrite Hchk.
    unfold ask, generate_prompt, first_content. rewrite Hpost. simpl.
    rewrite Hc. simpl. rewrite Hm. simpl. rewrite Hcont. simpl.
    destruct content; try reflexivity. now destruct (Hnot s).
Qed.

End LMStudioClientFacts.

(** ** The engine, continued *)

Module OrchestratorMore.
Import Orchestrator.
Local Open Scope list_scope.

(** In a list that ends, after a calm stretch, with a fatal event and a
    calm tail, a fatal event can only be that one. *)
Lemma fatal_is_unique (l1 l2 pre tail : list Event) (x y : Event) :
  l1 ++ x :: l2 = pre ++ y :: tail ->
  Calm pre -> Calm tail -> fatal x ->
  l1 = pre /\ x = y /\ l2 = tail.
Proof.
  revert l1. induction pre as [| a pre IH]; intros l1 Heq Hpre Htail Hx.
  - destruct l1 as [| b l1]; simpl in Heq.
    + injection Heq as -> ->. auto.
    + injection Heq as -> Heq. exfalso.
      assert (Hin : In x tail) by (rewrite <- Heq; apply in_elt).
      unfold Calm in Htail. rewrite Forall_forall in Htail.
      apply (Htail x); [now apply list_elem_of_In | exact Hx].
  - inversion Hpre as [| ? ? Ha Hpre']; subst.
    destruct l1 as [| b l1]; simpl in Heq.
    + injection Heq as -> _. contradiction.
    + injection Heq as -> Heq. destruct (IH l1 Heq Hpre' Htail Hx) as (-> & -> & ->). auto.
Qed.

Lemma calm_save path doc : Calm [EvSave path doc].
Proof. repeat constructor. simpl. tauto. Qed.

Section Loaded.
Context {W : Type} (env : Env W) (self : Loaded) (n : string) (cl : Checklist).
Hypothesis Hcl : current_checklist self = Some cl.
Hypothesis Hname : checklist_name self = Some n.

Lemma save_eq (st : State W) :
  _save_status env self st =
    emit (EvSave (status_path n) (status st))
         (snd (dump_status env (status_path n) (status st) (world st))) st.
Proof. exact (OrchestratorFacts.save_status_eq env self n cl Hcl Hname st). Qed.

Lemma Ended_refl (st : State W) : Ended n st Next st.
Proof. apply EndedNext with (added := []); [now rewrite app_nil_r | constructor]. Qed.

Lemma Ended_trans (st st1 st2 : State W) (added : list Event) flow :
  trace st1 = trace st ++ added -> Calm added ->
  Ended n st1 flow st2 -> Ended n st flow st2.
Proof.
  intros Ht Hq H.
  destruct H as [st2 added' Ht' Hq' | st2 pre ev pn td Ht' Hq' Hf Hts
                | st2 pre pn td msg Ht' Hq' Hts | st2 pre pn Ht' Hq' Hps].
  - apply EndedNext with (added := added ++ added').
    + now rewrite Ht', Ht, <- app_assoc.
    + now apply Forall_app.
  - eapply EndedFailed with (pre := added ++ pre); [| | exact Hf | exact Hts].
    + rewrite Ht', Ht, <- !app_assoc. reflexivity.
    + now apply Forall_app.
  - eapply EndedRaised with (pre := added ++ pre); [| | exact Hts].
    + rewrite Ht', Ht, <- !app_assoc. reflexivity.
    + now apply Forall_app.
  - eapply EndedGate with (pre := added ++ pre); [| | exact Hps].
    + rewrite Ht', Ht, <- !app_assoc. reflexivity.
    + now apply Forall_app.
Qed.

Lemma Ended_next (st st1 st2 : State W) flow :
  Ended n st Next st1 -> Ended n st1 flow st2 -> Ended n st flow st2.
Proof.
  intros H1 H2. inversion H1 as [? added Ht Hq | | |]; subst.
  eapply Ended_trans; eauto.
Qed.

Lemma save_ended (f : gmap string PhaseEntry -> gmap string PhaseEntry) (st : State W) :
  Ended n st Next (_save_status env self (update f st)).
Proof. rewrite save_eq. eapply EndedNext; [reflexivity | apply calm_save]. Qed.

Local Ltac calm := repeat constructor; simpl; tauto.

Lemma check_blockers_ended pn task (st : State W) :
  task_status (status st) pn (description task) = Some "in_progress" ->
  match check_blockers env self pn task st with
  | Proceed st' => Ended n st Next st'
  | Continue st' => Ended n st Next st'
  | Return code st' => Ended n st (Exit code) st'
  end.
Proof.
  intros Hip. unfold check_blockers. destruct (from_option id [] (blockers task)) as [| b bs].
  - apply Ended_refl.
  - destruct (BlockerResolver.resolve_blockers env (b :: bs) (world st)) as [r w1].
    destruct r as [[| u us] | msg].
    + eapply EndedNext; [reflexivity | calm].
    + rewrite save_eq. eapply EndedNext; [simpl; rewrite <- app_assoc; reflexivity | calm].
    + eapply EndedRaised with (pre := []); [reflexivity | constructor | exact Hip].
Qed.

Lemma run_command_ended pn task (st : State W) :
  is_Some (status st !! pn) ->
  match run_command env self pn task st with
  | Proceed st' => Ended n st Next st'
  | Continue st' => Ended n st Next st'
  | Return code st' => Ended n st (Exit code) st'
  end.
Proof.
  intros Hk. unfold run_command. destruct (command task) as [line |]; [| apply Ended_refl].
  destruct (subprocess_run env (Shell line) (world st)) as [outcome w1].
  assert (Hfail : forall o, bad_outcome o ->
            Ended n st (Exit 1)
              (_save_status env self
                 (update (set_task_status pn (description task) "failed")
                    (emit (EvCommand pn (description task) line o) w1 st)))).
  { intros o Ho. rewrite save_eq.
    eapply EndedFailed with (pre := []) (pn := pn) (td := description task).
    - simpl. rewrite <- app_assoc. reflexivity.
    - constructor.
    - simpl. auto.
    - simpl. now apply OrchestratorFacts.set_task_status_lookup. }
  destruct outcome as [rc out err | msg].
  - destruct (Z.eqb_spec rc 0) as [-> | Hrc]; simpl.
    + eapply EndedNext; [reflexivity | calm].
    + now apply Hfail.
  - now apply Hfail.
Qed.

Lemma run_validation_ended pn task (st : State W) :
  is_Some (status st !! pn) ->
  match run_validation env self pn task st with
  | Proceed st' => Ended n st Next st'
  | Continue st' => Ended n st Next st'
  | Return code st' => Ended n st (Exit code) st'
  end.
Proof.
  intros Hk. unfold run_validation. destruct (validation task) as [v |]; [| apply Ended_refl].
  destruct (subprocess_run env (Argv ["python"; script v]) (world st)) as [outcome w1].
  assert (Hfail : forall o, bad_outcome o ->
            Ended n st (Exit 1)
              (_save_status env self
                 (update (set_task_status pn (description task) "failed")
                    (emit (EvValidation pn (description task) (script v) o) w1 st)))).
  { intros o Ho. rewrite save_eq.
    eapply EndedFailed with (pre := []) (pn := pn) (td := description task).
    - simpl. rewrite <- app_assoc. reflexivity.
    - constructor.
    - simpl. auto.
    - simpl. now apply OrchestratorFacts.set_task_status_lookup. }
  destruct outcome as [rc out err | msg].
  - destruct (Z.eqb_spec rc 0) as [-> | Hrc]; simpl.
    + eapply EndedNext; [reflexivity | calm].
    + now apply Hfail.
  - now apply Hfail.
Qed.

Lemma execute_task_ended pn task (st : State W) :
  is_Some (status st !! pn) ->
  Ended n st (fst (execute_task env self pn task st)) (snd (execute_task env self pn task st)).
Proof.
  intros Hk. unfold execute_task.
  set (st0 := _save_status env self
                (update (set_task_status pn (description task) "in_progress") st)).
  assert (H0 : Ended n st Next st0) by apply save_ended.
  assert (K0 : Keeps st st0)
    by (apply (OrchestratorFacts.save_task_keeps env self n cl Hcl Hname)).
  assert (Hip : task_status (status st0) pn (description task) = Some "in_progress").
  { subst st0. rewrite save_eq. simpl. now apply OrchestratorFacts.set_task_status_lookup. }
  pose proof (check_blockers_ended pn task st0 Hip) as Hb.
  pose proof (OrchestratorFacts.check_blockers_ran env self n cl Hcl Hname pn task st0) as Kb.
  destruct (check_blockers env self pn task st0) as [st1 | st1 | code st1]; simpl;
    [| eapply Ended_next; eauto | eapply Ended_next; eauto].
  destruct Kb as [_ Kb].
  assert (K1 : Keeps st st1) by (intros k Hk'; auto).
  pose proof (run_command_ended pn task st1 (K1 _ Hk)) as Hc.
  pose proof (OrchestratorFacts.run_command_ran env self n cl Hcl Hname pn task st1 (K1 _ Hk)) as Kc.
  destruct (run_command env self pn task st1) as [st2 | st2 | code st2]; simpl;
    [| eapply Ended_next; [eapply Ended_next; eauto | eauto]
     | eapply Ended_next; [eapply Ended_next; eauto | eauto]].
  destruct Kc as [_ Kc].
  assert (K2 : Keeps st st2) by (intros k Hk'; auto).
  pose proof (run_validation_ended pn task st2 (K2 _ Hk)) as Hv.
  assert (H2 : Ended n st Next st2) by (eapply Ended_next; [eapply Ended_next; eauto | eauto]).
  destruct (run_validation env self pn task st2) as [st3 | st3 | code st3]; simpl;
    [| eapply Ended_next; eauto | eapply Ended_next; eauto].
  eapply Ended_next; [eapply Ended_next; eauto | apply save_ended].
Qed.

Lemma execute_tasks_ended pn (ts : list Task) (st : State W) :
  is_Some (status st !! pn) ->
  Ended n st (fst (execute_tasks env self pn ts st)) (snd (execute_tasks env self pn ts st)).
Proof.
  revert st. induction ts as [| task rest IH]; intros st Hk; simpl.
  - apply Ended_refl.
  - pose proof (execute_task_ended pn task st Hk) as Ht.
    destruct (OrchestratorFacts.execute_task_ran env self n cl Hcl Hname pn task st Hk) as [_ Kt].
    destruct (execute_task env self pn task st) as [[| code] st1]; simpl in *.
    + eapply Ended_next; [exact Ht | apply IH, Kt; auto].
    + exact Ht.
Qed.

Lemma execute_phase_ended (phase : Phase) (st : State W) :
  Ended n st (fst (execute_phase env self phase st)) (snd (execute_phase env self phase st)).
Proof.
  unfold execute_phase.
  set (st0 := _save_status env self _).
  assert (H0 : Ended n st Next st0) by apply save_ended.
  assert (Hk : is_Some (status st0 !! name phase)).
  { subst st0. rewrite save_eq. simpl. unfold set_phase_status.
    destruct (OrchestratorFacts.ensure_phase_known (status st) (name phase)) as [e He].
    rewrite lookup_alter_eq, He. simpl. eauto. }
  pose proof (execute_tasks_ended (name phase) (from_option id [] (tasks phase)) st0 Hk) as Ht.
  destruct (OrchestratorFacts.execute_tasks_ran env self n cl Hcl Hname (name phase)
              (from_option id [] (tasks phase)) st0 Hk) as [_ Kt].
  destruct (execute_tasks env self (name phase) (from_option id [] (tasks phase)) st0)
    as [[| code] st1]; simpl in *.
  2: { eapply Ended_next; eauto. }
  assert (H1 : Ended n st Next st1) by (eapply Ended_next; eauto).
  destruct (success_gate phase) as [gate |]; [destruct (_check_success_gate gate) |]; simpl;
    try (eapply Ended_next; [exact H1 | apply save_ended]).
  inversion H1 as [? added Ha Hq | | |]; subst.
  rewrite save_eq. eapply EndedGate with (pre := added) (pn := name phase); [| exact Hq |].
  - simpl. now rewrite Ha, <- app_assoc.
  - simpl. apply OrchestratorFacts.set_phase_status_lookup. now apply (Kt eq_refl).
Qed.

Lemma execute_phases_ended (ps : list Phase) (st : State W) :
  Ended n st (fst (execute_phases env self ps st)) (snd (execute_phases env self ps st)).
Proof.
  revert st. induction ps as [| phase rest IH]; intros st; simpl.
  - apply Ended_refl.
  - pose proof (execute_phase_ended phase st) as Hp.
    destruct (execute_phase env self phase st) as [[| code] st1]; simpl in *.
    + eapply Ended_next; eauto.
    + exact Hp.
Qed.

Lemma execute_checklist_ended (st : State W) :
  exists flow,
    Ended n st flow (snd (execute_checklist env self st)) /\
    fst (execute_checklist env self st) = match flow with Next => 0%Z | Exit c => c end.
Proof.
  unfold execute_checklist. rewrite Hcl.
  pose proof (execute_phases_ended (phases cl) st) as H.
  destruct (execute_phases env self (phases cl) st) as [flow st1]. simpl in H.
  exists flow. now destruct flow.
Qed.

End Loaded.


(** X19.  Whenever blocker resolution raises during the run, the run
    returns 1 at once: nothing is saved or started afterwards and the
    task is left "in_progress" in the status document. *)
Theorem X19_raising_resolution_ends_the_run_in_progress
    {W : Type} (env : Env W) (self : Loaded) (n : string) (cl : Checklist)
    (st : State W) (before after : list Event) (pn td msg : string) :
  current_checklist self = Some cl ->
  checklist_name self = Some n ->
  trace (snd (execute_checklist env self st))
    = trace st ++ before ++ EvResolve pn td (Raise msg) :: after ->
  fst (execute_checklist env self st) = 1%Z /\
  after = [] /\
  task_status (status (snd (execute_checklist env self st))) pn td = Some "in_progress".
Proof.
  intros Hcl Hname Htrace.
  destruct (execute_checklist_ended env self n cl Hcl Hname st) as (flow & He & ->).
  destruct He as [st' added Ht Hq | st' pre ev' pn' td' Ht Hq Hf Hts
                 | st' pre pn' td' msg' Ht Hq Hts | st' pre pn' Ht Hq Hps];
    rewrite Ht in Htrace; apply app_inv_head in Htrace.
  - exfalso. subst added. apply Forall_app in Hq as [_ Hq].
    inversion Hq as [| ? ? Hhd _]; subst. now apply Hhd.
  - exfalso. symmetry in Htrace.
    apply fatal_is_unique in Htrace as (_ & <- & _);
      [| exact Hq | apply calm_save | exact I].
    exact Hf.
  - symmetry in Htrace.
    apply fatal_is_unique in Htrace as (-> & Heq & ->);
      [| exact Hq | constructor | exact I].
    injection Heq as -> -> ->. auto.
  - exfalso. symmetry in Htrace.
    apply fatal_is_unique in Htrace as (_ & Heq & _);
      [| exact Hq | constructor | exact I].
    discriminate Heq.
Qed.

End OrchestratorMore.

(** ** What a run leaves in the status document *)

Module OrchestratorStatus.
Import Orchestrator.
Local Open Scope list_scope.

Lemma save_status_status {W : Type} (env : Env W) (self : Loaded) (st : State W) :
  status (_save_status env self st) = status st.
Proof. unfold _save_status. now destruct (current_checklist self), (checklist_name self). Qed.

(** Writing a task status twice is writing the second one. *)
Lemma set_task_status_twice (doc : gmap string PhaseEntry) (pn td v1 v2 : string) :
  set_task_status pn td v2 (set_task_status pn td v1 doc) = set_task_status pn td v2 doc.
Proof.
  apply map_eq. intros k. unfold set_task_status.
  destruct (decide (pn = k)) as [-> | Hne].
  - rewrite !lookup_alter_eq. destruct (doc !! k) as [e |]; simpl; [| reflexivity].
    now rewrite insert_insert_eq.
  - now rewrite !lookup_alter_ne.
Qed.

Lemma task_status_set_task (doc : gmap string PhaseEntry) (pn td v q td' : string) :
  is_Some (doc !! pn) ->
  task_status (set_task_status pn td v doc) q td' =
    if decide (pn = q /\ td = td') then Some v else task_status doc q td'.
Proof.
  intros [e0 He0]. unfold task_status, set_task_status.
  destruct (decide (pn = q)) as [-> | Hne].
  - rewrite lookup_alter_eq, He0. simpl.
    destruct (decide (td = td')) as [-> | Hne'].
    + rewrite decide_True by auto. apply lookup_insert_eq.
    + rewrite decide_False by tauto. rewrite lookup_insert_ne by done.
      destruct (entry_tasks e0); [reflexivity | apply lookup_empty].
  - rewrite lookup_alter_ne by done. rewrite decide_False by tauto. reflexivity.
Qed.

Lemma phase_status_set_task (doc : gmap string PhaseEntry) (pn td v q : string) :
  phase_status (set_task_status pn td v doc) q = phase_status doc q.
Proof.
  unfold phase_status, set_task_status.
  destruct (decide (pn = q)) as [-> | Hne].
  - rewrite lookup_alter_eq. now destruct (doc !! q).
  - now rewrite lookup_alter_ne.
Qed.

Lemma task_status_set_phase (doc : gmap string PhaseEntry) (pn v q td : string) :
  task_status (set_phase_status pn v doc) q td = task_status doc q td.
Proof.
  unfold task_status, set_phase_status.
  destruct (decide (pn = q)) as [-> | Hne].
  - rewrite lookup_alter_eq. now destruct (doc !! q).
  - now rewrite lookup_alter_ne.
Qed.

Lemma phase_status_set_phase (doc : gmap string PhaseEntry) (pn v q : string) :
  is_Some (doc !! pn) ->
  phase_status (set_phase_status pn v doc) q =
    if decide (pn = q) then Some v else phase_status doc q.
Proof.
  intros [e0 He0]. unfold phase_status, set_phase_status.
  destruct (decide (pn = q)) as [-> | Hne].
  - now rewrite lookup_alter_eq, He0.
  - now rewrite lookup_alter_ne.
Qed.

Lemma task_status_ensure (doc : gmap string PhaseEntry) (pn q td : string) :
  task_status (ensure_phase pn doc) q td = task_status doc q td.
Proof.
  unfold ensure_phase. destruct (doc !! pn) eqn:E; [reflexivity |].
  unfold task_status. destruct (decide (pn = q)) as [-> | Hne].
  - rewrite lookup_insert_eq, E. simpl. apply lookup_empty.
  - now rewrite lookup_insert_ne.
Qed.

Lemma phase_status_ensure_ne (doc : gmap string PhaseEntry) (pn q : string) :
  pn <> q -> phase_status (ensure_phase pn doc) q = phase_status doc q.
Proof.
  intros Hne. unfold ensure_phase. destruct (doc !! pn); [reflexivity |].
  unfold phase_status. now rewrite lookup_insert_ne.
Qed.

Section WithEnv.
Context {W : Type} (env : Env W) (self : Loaded).

Lemma check_blockers_doc pn task (st : State W) :
  match check_blockers env self pn task st with
  | Proceed st' => status st' = status st
  | Continue st' => status st' = set_task_status pn (description task) "blocked" (status st)
  | Return code st' => status st' = status st /\ code = 1%Z
  end.
Proof.
  unfold check_blockers. destruct (from_option id [] (blockers task)) as [| b bs];
    [reflexivity |].
  destruct (BlockerResolver.resolve_blockers env (b :: bs) (world st)) as [[[| u us] | m] w1];
    try reflexivity; [now rewrite save_status_status | now split].
Qed.

Lemma run_command_doc pn task (st : State W) :
  match run_command env self pn task st with
  | Proceed st' => status st' = status st
  | Continue _ => False
  | Return code st' =>
      status st' = set_task_status pn (description task) "failed" (status st) /\ code = 1%Z
  end.
Proof.
  unfold run_command. destruct (command task) as [line |]; [| reflexivity].
  destruct (subprocess_run env (Shell line) (world st)) as [[rc out err | m] w1];
    [destruct (negb (rc =? 0)%Z) |]; try reflexivity; now rewrite save_status_status.
Qed.

Lemma run_validation_doc pn task (st : State W) :
  match run_validation env self pn task st with
  | Proceed st' => status st' = status st
  | Continue _ => False
  | Return code st' =>
      status st' = set_task_status pn (description task) "failed" (status st) /\ code = 1%Z
  end.
Proof.
  unfold run_validation. destruct (validation task) as [v |]; [| reflexivity].
  destruct (subprocess_run env _ (world st)) as [[rc out err | m] w1];
    [destruct (negb (rc =? 0)%Z) |]; try reflexivity; now rewrite save_status_status.
Qed.

(** One task changes one task status, and a task the engine goes on
    from is completed or blocked. *)
Lemma execute_task_doc pn task (st : State W) :
  exists v,
    status (snd (execute_task env self pn task st))
      = set_task_status pn (description task) v (status st) /\
    (fst (execute_task env self pn task st) = Next -> v = "completed" \/ v = "blocked") /\
    (forall code, fst (execute_task env self pn task st) = Exit code -> code = 1%Z).
Proof.
  unfold execute_task.
  set (st0 := _save_status env self _).
  assert (H0 : status st0 = set_task_status pn (description task) "in_progress" (status st)).
  { subst st0. now rewrite save_status_status. }
  clearbody st0.
  pose proof (check_blockers_doc pn task st0) as Hb.
  destruct (check_blockers env self pn task st0) as [st1 | st1 | code st1]; simpl.
  2: { exists "blocked". rewrite Hb, H0, set_task_status_twice.
       split; [reflexivity |]. split; [auto | discriminate]. }
  2: { destruct Hb as [Hb ->]. exists "in_progress". rewrite Hb.
       split; [exact H0 |]. split; [discriminate | intros c Hc; now injection Hc]. }
  rewrite <- Hb in H0. clear Hb st0.
  pose proof (run_command_doc pn task st1) as Hc.
  destruct (run_command env self pn task st1) as [st2 | st2 | code st2]; simpl;
    [| contradiction |].
  2: { destruct Hc as [Hc ->]. exists "failed". rewrite Hc, H0, set_task_status_twice.
       split; [reflexivity |]. split; [discriminate | intros c Hc'; now injection Hc']. }
  rewrite <- Hc in H0. clear Hc st1.
  pose proof (run_validation_doc pn task st2) as Hv.
  destruct (run_validation env self pn task st2) as [st3 | st3 | code st3]; simpl;
    [| contradiction |].
  2: { destruct Hv as [Hv ->]. exists "failed". rewrite Hv, H0, set_task_status_twice.
       split; [reflexivity |]. split; [discriminate | intros c Hc'; now injection Hc']. }
  exists "completed". rewrite save_status_status. simpl.
  rewrite Hv, H0, set_task_status_twice. split; [reflexivity |]. split; [auto | discriminate].
Qed.

Lemma execute_tasks_doc pn (ts : list Task) (st : State W) :
  is_Some (status st !! pn) ->
  is_Some (status (snd (execute_tasks env self pn ts st)) !! pn) /\
  (forall q td, q <> pn \/ ~ In td (map description ts) ->
     task_status (status (snd (execute_tasks env self pn ts st))) q td
     = task_status (status st) q td) /\
  (forall q, phase_status (status (snd (execute_tasks env self pn ts st))) q
             = phase_status (status st) q) /\
  (fst (execute_tasks env self pn ts st) = Next ->
   forall td, In td (map description ts) ->
     settled (task_status (status (snd (execute_tasks env self pn ts st))) pn td)) /\
  (forall code, fst (execute_tasks env self pn ts st) = Exit code -> code = 1%Z).
Proof.
  revert st. induction ts as [| task rest IH]; intros st Hk; simpl.
  - repeat split; auto; [intros _ td [] | discriminate].
  - destruct (execute_task_doc pn task st) as (v & Hdoc & Hv & Hcode).
    assert (Hk1 : is_Some (status (snd (execute_task env self pn task st)) !! pn)).
    { rewrite Hdoc. now apply OrchestratorFacts.set_task_status_known. }
    assert (Hpres : forall q td, q <> pn \/ description task <> td ->
              task_status (status (snd (execute_task env self pn task st))) q td
              = task_status (status st) q td).
    { intros q td Hq. rewrite Hdoc, task_status_set_task by exact Hk.
      rewrite decide_False; [reflexivity |]. intros [H1 H2]. destruct Hq; congruence. }
    assert (Hph : forall q, phase_status (status (snd (execute_task env self pn task st))) q
                            = phase_status (status st) q).
    { intros q. now rewrite Hdoc, phase_status_set_task. }
    destruct (execute_task env self pn task st) as [[| code] st1]; simpl in *.
    + destruct (IH st1 Hk1) as (Hk' & Hp' & Hph' & Hs' & Hc').
      split; [exact Hk' |]. split; [| split; [| split; [| exact Hc']]].
      * intros q td Hq. rewrite Hp', Hpres; [reflexivity | |]; destruct Hq; auto.
      * intros q. now rewrite Hph', Hph.
      * intros Hn td Htd.
        destruct (in_dec String.string_dec td (map description rest)) as [Hin | Hnin].
        -- now apply Hs'.
        -- destruct Htd as [Heq | Htd]; [subst td | contradiction].
           rewrite Hp' by auto. rewrite Hdoc, task_status_set_task by exact Hk.
           rewrite decide_True by auto.
           destruct (Hv eq_refl) as [-> | ->]; [now left | now right].
    + split; [exact Hk1 |]. split; [| split; [exact Hph | split; [discriminate |]]].
      * intros q td Hq. apply Hpres. destruct Hq; auto.
      * intros c Hc. apply Hcode. exact Hc.
Qed.

Lemma execute_phase_doc (phase : Phase) (st : State W) :
  (forall q td, q <> name phase \/ ~ In td (descriptions phase) ->
     task_status (status (snd (execute_phase env self phase st))) q td
     = task_status (status st) q td) /\
  (forall q, q <> name phase ->
     phase_status (status (snd (execute_phase env self phase st))) q
     = phase_status (status st) q) /\
  (fst (execute_phase env self phase st) = Next ->
   Done (name phase) (descriptions phase) (status (snd (execute_phase env self phase st)))) /\
  (forall code, fst (execute_phase env self phase st) = Exit code -> code = 1%Z).
Proof.
  unfold execute_phase, descriptions.
  set (st0 := _save_status env self _).
  assert (H0 : status st0
               = set_phase_status (name phase) "in_progress"
                   (ensure_phase (name phase) (status st))).
  { subst st0. now rewrite save_status_status. }
  assert (Hk : is_Some (status st0 !! name phase)).
  { rewrite H0. unfold set_phase_status.
    destruct (OrchestratorFacts.ensure_phase_known (status st) (name phase)) as [e He].
    rewrite lookup_alter_eq, He. simpl. eauto. }
  assert (T0 : forall q td, task_status (status st0) q td = task_status (status st) q td).
  { intros q td. now rewrite H0, task_status_set_phase, task_status_ensure. }
  assert (P0 : forall q, q <> name phase ->
                 phase_status (status st0) q = phase_status (status st) q).
  { intros q Hq. rewrite H0, phase_status_set_phase
      by apply OrchestratorFacts.ensure_phase_known.
    rewrite decide_False by congruence. apply phase_status_ensure_ne. congruence. }
  clearbody st0.
  destruct (execute_tasks_doc (name phase) (from_option id [] (tasks phase)) st0 Hk)
    as (Hk1 & Hp1 & Hph1 & Hs1 & Hc1).
  destruct (execute_tasks env self (name phase) (from_option id [] (tasks phase)) st0)
    as [[| code] st1]; simpl in *.
  2: { split; [| split; [| split; [discriminate | exact Hc1]]].
       - intros q td Hq. now rewrite Hp1, T0.
       - intros q Hq. now rewrite Hph1, P0. }
  assert (Hfin : forall v (st2 : State W),
            status st2 = set_phase_status (name phase) v (status st1) ->
            (forall q td, q <> name phase \/
                          ~ In td (map description (from_option id [] (tasks phase))) ->
               task_status (status st2) q td = task_status (status st) q td) /\
            (forall q, q <> name phase ->
               phase_status (status st2) q = phase_status (status st) q) /\
            phase_status (status st2) (name phase) = Some v /\
            (forall td, In td (map description (from_option id [] (tasks phase))) ->
               settled (task_status (status st2) (name phase) td))).
  { intros v st2 H2. split; [| split; [| split]].
    - intros q td Hq. now rewrite H2, task_status_set_phase, Hp1, T0.
    - intros q Hq. rewrite H2, phase_status_set_phase by exact Hk1.
      rewrite decide_False by congruence. now rewrite Hph1, P0.
    - rewrite H2, phase_status_set_phase by exact Hk1. now rewrite decide_True.
    - intros td Htd. rewrite H2, task_status_set_phase. now apply Hs1. }
  destruct (success_gate phase) as [gate |]; [destruct (_check_success_gate gate) |]; simpl.
  - destruct (Hfin "completed"
                (_save_status env self (update (set_phase_status (name phase) "completed") st1))
                (save_status_status env self _)) as (A & B & C & D).
    split; [exact A |]. split; [exact B |]. split; [now split | discriminate].
  - destruct (Hfin "failed"
                (_save_status env self (update (set_phase_status (name phase) "failed") st1))
                (save_status_status env self _)) as (A & B & C & D).
    split; [exact A |]. split; [exact B |].
    split; [discriminate | intros c Hc; now injection Hc].
  - destruct (Hfin "completed"
                (_save_status env self (update (set_phase_status (name phase) "completed") st1))
                (save_status_status env self _)) as (A & B & C & D).
    split; [exact A |]. split; [exact B |]. split; [now split | discriminate].
Qed.

(** A phase that ends going on keeps whatever was done before it. *)
Lemma execute_phase_keeps_done (phase : Phase) (st : State W) (q : string) (tds : list string) :
  fst (execute_phase env self phase st) = Next ->
  Done q tds (status st) ->
  Done q tds (status (snd (execute_phase env self phase st))).
Proof.
  intros Hn [Hq Htds]. destruct (execute_phase_doc phase st) as (Ht & Hp & Hd & _).
  destruct (Hd Hn) as [Hq' Htds']. destruct (decide (q = name phase)) as [-> | Hne].
  - split; [exact Hq' |]. intros td Htd.
    destruct (in_dec String.string_dec td (descriptions phase)) as [Hin | Hnin].
    + now apply Htds'.
    + rewrite Ht by auto. now apply Htds.
  - split; [now rewrite Hp |]. intros td Htd. rewrite Ht by auto. now apply Htds.
Qed.

Lemma execute_phases_doc (ps : list Phase) (st : State W) :
  (fst (execute_phases env self ps st) = Next ->
   (forall q tds, Done q tds (status st) ->
                  Done q tds (status (snd (execute_phases env self ps st)))) /\
   (forall phase, In phase ps ->
      Done (name phase) (descriptions phase)
           (status (snd (execute_phases env self ps st))))) /\
  (forall code, fst (execute_phases env self ps st) = Exit code -> code = 1%Z).
Proof.
  revert st. induction ps as [| phase rest IH]; intros st; simpl.
  - split; [intros _; split; [auto | intros ? []] | discriminate].
  - pose proof (execute_phase_keeps_done phase st) as Hkeep.
    destruct (execute_phase_doc phase st) as (_ & _ & Hd & Hc).
    destruct (execute_phase env self phase st) as [[| code] st1]; simpl in *.
    + destruct (IH st1) as [Hnext Hexit]. split; [| exact Hexit].
      intros Hn. destruct (Hnext Hn) as [Hk Hall]. split.
      * intros q tds Hq. apply Hk. now apply Hkeep.
      * intros p [<- | Hp]; [apply Hk; now apply Hd | now apply Hall].
    + split; [discriminate | exact Hc].
Qed.

End WithEnv.

(** X20.  When [execute_checklist] returns 0, every phase of the
    checklist is "completed" in the status document and every task of
    every phase is "completed" or "blocked". *)
Theorem X20_return_zero_leaves_everything_completed_or_blocked
    {W : Type} (env : Env W) (self : Loaded) (cl : Checklist) (st : State W)
    (phase : Phase) :
  current_checklist self = Some cl ->
  fst (execute_checklist env self st) = 0%Z ->
  In phase (phases cl) ->
  phase_status (status (snd (execute_checklist env self st))) (name phase)
    = Some "completed" /\
  (forall task, In task (from_option id [] (tasks phase)) ->
     settled (task_status (status (snd (execute_checklist env self st)))
                (name phase) (description task))).
Proof.
  intros Hcl Hzero Hin. unfold execute_checklist in *. rewrite Hcl in *.
  destruct (execute_phases_doc env self (phases cl) st) as [Hnext Hexit].
  destruct (execute_phases env self (phases cl) st) as [[| code] st1]; simpl in *.
  - destruct (Hnext eq_refl) as [_ Hall]. destruct (Hall phase Hin) as [Hp Ht].
    split; [exact Hp |]. intros task Htask. apply Ht. unfold descriptions.
    now apply in_map.
  - specialize (Hexit code eq_refl). congruence.
Qed.

End OrchestratorStatus.

(** ** What a run does, and in which order *)

Module OrchestratorTrace.
Import Orchestrator.
Local Open Scope list_scope.


Lemma runs_app (a b : list Event) : runs (a ++ b) = runs a ++ runs b.
Proof. unfold runs. apply flat_map_app. Qed.

Section Loaded.
Context {W : Type} (env : Env W) (self : Loaded) (n : string) (cl : Checklist).
Hypothesis Hcl : current_checklist self = Some cl.
Hypothesis Hname : checklist_name self = Some n.







End Loaded.


Section Order.
Context {W : Type} (env : Env W) (self : Loaded).

Lemma Grew_refl (st : State W) : Grew self st st [].
Proof.
  exists []. split; [now rewrite app_nil_r |]. split; [constructor | intros; constructor].
Qed.

Lemma Grew_app (st st1 st2 : State W) (r1 r2 : list (string * string * Cmd)) :
  Grew self st st1 r1 -> Grew self st1 st2 r2 -> Grew self st st2 (r1 ++ r2).
Proof.
  intros (a1 & T1 & S1 & P1) (a2 & T2 & S2 & P2). exists (a1 ++ a2).
  split; [now rewrite T2, T1, app_assoc |]. split.
  - rewrite runs_app. now apply sublist_app.
  - intros n Hn. apply Forall_app. split; [now apply P1 | now apply P2].
Qed.

Lemma Grew_weaken (st st' : State W) (r r' : list (string * string * Cmd)) :
  sublist r r' -> Grew self st st' r -> Grew self st st' r'.
Proof.
  intros Hs (a & T & S & P). exists a. split; [exact T |]. split; [| exact P].
  now transitivity r.
Qed.

Lemma Grew_save (f : gmap string PhaseEntry -> gmap string PhaseEntry) (st : State W) :
  Grew self st (_save_status env self (update f st)) [].
Proof.
  unfold _save_status. destruct (current_checklist self) as [cl |].
  2: { exists []. split; [simpl; now rewrite app_nil_r |].
       split; [constructor | intros; constructor]. }
  destruct (checklist_name self) as [n |] eqn:E.
  2: { exists []. split; [simpl; now rewrite app_nil_r |].
       split; [constructor | intros; constructor]. }
  eexists. split; [reflexivity |]. split; [constructor |].
  intros n' Hn'. rewrite E in Hn'. injection Hn' as <-. repeat constructor.
Qed.

Lemma Grew_emit (ev : Event) (w : W) (st : State W) :
  (forall path doc, ev <> EvSave path doc) ->
  Grew self st (emit ev w st) (runs [ev]).
Proof.
  intros Hev. exists [ev]. split; [reflexivity |]. split; [reflexivity |].
  intros n _. repeat constructor. destruct ev; auto. now destruct (Hev path doc).
Qed.

Lemma Grew_resolve pn td r (w : W) (st : State W) :
  Grew self st (emit (EvResolve pn td r) w st) [].
Proof. apply (Grew_emit (EvResolve pn td r)). discriminate. Qed.

Lemma check_blockers_grew pn task (st : State W) :
  match check_blockers env self pn task st with
  | Proceed st' | Continue st' | Return _ st' => Grew self st st' []
  end.
Proof.
  unfold check_blockers. destruct (from_option id [] (blockers task)) as [| b bs];
    [apply Grew_refl |].
  destruct (BlockerResolver.resolve_blockers env (b :: bs) (world st)) as [[[| u us] | m] w1].
  - apply Grew_resolve.
  - eapply (Grew_app _ _ _ [] []); [apply Grew_resolve | apply Grew_save].
  - apply Grew_resolve.
Qed.

Lemma run_command_grew pn task (st : State W) :
  match run_command env self pn task st with
  | Proceed st' | Continue st' | Return _ st' =>
      Grew self st st'
        match command task with
        | Some line => [(pn, description task, Shell line)]
        | None => []
        end
  end.
Proof.
  unfold run_command. destruct (command task) as [line |]; [| apply Grew_refl].
  destruct (subprocess_run env (Shell line) (world st)) as [outcome w1].
  assert (He : Grew self st (emit (EvCommand pn (description task) line outcome) w1 st)
                 [(pn, description task, Shell line)])
    by (apply (Grew_emit (EvCommand pn (description task) line outcome)); discriminate).
  assert (Hf : Grew self st
                 (_save_status env self
                    (update (set_task_status pn (description task) "failed")
                       (emit (EvCommand pn (description task) line outcome) w1 st)))
                 [(pn, description task, Shell line)]).
  { change [(pn, description task, Shell line)]
      with ([(pn, description task, Shell line)] ++ []).
    eapply Grew_app; [exact He | apply Grew_save]. }
  destruct outcome as [rc out err | m]; [destruct (negb (rc =? 0)%Z) |]; assumption.
Qed.

Lemma run_validation_grew pn task (st : State W) :
  match run_validation env self pn task st with
  | Proceed st' | Continue st' | Return _ st' =>
      Grew self st st'
        match validation task with
        | Some v => [(pn, description task, Argv ["python"; script v])]
        | None => []
        end
  end.
Proof.
  unfold run_validation. destruct (validation task) as [v |]; [| apply Grew_refl].
  destruct (subprocess_run env _ (world st)) as [outcome w1].
  assert (He : Grew self st
                 (emit (EvValidation pn (description task) (script v) outcome) w1 st)
                 [(pn, description task, Argv ["python"; script v])])
    by (apply (Grew_emit (EvValidation pn (description task) (script v) outcome));
        discriminate).
  assert (Hf : Grew self st
                 (_save_status env self
                    (update (set_task_status pn (description task) "failed")
                       (emit (EvValidation pn (description task) (script v) outcome) w1 st)))
                 [(pn, description task, Argv ["python"; script v])]).
  { change [(pn, description task, Argv ["python"; script v])]
      with ([(pn, description task, Argv ["python"; script v])] ++ []).
    eapply Grew_app; [exact He | apply Grew_save]. }
  destruct outcome as [rc out err | m]; [destruct (negb (rc =? 0)%Z) |]; assumption.
Qed.

Lemma execute_task_grew pn task (st : State W) :
  Grew self st (snd (execute_task env self pn task st)) (task_runs pn task).
Proof.
  unfold execute_task, task_runs.
  set (st0 := _save_status env self _).
  assert (H0 : Grew self st st0 []) by apply Grew_save. clearbody st0.
  pose proof (check_blockers_grew pn task st0) as Hb.
  set (rc := match command task with Some _ => _ | None => _ end).
  set (rv := match validation task with Some _ => _ | None => _ end).
  assert (Hnil : forall st', Grew self st0 st' [] -> Grew self st st' (rc ++ rv)).
  { intros st' H. eapply Grew_weaken; [apply sublist_nil_l |].
    eapply (Grew_app _ _ _ [] []); eauto. }
  destruct (check_blockers env self pn task st0) as [st1 | st1 | c st1]; simpl;
    [| now apply Hnil | now apply Hnil].
  assert (H1 : Grew self st st1 []) by (eapply (Grew_app _ _ _ [] []); eauto).
  clear H0 Hb Hnil st0.
  pose proof (run_command_grew pn task st1) as Hc. fold rc in Hc.
  assert (Hcmd : forall st', Grew self st1 st' rc -> Grew self st st' (rc ++ rv)).
  { intros st' H. eapply Grew_weaken; [| eapply (Grew_app _ _ _ [] rc); eauto].
    simpl. apply sublist_inserts_r. reflexivity. }
  destruct (run_command env self pn task st1) as [st2 | st2 | c st2]; simpl;
    [| now apply Hcmd | now apply Hcmd].
  assert (H2 : Grew self st st2 rc) by (eapply (Grew_app _ _ _ [] rc); eauto).
  clear H1 Hc Hcmd st1.
  pose proof (run_validation_grew pn task st2) as Hv. fold rv in Hv.
  destruct (run_validation env self pn task st2) as [st3 | st3 | c st3]; simpl;
    [| eapply Grew_app; eauto | eapply Grew_app; eauto].
  rewrite <- (app_nil_r (rc ++ rv)).
  eapply Grew_app; [eapply Grew_app; eauto | apply Grew_save].
Qed.

Lemma execute_tasks_grew pn (ts : list Task) (st : State W) :
  Grew self st (snd (execute_tasks env self pn ts st)) (flat_map (task_runs pn) ts).
Proof.
  revert st. induction ts as [| task rest IH]; intros st; simpl; [apply Grew_refl |].
  pose proof (execute_task_grew pn task st) as Ht.
  destruct (execute_task env self pn task st) as [[| c] st1]; simpl in *.
  - eapply Grew_app; eauto.
  - eapply Grew_weaken; [| exact Ht]. apply sublist_inserts_r. reflexivity.
Qed.

Lemma execute_phase_grew (phase : Phase) (st : State W) :
  Grew self st (snd (execute_phase env self phase st)) (phase_runs phase).
Proof.
  unfold execute_phase, phase_runs.
  set (st0 := _save_status env self _).
  assert (H0 : Grew self st st0 []) by apply Grew_save. clearbody st0.
  pose proof (execute_tasks_grew (name phase) (from_option id [] (tasks phase)) st0) as Ht.
  destruct (execute_tasks env self (name phase) (from_option id [] (tasks phase)) st0)
    as [[| c] st1]; simpl in *.
  2: { eapply (Grew_app _ _ _ []); eauto. }
  assert (H1 : Grew self st st1 (flat_map (task_runs (name phase))
                                          (from_option id [] (tasks phase))))
    by (eapply (Grew_app _ _ _ []); eauto).
  destruct (success_gate phase) as [gate |]; [destruct (_check_success_gate gate) |]; simpl;
    (rewrite <- (app_nil_r (flat_map _ _)); eapply Grew_app; [exact H1 | apply Grew_save]).
Qed.

Lemma execute_phases_grew (ps : list Phase) (st : State W) :
  Grew self st (snd (execute_phases env self ps st)) (declared_runs ps).
Proof.
  revert st. induction ps as [| phase rest IH]; intros st; simpl; [apply Grew_refl |].
  pose proof (execute_phase_grew phase st) as Hp.
  destruct (execute_phase env self phase st) as [[| c] st1]; simpl in *.
  - eapply Grew_app; eauto.
  - eapply Grew_weaken; [| exact Hp]. apply sublist_inserts_r. reflexivity.
Qed.

End Order.

(** X23.  A run starts no process the checklist does not declare, and
    starts the declared ones in the order of the checklist: the commands
    and validation scripts started are, in order, a selection from the
    list of those the phases and tasks declare.  Every save of the run
    goes to the status file of the loaded checklist. *)
Theorem X23_run_starts_only_declared_processes_in_order
    {W : Type} (env : Env W) (self : Loaded) (n : string) (cl : Checklist) (st : State W) :
  current_checklist self = Some cl ->
  checklist_name self = Some n ->
  exists added,
    trace (snd (execute_checklist env self st)) = trace st ++ added /\
    sublist (runs added) (declared_runs (phases cl)) /\
    saves_only_to n added.
Proof.
  intros Hcl Hname. unfold execute_checklist. rewrite Hcl.
  destruct (execute_phases_grew env self (phases cl) st) as (added & T & S & P).
  exists added. destruct (execute_phases env self (phases cl) st) as [[| c] st1]; auto.
Qed.

(** X24.  When blocker resolution leaves a blocker of a task unresolved,
    the engine starts neither the command nor the validation script of
    that task: nothing it does for the task starts a process. *)
Theorem X24_unresolved_blocker_starts_no_process
    {W : Type} (env : Env W) (self : Loaded) (pn : string) (task : Task) (st : State W)
    (bs : list Blocker) (u : Blocker) (us : list Blocker) (w1 : W) :
  blockers task = Some bs ->
  BlockerResolver.resolve_blockers env bs
    (world (_save_status env self
              (update (set_task_status pn (description task) "in_progress") st)))
  = (Ok (u :: us), w1) ->
  exists added,
    trace (snd (execute_task env self pn task st)) = trace st ++ added /\
    In (EvResolve pn (description task) (Ok (u :: us))) added /\
    runs added = [].
Proof.
  intros Hb Hres.
  assert (Hbs : bs <> []) by (intros ->; discriminate Hres).
  destruct bs as [| b bs']; [congruence |].
  unfold execute_task, check_blockers. rewrite Hb. cbn [from_option id].
  rewrite Hres. cbn [fst snd].
  unfold _save_status.
  destruct (current_checklist self), (checklist_name self); cbn [trace update emit];
    eexists; (split; [rewrite <- ?app_assoc; reflexivity |]); (split; [| reflexivity]);
    simpl; auto.
Qed.

End OrchestratorTrace.

(** ** Loading a checklist *)

Module OrchestratorLoad.
Import Orchestrator.
Local Open Scope list_scope.

Lemma initial_tasks_lookup (ts : list Task) (acc : gmap string string) (td : string) :
  fold_left (fun m task => <[description task := "not_started"]> m) ts acc !! td =
    if in_dec String.string_dec td (map description ts)
    then Some "not_started" else acc !! td.
Proof.
  revert acc. induction ts as [| t rest IH]; intros acc; simpl; [reflexivity |].
  rewrite IH. destruct (in_dec String.string_dec td (map description rest)) as [Hin | Hnin].
  - destruct (String.string_dec (description t) td); reflexivity.
  - destruct (String.string_dec (description t) td) as [<- | Hne].
    + apply lookup_insert_eq.
    + now apply lookup_insert_ne.
Qed.

(** The entry of a phase name is the entry made for the last phase of
    that name. *)
Lemma initial_status_lookup (ps : list Phase) (acc : gmap string PhaseEntry) (pn : string) :
  (~ In pn (map name ps) /\
   fold_left (fun m phase => <[name phase := initial_entry phase]> m) ps acc !! pn
   = acc !! pn) \/
  (exists before phase after,
     ps = before ++ phase :: after /\ name phase = pn /\ ~ In pn (map name after) /\
     fold_left (fun m phase => <[name phase := initial_entry phase]> m) ps acc !! pn
     = Some (initial_entry phase)).
Proof.
  revert acc. induction ps as [| p rest IH]; intros acc; simpl.
  - left. tauto.
  - destruct (IH (<[name p := initial_entry p]> acc)) as [[Hnin Hl] | (b & ph & a & -> & Hn & Ha & Hl)].
    + destruct (decide (name p = pn)) as [Heq | Hne].
      * right. exists [], p, rest. repeat split; auto.
        rewrite Hl, Heq. now rewrite lookup_insert_eq.
      * left. split; [tauto |]. rewrite Hl. now apply lookup_insert_ne.
    + right. exists (p :: b), ph, a. repeat split; auto.
Qed.

Lemma initial_phase_status (ps : list Phase) (pn : string) :
  phase_status (initial_status ps) pn =
    if in_dec String.string_dec pn (map name ps) then Some "not_started" else None.
Proof.
  unfold phase_status, initial_status.
  destruct (initial_status_lookup ps ∅ pn) as [[Hnin ->] | (b & ph & a & -> & Hn & Ha & ->)].
  - destruct (in_dec _ _ _); [contradiction | reflexivity].
  - destruct (in_dec _ _ _) as [Hin | Hnin]; [reflexivity |].
    exfalso. apply Hnin. rewrite map_app. apply in_or_app. right. now left.
Qed.

Lemma initial_task_status (ps : list Phase) (pn td s : string) :
  task_status (initial_status ps) pn td = Some s ->
  s = "not_started" /\
  exists phase task,
    In phase ps /\ In task (from_option id [] (tasks phase)) /\
    name phase = pn /\ description task = td.
Proof.
  unfold task_status, initial_status.
  destruct (initial_status_lookup ps ∅ pn) as [[Hnin ->] | (b & ph & a & -> & Hn & Ha & ->)].
  - rewrite lookup_empty. discriminate.
  - simpl. unfold initial_tasks. rewrite initial_tasks_lookup, lookup_empty.
    destruct (in_dec _ _ _) as [Hin | Hnin]; [| discriminate].
    intros H. injection H as <-. split; [reflexivity |].
    apply in_map_iff in Hin as (t & Ht & Hin). exists ph, t.
    repeat split; auto. apply in_or_app. right. now left.
Qed.

Lemma initial_task_status_nodup (ps : list Phase) (phase : Phase) (task : Task) :
  NoDup (map name ps) -> In phase ps -> In task (from_option id [] (tasks phase)) ->
  task_status (initial_status ps) (name phase) (description task) = Some "not_started".
Proof.
  intros Hnd Hp Ht. unfold task_status, initial_status.
  destruct (initial_status_lookup ps ∅ (name phase))
    as [[Hnin _] | (b & ph & a & Hps & Hn & Ha & ->)].
  - exfalso. apply Hnin. now apply in_map.
  - assert (ph = phase) as ->.
    { subst ps. rewrite map_app in Hnd. simpl in Hnd.
      apply NoDup_ListNoDup in Hnd.
      apply in_app_or in Hp as [Hp | [Hp | Hp]]; [| now symmetry |].
      - exfalso. apply List.NoDup_remove_2 in Hnd. apply Hnd. apply in_or_app. left.
        rewrite Hn. now apply in_map.
      - exfalso. apply Ha. rewrite <- Hn in *. rewrite Hn. now apply in_map. }
    simpl. unfold initial_tasks. rewrite initial_tasks_lookup.
    destruct (in_dec _ _ _) as [Hin | Hnin]; [reflexivity |].
    exfalso. apply Hnin. now apply in_map.
Qed.

(** A load that raises has saved nothing and leaves the state as it was. *)
Lemma failed_load_keeps_the_state {W : Type} (env : Env W) (files : Files W)
    (dir checklist : string) (self self' : Loaded) (st st' : State W) (msg : string) :
  load_checklist env files dir checklist self st = (Raise msg, self', st') -> st' = st.
Proof.
  unfold load_checklist.
  destruct (read_checklist files (world st) dir checklist) as [| m | data].
  - intros H. now injection H.
  - intros H. now injection H.
  - destruct (raw_checklist data) as [section |]; [| intros H; now injection H].
    destruct (raw_phases section) as [ps |]; [| intros H; now injection H].
    destruct (read_status files (world st) (status_path checklist)) as [| m | doc];
      try discriminate.
    intros H. now injection H.
Qed.

(** X25.  A load that fails on the checklist file -- the file is missing
    or cannot be decoded, or it has no ["checklist"] or no ["phases"]
    key -- raises, keeps the checklist held so far and leaves the status
    document, the trace and the world as they were, but it has already
    overwritten [checklist_name]. *)
Theorem X25_failed_load_keeps_the_checklist_but_takes_the_name
    {W : Type} (env : Env W) (files : Files W) (dir checklist : string) (self : Loaded)
    (st : State W) :
  read_checklist files (world st) dir checklist = ChecklistMissing \/
  (exists msg, read_checklist files (world st) dir checklist = ChecklistUndecodable msg) \/
  (exists data,
     read_checklist files (world st) dir checklist = ChecklistDecoded data /\
     (raw_checklist data = None \/
      exists section, raw_checklist data = Some section /\ raw_phases section = None)) ->
  exists msg,
    load_checklist env files dir checklist self st =
      (Raise msg,
       {| current_checklist := current_checklist self; checklist_name := Some checklist |},
       st).
Proof.
  unfold load_checklist.
  intros [-> | [[msg ->] | (data & -> & [-> | (section & -> & ->)])]]; eauto.
Qed.

(** X27.  A load that finds a well-formed checklist and no status file
    makes a status document in which exactly the phases of the checklist
    have an entry, every recorded status is "not_started" and every
    recorded task is a task of the checklist; it saves that document
    once and starts nothing.  With phase names that are all different,
    every task of every phase is recorded. *)
Theorem X27_fresh_load_records_everything_as_not_started
    {W : Type} (env : Env W) (files : Files W) (dir checklist : string) (self : Loaded)
    (st : State W)
    (data : RawChecklist) (section : RawSection) (ps : list Phase) :
  read_checklist files (world st) dir checklist = ChecklistDecoded data ->
  raw_checklist data = Some section ->
  raw_phases section = Some ps ->
  read_status files (world st) (status_path checklist) = StatusMissing ->
  exists self' st',
    load_checklist env files dir checklist self st = (Ok (), self', st') /\
    current_checklist self'
      = Some {| checklist_title := raw_name section; phases := ps |} /\
    checklist_name self' = Some checklist /\
    world st' = snd (dump_status env (status_path checklist) (status st') (world st)) /\
    trace st' = trace st ++ [EvSave (status_path checklist) (status st')] /\
    (forall pn, phase_status (status st') pn =
                  if in_dec String.string_dec pn (map name ps)
                  then Some "not_started" else None) /\
    (forall pn td s, task_status (status st') pn td = Some s ->
       s = "not_started" /\
       exists phase task,
         In phase ps /\ In task (from_option id [] (tasks phase)) /\
         name phase = pn /\ description task = td) /\
    (NoDup (map name ps) ->
     forall phase task, In phase ps -> In task (from_option id [] (tasks phase)) ->
       task_status (status st') (name phase) (description task) = Some "not_started").
Proof.
  intros Hread Hsec Hps Hstat. unfold load_checklist. rewrite Hread, Hsec, Hps, Hstat.
  eexists _, _. split; [reflexivity |]. unfold _save_status. simpl.
  repeat split; auto using initial_phase_status, initial_task_status_nodup;
    try (now apply (initial_task_status ps pn td s));
    destruct (initial_task_status ps pn td s H) as [? ?]; assumption.
Qed.

(** X26.  When a load raises because the checklist file is missing, an
    orchestrator that held a checklist still holds it and can still run
    it, but every save of that run goes to the status file named after
    the checklist that could not be loaded. *)
Theorem X26_after_a_failed_load_saves_go_to_the_other_file
    {W : Type} (env : Env W) (files : Files W) (dir other : string) (self : Loaded)
    (cl : Checklist) (st : State W) :
  current_checklist self = Some cl ->
  read_checklist files (world st) dir other = ChecklistMissing ->
  exists self',
    load_checklist env files dir other self st
      = (Raise ("Checklist " +:+ other +:+ " not found"), self', st) /\
    current_checklist self' = Some cl /\
    exists added,
      trace (snd (execute_checklist env self' st)) = trace st ++ added /\
      sublist (runs added) (declared_runs (phases cl)) /\
      saves_only_to other added.
Proof.
  intros Hcl Hread. unfold load_checklist. rewrite Hread.
  eexists. split; [reflexivity |]. split; [exact Hcl |].
  unfold execute_checklist. simpl. rewrite Hcl.
  destruct (OrchestratorTrace.execute_phases_grew env
              {| current_checklist := current_checklist self; checklist_name := Some other |}
              (phases cl) st) as (added & T & S & P).
  exists added. rewrite <- Hcl.
  destruct (execute_phases env _ (phases cl) st) as [[| c] st1]; auto.
Qed.

(** X28.  Whenever [load_checklist] raises, [main] returns 1 in either
    mode and prints the error; nothing is started and nothing is saved,
    so that the state is still the one the freshly constructed
    orchestrator had.  In particular, a status file that cannot be
    decoded keeps a checklist from being run or displayed. *)
Theorem X28_main_returns_1_when_the_load_raises
    {W : Type} (env : Env W) (files : Files W) (checklist : string) (status_flag : bool)
    (w : W) :
  let st := {| world := w; status := ∅; trace := [] |} in
  (forall msg self' st',
     load_checklist env files ".checklists" checklist fresh st = (Raise msg, self', st') ->
     main env files checklist status_flag w =
       {| returned := Some 1%Z; printed := Some ("Error: " +:+ msg); final := st |}) /\
  (forall data section ps msg,
     read_checklist files w ".checklists" checklist = ChecklistDecoded data ->
     raw_checklist data = Some section ->
     raw_phases section = Some ps ->
     read_status files w (status_path checklist) = StatusUndecodable msg ->
     main env files checklist status_flag w =
       {| returned := Some 1%Z; printed := Some ("Error: " +:+ msg); final := st |}).
Proof.
  intros st.
  assert (Hgen : forall msg self' st',
            load_checklist env files ".checklists" checklist fresh st = (Raise msg, self', st') ->
            main env files checklist status_flag w =
              {| returned := Some 1%Z; printed := Some ("Error: " +:+ msg); final := st |}).
  { intros msg self' st' Hload.
    pose proof (failed_load_keeps_the_state _ _ _ _ _ _ _ _ _ Hload) as ->.
    unfold main. fold st. now rewrite Hload. }
  split; [exact Hgen |].
  intros data section ps msg Hread Hsec Hps Hstat.
  eapply Hgen. unfold load_checklist. cbn [world st].
  rewrite Hread, Hsec, Hps, Hstat. reflexivity.
Qed.

Lemma join_lines_cons (line : string) (l : string) (rest : list string) :
  join_lines (line :: l :: rest) = line +:+ newline +:+ join_lines (l :: rest).
Proof. reflexivity. Qed.

(** Every line is somewhere in the joined text. *)
Lemma join_lines_in (line : string) (lines : list string) :
  In line lines -> exists pre post, join_lines lines = pre +:+ line +:+ post.
Proof.
  induction lines as [| l rest IH]; [intros [] |].
  destruct rest as [| l' rest].
  - intros [<- | []]. exists EmptyString, EmptyString. simpl.
    now rewrite StatusStoreFacts.append_empty_r.
  - rewrite join_lines_cons. intros [<- | Hin].
    + exists EmptyString. eexists. reflexivity.
    + destruct (IH Hin) as (pre & post & ->).
      exists (l +:+ newline +:+ pre), post.
      now rewrite !BlockerResolverMore.append_assoc.
Qed.

Lemma gate_line_raises (gate : Gate) :
  (exists msg, gate_line gate = Raise msg) <-> incomplete gate.
Proof.
  destruct gate as [g | v]; simpl.
  - destruct (metric g) as [m |], (min_value g) as [v |]; split;
      try (intros _; eauto; fail); try (intros [msg H]; discriminate H);
      intros [H | H]; discriminate H.
  - split; [auto | eauto].
Qed.

Lemma phase_lines_raises (doc : gmap string PhaseEntry) (phase : Phase) :
  (exists msg, phase_lines doc phase = Raise msg) <->
  (exists gate, success_gate phase = Some gate /\ incomplete gate).
Proof.
  unfold phase_lines. destruct (success_gate phase) as [gate |].
  - pose proof (gate_line_raises gate) as Hg.
    destruct (gate_line gate) as [line | m].
    + split; [intros [msg H]; discriminate H |].
      intros (g & H & Hbad). injection H as <-.
      destruct (proj2 Hg Hbad) as [msg H]. discriminate H.
    + split; [intros _; exists gate; split; [reflexivity | apply Hg; eauto] | eauto].
  - split; [intros [msg H]; discriminate H | intros (g & H & _); discriminate H].
Qed.

Lemma all_phase_lines_raises (doc : gmap string PhaseEntry) (ps : list Phase) :
  (exists msg, all_phase_lines doc ps = Raise msg) <->
  (exists phase gate, In phase ps /\ success_gate phase = Some gate /\ incomplete gate).
Proof.
  induction ps as [| p rest IH]; simpl.
  - split; [intros [msg H]; discriminate H | intros (ph & g & [] & _)].
  - pose proof (phase_lines_raises doc p) as Hp.
    destruct (phase_lines doc p) as [lines | m].
    + destruct (all_phase_lines doc rest) as [more | m'].
      * split; [intros [msg H]; discriminate H |].
        intros (ph & g & [<- | Hin] & Hg & Hbad).
        -- destruct (proj2 Hp (ex_intro _ g (conj Hg Hbad))) as [msg H]. discriminate H.
        -- destruct (proj2 IH) as [msg H]; [eauto | discriminate H].
      * split; [intros _ | eauto].
        destruct (proj1 IH) as (ph & g & Hin & Hg & Hbad); eauto 8.
    + split; [intros _ | eauto].
      destruct (proj1 Hp) as (g & Hg & Hbad); eauto 8.
Qed.

Lemma all_phase_lines_in (doc : gmap string PhaseEntry) (ps : list Phase)
    (lines : list string) (phase : Phase) :
  all_phase_lines doc ps = Ok lines ->
  In phase ps ->
  In (phase_line doc phase) lines /\
  (forall task, In task (from_option id [] (tasks phase)) ->
     In (task_line doc (name phase) task) lines).
Proof.
  revert lines. induction ps as [| p rest IH]; intros lines Hl Hin; [destruct Hin |].
  simpl in Hl. destruct (phase_lines doc p) as [pl | m] eqn:Hp; [| discriminate].
  destruct (all_phase_lines doc rest) as [more | m]; [| discriminate].
  injection Hl as <-. destruct Hin as [-> | Hin].
  - assert (Hpl : In (phase_line doc phase) pl /\
                  forall task, In task (from_option id [] (tasks phase)) ->
                    In (task_line doc (name phase) task) pl).
    { unfold phase_lines in Hp.
      assert (Hbody : forall task, In task (from_option id [] (tasks phase)) ->
                In (task_line doc (name phase) task)
                   (map (task_line doc (name phase)) (from_option id [] (tasks phase))
                      ++ [EmptyString])).
      { intros task Ht. apply in_or_app. left. now apply in_map. }
      destruct (success_gate phase) as [gate |].
      - destruct (gate_line gate) as [gl | m]; [| discriminate]. injection Hp as <-.
        split; [now left |]. intros task Ht. right. right. now apply Hbody.
      - injection Hp as <-. split; [now left |]. intros task Ht. right. now apply Hbody. }
    destruct Hpl as [H1 H2]. split; [apply in_or_app; now left |].
    intros task Ht. apply in_or_app. left. now apply H2.
  - destruct (IH more eq_refl Hin) as [H1 H2]. split; [apply in_or_app; now right |].
    intros task Ht. apply in_or_app. right. now apply H2.
Qed.

(** X29.  [display_status] raises, and gives no report, for a checklist
    without a name and for a checklist in which some phase has a success
    gate that is not an object or lacks its metric or its minimum value,
    whatever the status document holds.  [_check_success_gate] lets an
    object pass whichever of the two it lacks, so a checklist that runs
    to the end may be one that cannot be displayed. *)
Theorem X29_display_status_raises_on_an_incomplete_checklist
    (self : Loaded) (cl : Checklist) (doc : gmap string PhaseEntry) :
  current_checklist self = Some cl ->
  checklist_title cl = None \/
  (exists phase gate,
     In phase (phases cl) /\ success_gate phase = Some gate /\ incomplete gate) ->
  (exists msg, display_status self doc = Raise msg) /\
  (forall gate : SuccessGate, _check_success_gate gate = true).
Proof.
  intros Hcl Hbad. split.
  - unfold display_status. rewrite Hcl.
    destruct (checklist_title cl) as [title |]; [| eauto].
    destruct Hbad as [Hbad | Hbad]; [discriminate Hbad |].
    apply (all_phase_lines_raises doc) in Hbad as [msg ->]. eauto.
  - intros gate. apply OrchestratorFacts.check_success_gate_always.
Qed.

(** X30.  When [display_status] returns a report, the report has a line
    for every phase and for every task of the checklist, showing the
    recorded status, and "not_started" with the white mark for a task
    the status document does not know. *)
Theorem X30_display_status_lists_every_phase_and_task
    (self : Loaded) (cl : Checklist) (doc : gmap string PhaseEntry) (text : string)
    (phase : Phase) :
  current_checklist self = Some cl ->
  display_status self doc = Ok text ->
  In phase (phases cl) ->
  (exists pre post, text = pre +:+ phase_line doc phase +:+ post) /\
  (forall task, In task (from_option id [] (tasks phase)) ->
     (exists pre post, text = pre +:+ task_line doc (name phase) task +:+ post) /\
     (task_status doc (name phase) (description task) = None ->
      task_line doc (name phase) task
      = "   ⚪ " +:+ description task +:+ " [not_started]")).
Proof.
  intros Hcl Hd Hin. unfold display_status in Hd. rewrite Hcl in Hd.
  destruct (checklist_title cl) as [title |]; [| discriminate].
  destruct (all_phase_lines doc (phases cl)) as [lines | m] eqn:Hl; [| discriminate].
  assert (Ht : text = join_lines
                        (("📋 Checklist: " +:+ title) :: rule :: EmptyString :: lines))
    by (injection Hd as <-; reflexivity).
  rewrite Ht. clear Hd Ht.
  destruct (all_phase_lines_in doc _ _ phase Hl Hin) as [H1 H2].
  split.
  - apply join_lines_in. right. right. now right.
  - intros task Ht. split.
    + apply join_lines_in. right. right. right. now apply H2.
    + intros Hnone. unfold task_line. now rewrite Hnone.
Qed.

End OrchestratorLoad.

(** ** The properties on concrete inputs *)

Module Examples.
Import Orchestrator Cases MoreCases.
Local Open Scope list_scope.

Lemma X1_unresolved_blockers_are_a_sublist_witness :
  sublist [C3_blocker] [C3_blocker].
Proof.
  exact (BlockerResolverMore.X1_unresolved_blockers_are_a_sublist
           (Scenario.env C3_script) [C3_blocker] [C3_blocker] () () eq_refl).
Defined.

Lemma X3_static_blockers_are_filtered_by_experts_witness :
  BlockerResolver.resolve_blockers (Scenario.env C3_script) static_blockers ()
  = (Ok (List.filter BlockerResolver.requires_experts static_blockers), ()).
Proof.
  apply BlockerResolverMore.X3_static_blockers_are_filtered_by_experts.
  repeat constructor; (left; reflexivity) || (right; reflexivity).
Defined.

Lemma X5_resolve_blockers_stops_at_an_exception_witness :
  BlockerResolver.resolve_blockers (Scenario.env raising_script)
    ([C3_blocker] ++ C10_blocker :: [C3_blocker]) ()
  = (Raise "connection reset", ()).
Proof.
  exact (BlockerResolverMore.X5_resolve_blockers_stops_at_an_exception
           (Scenario.env raising_script) [C3_blocker] [C3_blocker] C10_blocker
           () () () [C3_blocker] "connection reset" eq_refl eq_refl).
Defined.

Lemma X6_diagnostic_faults_leave_unresolved_witness :
  BlockerResolver._check_if_resolved (Scenario.env number_script) number_blocker ()
  = (Ok false, ()).
Proof.
  refine (proj2 (BlockerResolverMore.X6_diagnostic_faults_leave_unresolved
                   (Scenario.env number_script) number_blocker number_resolution
                   "echo 123" () () eq_refl eq_refl)
                "123" EmptyString (PyInt 123) eq_refl eq_refl _).
  discriminate.
Defined.

Lemma X7_resolving_answers_resolve_inside_longer_answers_witness :
  BlockerResolver._check_if_resolved (Scenario.env C10_script) C10_blocker ()
  = (Ok true, ()).
Proof.
  refine (proj2 (BlockerResolverMore.X7_resolving_answers_resolve_inside_longer_answers
                   (Scenario.env C10_script) C10_blocker prompt_resolution
                   "Test prompt" "unresolved" () () () eq_refl eq_refl eq_refl _ eq_refl)
                "resolved" "un" EmptyString eq_refl eq_refl).
  discriminate.
Defined.

Lemma X9_success_exactly_when_script_and_artifacts_agree_witness :
  TransitionValidator.status
    (fst (TransitionValidator.validate_task (Scenario.env C8_script)
            "transition_artifacts" sample_task "test_phase" ()))
  = TransitionValidator.SUCCESS.
Proof.
  apply (proj2 (TransitionValidatorMore.X9_success_exactly_when_script_and_artifacts_agree
                  (Scenario.env C8_script) "transition_artifacts" sample_task
                  sample_validation "test_phase" () () 0
                  (Scenario.status_json "success") EmptyString eq_refl eq_refl)).
  split; [reflexivity |]. split.
  - exists [("status", PyStr "success")]. split; reflexivity.
  - intros a [<- | [<- | []]]; eexists; reflexivity.
Defined.

Lemma X10_success_returns_exactly_the_expected_artifacts_witness :
  TransitionValidator.artifacts
    (fst (TransitionValidator.validate_task (Scenario.env C8_script)
            "transition_artifacts" sample_task "test_phase" ())) !! "README.md"
  = None.
Proof.
  refine (proj2 (TransitionValidatorMore.X10_success_returns_exactly_the_expected_artifacts
                   (Scenario.env C8_script) "transition_artifacts" sample_task
                   sample_validation "test_phase" () eq_refl eq_refl) "README.md" _).
  intros [H | [H | []]]; discriminate H.
Defined.

Lemma X11_first_missing_artifact_fails_with_partial_map_witness :
  TransitionValidator.status
    (fst (TransitionValidator.validate_task (Scenario.env missing_metrics_script)
            "transition_artifacts" sample_task "test_phase" ()))
  = TransitionValidator.FAILURE /\
  TransitionValidator.error_message
    (fst (TransitionValidator.validate_task (Scenario.env missing_metrics_script)
            "transition_artifacts" sample_task "test_phase" ()))
  = PyStr "Missing artifact: metrics.json".
Proof.
  destruct (TransitionValidatorMore.X11_first_missing_artifact_fails_with_partial_map
              (Scenario.env missing_metrics_script) "transition_artifacts" sample_task
              sample_validation "test_phase" () ()
              (Scenario.status_json "success") EmptyString
              [("status", PyStr "success")] ["test.txt"] [] "metrics.json"
              eq_refl eq_refl eq_refl eq_refl) as (H1 & H2 & _).
  - intros x [<- | []]. eexists. reflexivity.
  - reflexivity.
  - split; [exact H1 | exact H2].
Defined.

Lemma X12_artifacts_only_under_declared_names_witness :
  exists v out err w1 items,
    validation sample_task = Some v /\
    In "test.txt" (from_option id [] (expected_artifacts v)) /\
    subprocess_run (Scenario.env C8_script) (Argv ["python"; script v]) ()
      = (Completed 0 out err, w1) /\
    json_loads (Scenario.env C8_script) out = Some (PyDict items).
Proof.
  apply (TransitionValidatorMore.X12_artifacts_only_under_declared_names
           (Scenario.env C8_script) "transition_artifacts" sample_task "test_phase" ()
           "test.txt").
  exists "Test output". vm_compute. reflexivity.
Defined.

Lemma X13_generate_prompt_returns_first_choice_witness :
  LMStudioClient.generate_prompt
    (answering (LMStudioClient.JsonBody (PyDict (completion (PyStr "All resolved")))))
    LMStudioClient.default_endpoint plain_context ()
  = (Ok (PyStr "All resolved"), ()).
Proof.
  exact (LMStudioClientFacts.X13_generate_prompt_returns_first_choice
           (answering (LMStudioClient.JsonBody (PyDict (completion (PyStr "All resolved")))))
           LMStudioClient.default_endpoint plain_context () ()
           (completion (PyStr "All resolved"))
           [("message", PyDict [("role", PyStr "assistant");
                                ("content", PyStr "All resolved")])]
           [("role", PyStr "assistant"); ("content", PyStr "All resolved")] []
           eq_refl eq_refl eq_refl).
Defined.

Lemma X14_generate_prompt_faults_and_defaults_witness :
  LMStudioClient.generate_prompt
    (answering (LMStudioClient.RequestException "Connection refused"))
    LMStudioClient.default_endpoint plain_context ()
  = (Ok (PyStr "Error generating prompt: Connection refused"), ()).
Proof.
  exact (proj1 (LMStudioClientFacts.X14_generate_prompt_faults_and_defaults
                  (answering (LMStudioClient.RequestException "Connection refused"))
                  LMStudioClient.default_endpoint plain_context () ())
               "Connection refused" eq_refl).
Defined.

Lemma X15_unreachable_assistant_decides_by_fault_text_witness :
  BlockerResolver._check_if_resolved
    (LMStudioClient.with_client
       (answering (LMStudioClient.RequestException "Connection refused"))
       (Scenario.env C10_script)) C10_blocker ()
  = (Ok false, ()).
Proof.
  refine (proj1 (LMStudioClientFacts.X15_unreachable_assistant_decides_by_fault_text
                   (answering (LMStudioClient.RequestException "Connection refused"))
                   (Scenario.env C10_script) C10_blocker prompt_resolution "Test prompt"
                   () () () eq_refl eq_refl eq_refl _)
                "Connection refused" eq_refl).
  discriminate.
Defined.

Lemma X16_malformed_reply_raises_out_of_the_check_witness :
  BlockerResolver._check_if_resolved
    (LMStudioClient.with_client
       (answering (LMStudioClient.JsonBody (PyDict [("choices", PyList [])])))
       (Scenario.env C10_script)) C10_blocker ()
  = (Raise "list index out of range", ()).
Proof.
  refine (proj1 (LMStudioClientFacts.X16_malformed_reply_raises_out_of_the_check
                   (answering (LMStudioClient.JsonBody (PyDict [("choices", PyList [])])))
                   (Scenario.env C10_script) C10_blocker prompt_resolution "Test prompt"
                   () () () [("choices", PyList [])] eq_refl eq_refl eq_refl _ eq_refl)
                eq_refl).
  discriminate.
Defined.


Lemma X19_raising_resolution_ends_the_run_in_progress_witness :
  fst raising_run = 1%Z /\
  task_status (status (snd raising_run)) "Ship" "Deploy" = Some "in_progress".
Proof.
  destruct (OrchestratorMore.X19_raising_resolution_ends_the_run_in_progress
              (Scenario.env raising_script) (blocker_loaded C10_blocker) "rollout" _ start
              (take 2 (trace (snd raising_run))) (drop 3 (trace (snd raising_run)))
              "Ship" "Deploy" "connection reset" eq_refl eq_refl)
    as (Hcode & _ & Hstatus).
  - vm_compute. reflexivity.
  - split; [exact Hcode | exact Hstatus].
Defined.

Lemma X20_return_zero_leaves_everything_completed_or_blocked_witness :
  phase_status (status (snd C4_run)) "Test Phase" = Some "completed".
Proof.
  refine (proj1 (OrchestratorStatus.X20_return_zero_leaves_everything_completed_or_blocked
                   (Scenario.env C4_script) C4_loaded _ start
                   {| name := "Test Phase";
                      tasks :=
                        Some [ {| description := "Test Task";
                                  command := Some "echo 'test'";
                                  validation :=
                                    Some {| script := "validate_test.py";
                                            expected_artifacts :=
                                              Some ["test.txt"; "metrics.json"] |};
                                  blockers := None |} ];
                      success_gate := Some (GateObject C4_gate) |}
                   eq_refl _ _)).
  - vm_compute. reflexivity.
  - left. reflexivity.
Defined.


Lemma X23_run_starts_only_declared_processes_in_order_witness :
  exists added,
    trace (snd C4_run) = trace start ++ added /\
    sublist (runs added)
      [("Test Phase", "Test Task", Shell "echo 'test'");
       ("Test Phase", "Test Task", Argv ["python"; "validate_test.py"])] /\
    saves_only_to "test" added.
Proof.
  exact (OrchestratorTrace.X23_run_starts_only_declared_processes_in_order
           (Scenario.env C4_script) C4_loaded "test" _ start eq_refl eq_refl).
Defined.

Lemma X24_unresolved_blocker_starts_no_process_witness :
  exists added,
    trace (snd (execute_task (Scenario.env C3_script) (blocker_loaded C3_blocker) "Ship"
                  (blocker_task C3_blocker) shipping))
    = trace shipping ++ added /\
    In (EvResolve "Ship" "Deploy" (Ok [C3_blocker])) added /\
    runs added = [].
Proof.
  exact (OrchestratorTrace.X24_unresolved_blocker_starts_no_process
           (Scenario.env C3_script) (blocker_loaded C3_blocker) "Ship"
           (blocker_task C3_blocker) shipping [C3_blocker] C3_blocker [] ()
           eq_refl eq_refl).
Defined.

Lemma X25_failed_load_keeps_the_checklist_but_takes_the_name_witness :
  exists msg,
    load_checklist (Scenario.env C7_script) (files_with ChecklistMissing StatusMissing)
      ".checklists" "nightly" C7_loaded start
    = (Raise msg,
       {| current_checklist := current_checklist C7_loaded;
          checklist_name := Some "nightly" |},
       start).
Proof.
  apply OrchestratorLoad.X25_failed_load_keeps_the_checklist_but_takes_the_name.
  left. reflexivity.
Defined.

Lemma X26_after_a_failed_load_saves_go_to_the_other_file_witness :
  exists self',
    load_checklist (Scenario.env C7_script) (files_with ChecklistMissing StatusMissing)
      ".checklists" "nightly" C7_loaded start
    = (Raise "Checklist nightly not found", self', start) /\
    current_checklist self' = current_checklist C7_loaded /\
    exists added,
      trace (snd (execute_checklist (Scenario.env C7_script) self' start))
      = trace start ++ added /\
      sublist (runs added) (declared_runs release_phases) /\
      saves_only_to "nightly" added.
Proof.
  exact (OrchestratorLoad.X26_after_a_failed_load_saves_go_to_the_other_file
           (Scenario.env C7_script) (files_with ChecklistMissing StatusMissing)
           ".checklists" "nightly" C7_loaded _ start eq_refl eq_refl).
Defined.

Lemma X27_fresh_load_records_everything_as_not_started_witness :
  exists self' st',
    load_checklist (Scenario.env C7_script)
      (files_with (ChecklistDecoded release_file) StatusMissing)
      ".checklists" "release" fresh start = (Ok (), self', st') /\
    task_status (status st') "Build" "Package" = Some "not_started".
Proof.
  destruct (OrchestratorLoad.X27_fresh_load_records_everything_as_not_started
              (Scenario.env C7_script)
              (files_with (ChecklistDecoded release_file) StatusMissing)
              ".checklists" "release" fresh start release_file release_section
              release_phases eq_refl eq_refl eq_refl eq_refl)
    as (self' & st' & Hload & _ & _ & _ & _ & _ & _ & Hall).
  exists self', st'. split; [exact Hload |].
  apply (Hall ltac:(apply NoDup_ListNoDup; repeat constructor; simpl; intuition discriminate)
              {| name := "Build";
                 tasks := Some [command_task "Compile" "make build";
                                command_task "Package" "make package"];
                 success_gate := None |}
              (command_task "Package" "make package")).
  - left. reflexivity.
  - right. left. reflexivity.
Defined.

Lemma X28_main_returns_1_when_the_load_raises_witness :
  main (Scenario.env C7_script)
    (files_with (ChecklistDecoded release_file) (StatusUndecodable cannot_decode))
    "release" false ()
  = {| returned := Some 1%Z;
       printed := Some ("Error: " +:+ cannot_decode);
       final := start |}.
Proof.
  exact (proj2 (OrchestratorLoad.X28_main_returns_1_when_the_load_raises
                  (Scenario.env C7_script)
                  (files_with (ChecklistDecoded release_file)
                     (StatusUndecodable cannot_decode))
                  "release" false ())
               release_file release_section release_phases cannot_decode
               eq_refl eq_refl eq_refl eq_refl).
Defined.

Lemma X29_display_status_raises_on_an_incomplete_checklist_witness :
  exists msg, display_status open_gate_loaded ∅ = Raise msg.
Proof.
  apply (OrchestratorLoad.X29_display_status_raises_on_an_incomplete_checklist
           open_gate_loaded _ ∅ eq_refl).
  right. eexists _, _. split; [left; reflexivity |]. split; [reflexivity |].
  right. reflexivity.
Defined.

Lemma X30_display_status_lists_every_phase_and_task_witness :
  exists text pre post,
    display_status C7_loaded ∅ = Ok text /\
    text = pre +:+ "   ⚪ Ship [not_started]" +:+ post.
Proof.
  destruct (display_status C7_loaded ∅) as [text | msg] eqn:Hd; [| discriminate Hd].
  destruct (OrchestratorLoad.X30_display_status_lists_every_phase_and_task
              C7_loaded _ ∅ text
              {| name := "Deploy";
                 tasks := Some [command_task "Ship" "make ship"];
                 success_gate := None |}
              eq_refl Hd (or_intror (or_introl eq_refl))) as [_ Htasks].
  destruct (Htasks (command_task "Ship" "make ship") (or_introl eq_refl))
    as [(pre & post & Htext) Hline].
  exists text, pre, post. split; [reflexivity |].
  rewrite Htext. now rewrite (Hline eq_refl).
Defined.

End Examples.
